(** * HoopsHype TV backend (server.py): box-score normaliser, headline
      selector, snapshot cache, refresh loop and health check.

    The Python of [src/server.py] is embedded function by function.
    - A Python [str] is a [string]; its characters are read as the code
      points 0..255, so that whitespace and digits are CPython's on that
      range: the white space of [str.strip] and [str.split], and the
      smaller set that [int] and [float] skip.
    - A Python [int] is a [Z]; a Python [float] is a binary64 value of the
      Standard Library's [SpecFloat], with [prec = 53] and [emax = 1024].
    - A payload value decoded from JSON is a [pyval]; a JSON object is a
      [gmap string pyval].
    - A call that can raise returns [res]: [Ok v] or [Raise e].
    - The scoreboard feed, the scraped page, the configuration and the
      clock are inputs of the functions that use them.
    - [json] decodes every NaN of a payload to one and the same float
      object, and [==] on lists and dicts looks at identity first: two
      NaN of a payload compare equal inside a container, and [item_eq]
      follows this.
    - CPython's limit on the number of digits of an int converted from or
      to a str (4300 by default) is left out. *)

From Stdlib Require Import ZArith Ascii List Lia Bool.
From Stdlib Require Import Floats.SpecFloat.
From stdpp Require Import gmap strings list pretty.

Set Warnings "-register-all".
Open Scope Z_scope.

(** ** Exceptions *)

Inductive pyexc :=
| TypeError | ValueError | AttributeError | OverflowError
| ZeroDivisionError | KeyError | IndexError.

Inductive res (A : Type) :=
| Ok (a : A)
| Raise (e : pyexc).
Arguments Ok {A} a.
Arguments Raise {A} e.

Global Instance res_ret : MRet res := fun A a => Ok a.

Global Instance res_bind : MBind res := fun A B k r =>
  match r with
  | Ok a => k a
  | Raise e => Raise e
  end.

(** [try: ... except: d] with a bare [except]. *)
Definition try_except {A} (r : res A) (d : A) : A :=
  match r with
  | Ok a => a
  | Raise _ => d
  end.

(** ** Python strings *)

Module PyStr.

Definition code (c : ascii) : N := N_of_ascii c.

(** [str.isspace] on one character, for the code points below 256. *)
Definition is_space (c : ascii) : bool :=
  let n := code c in
  ((9 <=? n) && (n <=? 13) || (28 <=? n) && (n <=? 32)
   || (n =? 133) || (n =? 160))%N.

Definition is_digit (c : ascii) : bool :=
  let n := code c in ((48 <=? n) && (n <=? 57))%N.

Definition digit_val (c : ascii) : Z := Z.of_N (code c) - 48.

Definition lower (c : ascii) : ascii :=
  let n := code c in
  if ((65 <=? n) && (n <=? 90))%N then ascii_of_N (n + 32) else c.

Fixpoint lstrip (s : string) : string :=
  match s with
  | String c s' => if is_space c then lstrip s' else s
  | EmptyString => EmptyString
  end.

Fixpoint rstrip (s : string) : string :=
  match s with
  | EmptyString => EmptyString
  | String c s' =>
      match rstrip s' with
      | EmptyString => if is_space c then EmptyString else String c EmptyString
      | r => String c r
      end
  end.

(** [s.strip()] *)
Definition strip (s : string) : string := rstrip (lstrip s).

(** The white space that [int] and [float] skip around a number: the
    ASCII white space and, of the other code points below 256, 133 and
    160.  The separators 28 to 31, which [str.strip] takes off, are not
    skipped: a number next to one of them does not convert. *)
Definition is_num_space (c : ascii) : bool :=
  let n := code c in
  ((9 <=? n) && (n <=? 13) || (n =? 32) || (n =? 133) || (n =? 160))%N.

Fixpoint num_lstrip (s : string) : string :=
  match s with
  | String c s' => if is_num_space c then num_lstrip s' else s
  | EmptyString => EmptyString
  end.

Fixpoint num_rstrip (s : string) : string :=
  match s with
  | EmptyString => EmptyString
  | String c s' =>
      match num_rstrip s' with
      | EmptyString =>
          if is_num_space c then EmptyString else String c EmptyString
      | r => String c r
      end
  end.

Definition num_strip (s : string) : string := num_rstrip (num_lstrip s).

(** [s.replace(old, new)] for a non-empty [old]: occurrences are taken
    left to right and do not overlap.  [skip] counts the characters of
    the current occurrence still to be passed over. *)
Fixpoint replace_go (old new : string) (skip : nat) (s : string) : string :=
  match s with
  | EmptyString => EmptyString
  | String c s' =>
      match skip with
      | S k => replace_go old new k s'
      | O =>
          if String.prefix old s
          then new +:+ replace_go old new (String.length old - 1) s'
          else String c (replace_go old new 0 s')
      end
  end.

(** With an empty [old], Python puts [new] before every character and at
    the end. *)
Fixpoint replace_empty (new s : string) : string :=
  match s with
  | EmptyString => new
  | String c s' => new +:+ String c (replace_empty new s')
  end.

Definition replace (old new s : string) : string :=
  match old with
  | EmptyString => replace_empty new s
  | _ => replace_go old new 0 s
  end.

(** [c in s] for a one-character [c]. *)
Fixpoint contains (c : ascii) (s : string) : bool :=
  match s with
  | EmptyString => false
  | String d s' => if Ascii.eqb c d then true else contains c s'
  end.

(** [sub in s] *)
Fixpoint has_sub (sub s : string) : bool :=
  String.prefix sub s
  || match s with
     | String _ s' => has_sub sub s'
     | EmptyString => false
     end.

(** [s.split(sep)] for a one-character separator: never an empty list. *)
Fixpoint split (sep : ascii) (s : string) : list string :=
  match s with
  | EmptyString => [EmptyString]
  | String c s' =>
      if Ascii.eqb c sep then EmptyString :: split sep s'
      else match split sep s' with
           | p :: ps => String c p :: ps
           | [] => [String c EmptyString]
           end
  end.

(** [s.split()]: the maximal runs of non-space characters. *)
Fixpoint split_ws_go (cur : option string) (s : string) : list string :=
  match s with
  | EmptyString =>
      match cur with Some w => [String.rev w] | None => [] end
  | String c s' =>
      if is_space c then
        match cur with
        | Some w => String.rev w :: split_ws_go None s'
        | None => split_ws_go None s'
        end
      else
        match cur with
        | Some w => split_ws_go (Some (String c w)) s'
        | None => split_ws_go (Some (String c EmptyString)) s'
        end
  end.

Definition split_ws (s : string) : list string := split_ws_go None s.

(** [sep.join(parts)] *)
Fixpoint join (sep : string) (parts : list string) : string :=
  match parts with
  | [] => EmptyString
  | [p] => p
  | p :: ps => p +:+ sep +:+ join sep ps
  end.

(** A run of decimal digits in which single underscores may separate
    digits: the value read and the number of digits.  [prev] tells
    whether the previous character was a digit. *)
Fixpoint digits_go (acc : Z) (n : nat) (prev : bool) (s : string)
  : option (Z * nat) :=
  match s with
  | EmptyString => if prev then Some (acc, n) else None
  | String c s' =>
      if is_digit c then digits_go (10 * acc + digit_val c) (S n) true s'
      else if Ascii.eqb c "_" && prev then digits_go acc n false s'
      else None
  end.

Definition digits (s : string) : option (Z * nat) := digits_go 0 0 false s.

(** An optional sign: [true] for a minus. *)
Definition sign (s : string) : bool * string :=
  match s with
  | String "-" s' => (true, s')
  | String "+" s' => (false, s')
  | _ => (false, s)
  end.

Fixpoint lower_str (s : string) : string :=
  match s with
  | EmptyString => EmptyString
  | String c s' => String (lower c) (lower_str s')
  end.

(** The first occurrence of one of the two characters [c1], [c2] cuts
    the string in two; the character itself is dropped. *)
Fixpoint cut2 (c1 c2 : ascii) (s : string) : string * option string :=
  match s with
  | EmptyString => (EmptyString, None)
  | String c s' =>
      if Ascii.eqb c c1 || Ascii.eqb c c2 then (EmptyString, Some s')
      else let '(a, b) := cut2 c1 c2 s' in (String c a, b)
  end.

End PyStr.

(** ** Python floats: binary64 *)

Module PyFloat.

Definition prec : Z := 53.
Definition emax : Z := 1024.

Definition is_finite (x : spec_float) : bool :=
  match x with
  | S754_zero _ | S754_finite _ _ _ => true
  | _ => false
  end.

(** The binary64 value nearest to an integer, ties to even; an infinity
    when the integer is too large. *)
Definition of_Z (z : Z) : spec_float := binary_normalize prec emax z 0 false.

(** The binary64 value nearest to [(-1)^neg * n / d], ties to even. *)
Definition of_ratio (neg : bool) (n d : positive) : spec_float :=
  SFdiv prec emax (S754_finite neg n 0) (S754_finite false d 0).

(** The binary64 value nearest to [(-1)^neg * n * 10^e10]: what
    [strtod] returns for the digits [n] and the decimal exponent
    [e10]. *)
Definition of_decimal (neg : bool) (n : Z) (e10 : Z) : spec_float :=
  match n with
  | Zpos p =>
      if 0 <=? e10
      then binary_normalize prec emax
             ((if neg then -1 else 1) * (Zpos p * 10 ^ e10)) 0 false
      else of_ratio neg p (Z.to_pos (10 ^ (- e10)))
  | _ => S754_zero neg
  end.

(** [float(z)] for an int [z]. *)
Definition of_int (z : Z) : res spec_float :=
  let x := of_Z z in
  if is_finite x then Ok x else Raise OverflowError.

(** [int(x)]: truncation towards zero. *)
Definition to_int (x : spec_float) : res Z :=
  match x with
  | S754_zero _ => Ok 0
  | S754_finite s m e =>
      let a := if 0 <=? e then Zpos m * 2 ^ e else Zpos m / 2 ^ (- e) in
      Ok (if s then - a else a)
  | S754_infinity _ => Raise OverflowError
  | S754_nan => Raise ValueError
  end.

(** Exact comparison of a float with an integer, as [float.__eq__],
    [__lt__], ... do against an int; [None] for a NaN. *)
Definition cmp_Z (x : spec_float) (z : Z) : option comparison :=
  match x with
  | S754_nan => None
  | S754_infinity s => Some (if s then Lt else Gt)
  | S754_zero _ => Some (0 ?= z)
  | S754_finite s m e =>
      let a := if s then Zneg m else Zpos m in
      Some (if 0 <=? e then a * 2 ^ e ?= z else a ?= z * 2 ^ (- e))
  end.

Definition is_zero (x : spec_float) : bool :=
  match x with
  | S754_zero _ => true
  | _ => false
  end.

(** [x / y] on floats. *)
Definition div (x y : spec_float) : res spec_float :=
  if is_zero y then Raise ZeroDivisionError else Ok (SFdiv prec emax x y).

(** [a / b] on ints: the correctly rounded quotient. *)
Definition div_int (a b : Z) : res spec_float :=
  match a, b with
  | _, 0 => Raise ZeroDivisionError
  | 0, _ => Ok (S754_zero (b <? 0))
  | _, _ =>
      let q := of_ratio (xorb (a <? 0) (b <? 0))
                        (Z.to_pos (Z.abs a)) (Z.to_pos (Z.abs b)) in
      if is_finite q then Ok q else Raise OverflowError
  end.

(** The integer nearest to [n / d], ties to even ([0 <= n], [0 < d]). *)
Definition nearest_even (n d : Z) : Z :=
  let q := n / d in
  let r := n mod d in
  match 2 * r ?= d with
  | Lt => q
  | Gt => q + 1
  | Eq => if Z.even q then q else q + 1
  end.

(** [round(x, 1)]: the exact value of [x] is rounded to one decimal,
    ties to even, and the decimal is read back as a float. *)
Definition round1 (x : spec_float) : spec_float :=
  match x with
  | S754_finite s m e =>
      let k := if 0 <=? e then 10 * Zpos m * 2 ^ e
               else nearest_even (10 * Zpos m) (2 ^ (- e)) in
      match k with
      | Zpos p => of_ratio s p 10
      | _ => S754_zero s
      end
  | _ => x
  end.

(** The decimal literal that [float] accepts once the sign is off:
    digits, an optional point, an optional exponent, at least one digit
    in the mantissa.  The result [(n, e)] stands for [n * 10^e]. *)
Definition number (s : string) : option (Z * Z) :=
  let '(mant, ex) := PyStr.cut2 "e" "E" s in
  let '(ip, fp) := PyStr.cut2 "." "." mant in
  let ipart := match ip with
               | EmptyString => Some (0, 0%nat)
               | _ => PyStr.digits ip
               end in
  let fpart := match fp with
               | None | Some EmptyString => Some (0, 0%nat)
               | Some f => PyStr.digits f
               end in
  let epart := match ex with
               | None => Some 0
               | Some e =>
                   let '(neg, ds) := PyStr.sign e in
                   match PyStr.digits ds with
                   | Some (v, _) => Some (if neg then - v else v)
                   | None => None
                   end
               end in
  match ipart, fpart, epart with
  | Some (iv, ni), Some (fv, nf), Some e10 =>
      if (ni + nf =? 0)%nat then None
      else Some (iv * 10 ^ Z.of_nat nf + fv, e10 - Z.of_nat nf)
  | _, _, _ => None
  end.

(** [float(s)] for a str. *)
Definition of_string (s : string) : res spec_float :=
  let '(neg, body) := PyStr.sign (PyStr.num_strip s) in
  let l := PyStr.lower_str body in
  if String.eqb l "inf" || String.eqb l "infinity" then Ok (S754_infinity neg)
  else if String.eqb l "nan" then Ok S754_nan
  else match number body with
       | Some (n, e10) => Ok (of_decimal neg n e10)
       | None => Raise ValueError
       end.

End PyFloat.

(** [int(s)] for a str, base 10. *)
Definition int_of_string (s : string) : res Z :=
  let '(neg, body) := PyStr.sign (PyStr.num_strip s) in
  match PyStr.digits body with
  | Some (v, _) => Ok (if neg then - v else v)
  | None => Raise ValueError
  end.

(** ** Payload values *)

(** What [json] decoding yields: [None], [bool], [int], [float], [str],
    [list] and [dict] with string keys. *)
Inductive pyval :=
| VNone
| VBool (b : bool)
| VInt (z : Z)
| VFloat (x : spec_float)
| VStr (s : string)
| VList (l : list pyval)
| VDict (d : gmap string pyval).

(** The numbers of the arithmetic: a [bool] counts as the int 0 or 1. *)
Inductive num :=
| NInt (z : Z)
| NFloat (x : spec_float).

Definition num_of (v : pyval) : option num :=
  match v with
  | VBool b => Some (NInt (Z.b2z b))
  | VInt z => Some (NInt z)
  | VFloat x => Some (NFloat x)
  | _ => None
  end.

Definition val_of_num (n : num) : pyval :=
  match n with
  | NInt z => VInt z
  | NFloat x => VFloat x
  end.

Definition to_float (n : num) : res spec_float :=
  match n with
  | NInt z => PyFloat.of_int z
  | NFloat x => Ok x
  end.

(** [a + b], [a - b] on numbers. *)
Definition num_add (a b : num) : res num :=
  match a, b with
  | NInt x, NInt y => Ok (NInt (x + y))
  | _, _ =>
      x ← to_float a; y ← to_float b;
      Ok (NFloat (SFadd PyFloat.prec PyFloat.emax x y))
  end.

Definition num_sub (a b : num) : res num :=
  match a, b with
  | NInt x, NInt y => Ok (NInt (x - y))
  | _, _ =>
      x ← to_float a; y ← to_float b;
      Ok (NFloat (SFsub PyFloat.prec PyFloat.emax x y))
  end.

(** [a / b] on numbers: always a float. *)
Definition num_truediv (a b : num) : res spec_float :=
  match a, b with
  | NInt x, NInt y => PyFloat.div_int x y
  | _, _ => x ← to_float a; y ← to_float b; PyFloat.div x y
  end.

(** [a * k] for a float [a] and an int [k]. *)
Definition float_mul_int (a : spec_float) (k : Z) : res spec_float :=
  y ← PyFloat.of_int k; Ok (SFmul PyFloat.prec PyFloat.emax a y).

(** The order of a number and an int; [None] when a NaN is involved. *)
Definition num_cmp (a : num) (k : Z) : option comparison :=
  match a with
  | NInt z => Some (z ?= k)
  | NFloat x => PyFloat.cmp_Z x k
  end.

Definition cmp_le (c : option comparison) : bool :=
  match c with Some Lt | Some Eq => true | _ => false end.
Definition cmp_lt (c : option comparison) : bool :=
  match c with Some Lt => true | _ => false end.
Definition cmp_gt (c : option comparison) : bool :=
  match c with Some Gt => true | _ => false end.
Definition cmp_ge (c : option comparison) : bool :=
  match c with Some Gt | Some Eq => true | _ => false end.
Definition cmp_eq (c : option comparison) : bool :=
  match c with Some Eq => true | _ => false end.

(** [v == k] for an int literal [k]: never raises. *)
Definition py_eq_int (v : pyval) (k : Z) : bool :=
  match num_of v with
  | Some n => cmp_eq (num_cmp n k)
  | None => false
  end.

(** [v == s] for a str literal [s]: never raises. *)
Definition py_eq_str (v : pyval) (s : string) : bool :=
  match v with
  | VStr s' => String.eqb s' s
  | _ => false
  end.

(** [v <= k], [v > k], ... for an int literal [k]: [TypeError] unless [v]
    is a number. *)
Definition py_cmp_int (v : pyval) (k : Z) : res (option comparison) :=
  match num_of v with
  | Some n => Ok (num_cmp n k)
  | None => Raise TypeError
  end.

(** [d.get(k, dflt)] *)
Definition py_get (v : pyval) (k : string) (dflt : pyval) : res pyval :=
  match v with
  | VDict d => Ok (default dflt (d !! k))
  | _ => Raise AttributeError
  end.

(** [key in v] for a str [key]. *)
Definition py_in (key : string) (v : pyval) : res bool :=
  match v with
  | VDict d => Ok (match d !! key with Some _ => true | None => false end)
  | VList l => Ok (existsb (fun x => py_eq_str x key) l)
  | VStr s => Ok (PyStr.has_sub key s)
  | _ => Raise TypeError
  end.

(** [v[key]] for a str [key]. *)
Definition py_item (v : pyval) (key : string) : res pyval :=
  match v with
  | VDict d =>
      match d !! key with
      | Some x => Ok x
      | None => Raise KeyError
      end
  | _ => Raise TypeError
  end.

(** Equality of two numbers that are items of a list or a dict.  The
    json decoder gives one object for every NaN of a payload, and lists
    and dicts take identical items as equal, so a NaN equals a NaN
    here. *)
Definition num_eq (a b : num) : bool :=
  match a, b with
  | NInt x, NInt y => x =? y
  | NFloat x, NInt y => cmp_eq (PyFloat.cmp_Z x y)
  | NInt x, NFloat y => cmp_eq (PyFloat.cmp_Z y x)
  | NFloat S754_nan, NFloat S754_nan => true
  | NFloat x, NFloat y => SFeqb x y
  end.

(** The comparison of two items of one decoded payload, as [==] on
    lists and dicts makes it: identical, or equal. *)
Fixpoint item_eq (a b : pyval) {struct a} : bool :=
  match a, b with
  | VNone, VNone => true
  | VStr s, VStr s' => String.eqb s s'
  | VList l, VList l' =>
      (fix all2 (l l' : list pyval) : bool :=
         match l, l' with
         | [], [] => true
         | x :: l, y :: l' => item_eq x y && all2 l l'
         | _, _ => false
         end) l l'
  | VDict d, VDict d' =>
      (size d =? size d')%nat
      && map_fold
           (fun k v acc =>
              acc && match d' !! k with
                     | Some v' => item_eq v v'
                     | None => false
                     end)
           true d
  | _, _ =>
      match num_of a, num_of b with
      | Some x, Some y => num_eq x y
      | _, _ => false
      end
  end.

(** [a == b] for two values of one decoded payload.  Identity plays no
    part at this level: a NaN differs from everything, itself
    included. *)
Definition py_eq (a b : pyval) : bool :=
  match a with
  | VFloat S754_nan => false
  | _ => item_eq a b
  end.

(** Truth value, as [if v:] takes it. *)
Definition py_truth (v : pyval) : bool :=
  match v with
  | VNone => false
  | VBool b => b
  | VInt z => negb (z =? 0)
  | VFloat x => negb (PyFloat.is_zero x)
  | VStr s => negb (String.eqb s EmptyString)
  | VList l => match l with [] => false | _ => true end
  | VDict d => negb (bool_decide (d = ∅))
  end.

Fixpoint chars (s : string) : list pyval :=
  match s with
  | EmptyString => []
  | String c s' => VStr (String c EmptyString) :: chars s'
  end.

(** [for x in v]: the items visited.  A dict yields its keys, here in
    the order of the map and not in the order of insertion: the loops of
    the code call [.get] on each item, which a str does not have, so the
    order is never observed. *)
Definition py_iter (v : pyval) : res (list pyval) :=
  match v with
  | VList l => Ok l
  | VStr s => Ok (chars s)
  | VDict d => Ok (VStr <$> (map_to_list d).*1)
  | _ => Raise TypeError
  end.

(** [a + b] where [b] is a str: concatenation, a [TypeError] unless [a]
    is a str too. *)
Definition py_concat (a b : pyval) : res pyval :=
  match a, b with
  | VStr x, VStr y => Ok (VStr (x +:+ y))
  | _, _ => Raise TypeError
  end.

(** [v.strip()]: only a str has the method. *)
Definition py_strip (v : pyval) : res string :=
  match v with
  | VStr s => Ok (PyStr.strip s)
  | _ => Raise AttributeError
  end.

(** [format(n, "02d")] *)
Definition pad2 (n : Z) : string :=
  if (0 <=? n) && (n <? 10) then "0" +:+ pretty n else pretty n.

(** [x % k] for a float [x] and a positive int [k]: C's [fmod], which is
    exact, then the sign is brought to that of [k]. *)
Definition float_mod (x : spec_float) (k : Z) : spec_float :=
  match x with
  | S754_finite s m e =>
      let r := if 0 <=? e
               then PyFloat.of_Z ((Zpos m * 2 ^ e) mod k)
               else binary_normalize PyFloat.prec PyFloat.emax
                      (Zpos m mod (k * 2 ^ (- e))) e false in
      if PyFloat.is_zero r then S754_zero false
      else if s
           then SFadd PyFloat.prec PyFloat.emax
                  (SFopp r) (PyFloat.of_Z k)
           else r
  | S754_zero _ => S754_zero false
  | _ => S754_nan
  end.

Definition num_mod (a : num) (k : Z) : num :=
  match a with
  | NInt z => NInt (z mod k)
  | NFloat x => NFloat (float_mod x k)
  end.

(** ** Box-score records *)

Record PlayerLine := {
  pl_n : string;
  pl_pos : pyval;
  pl_min : Z;
  pl_pts : pyval;
  pl_fg : string;
  pl_tp : string;
  pl_ft : string;
  pl_or : pyval;
  pl_dr : pyval;
  pl_reb : pyval;
  pl_ast : pyval;
  pl_stl : pyval;
  pl_blk : pyval;
  pl_to : pyval;
  pl_pf : pyval;
  pl_pm : string;
}.

Record DNPEntry := {
  dnp_n : string;
  dnp_r : string;
}.

(** The running [totals] dict of [_parse_players]. *)
Record Totals := {
  tot_min : Z;
  tot_pts : num;
  tot_fg : num * num;
  tot_tp : num * num;
  tot_ft : num * num;
  tot_or : num;
  tot_dr : num;
  tot_reb : num;
  tot_ast : num;
  tot_stl : num;
  tot_blk : num;
  tot_to : num;
  tot_pf : num;
}.

(** [totals_formatted] *)
Record TotalsLine := {
  tl_min : Z;
  tl_pts : num;
  tl_fg : string;
  tl_tp : string;
  tl_ft : string;
  tl_or : num;
  tl_dr : num;
  tl_reb : num;
  tl_ast : num;
  tl_stl : num;
  tl_blk : num;
  tl_to : num;
  tl_pf : num;
  tl_pm : string;
}.

Record Pcts := {
  pc_fg : string;
  pc_tp : string;
  pc_ft : string;
}.

Record PlayerSection := {
  starters : list PlayerLine;
  bench : list PlayerLine;
  dnp : list DNPEntry;
  totals : TotalsLine;
  pcts : Pcts;
}.

Record Splits := {
  sp_fg : spec_float;
  sp_tp : spec_float;
  sp_ft : spec_float;
}.

(** [{"p": ..., "v": ...}] *)
Record Leader := {
  ld_p : pyval;
  ld_v : pyval;
}.

Record Leaders := {
  l_pts : Leader;
  l_reb : Leader;
  l_ast : Leader;
}.

(** One side of a game. *)
Record TeamBoxScore := {
  abbr : pyval;
  city : pyval;
  name : pyval;
  record : string;
  score : pyval;
  quarters : list pyval;
  leaders : Leaders;
  splits : Splits;
  players : PlayerSection;
}.

Record Game := {
  game_id : pyval;
  status : string;
  period : string;
  clock : string;
  arena : pyval;
  away : TeamBoxScore;
  home : TeamBoxScore;
}.

(** The shot counts read from a player's statistics. *)
Record ShotVals := {
  fgm : pyval; fga : pyval;
  tpm : pyval; tpa : pyval;
  ftm : pyval; fta : pyval;
}.

(** The state of the [for p in players_data] loop. *)
Record LoopState := {
  ls_starters : list PlayerLine;
  ls_bench : list PlayerLine;
  ls_dnp : list DNPEntry;
  ls_totals : Totals;
}.

Definition totals0 : Totals :=
  {| tot_min := 0; tot_pts := NInt 0;
     tot_fg := (NInt 0, NInt 0); tot_tp := (NInt 0, NInt 0);
     tot_ft := (NInt 0, NInt 0);
     tot_or := NInt 0; tot_dr := NInt 0; tot_reb := NInt 0;
     tot_ast := NInt 0; tot_stl := NInt 0; tot_blk := NInt 0;
     tot_to := NInt 0; tot_pf := NInt 0 |}.

Definition loop0 : LoopState :=
  {| ls_starters := []; ls_bench := []; ls_dnp := []; ls_totals := totals0 |}.

(** [acc += v] on a numeric accumulator. *)
Definition acc_add (acc : num) (v : pyval) : res num :=
  match num_of v with
  | Some n => num_add acc n
  | None => Raise TypeError
  end.

(** ** The normaliser *)

(** [_pct] *)
Definition _pct (made attempted : pyval) : res spec_float :=
  if py_eq_int attempted 0 then Ok (S754_zero false)
  else
    match num_of made, num_of attempted with
    | Some m, Some a =>
        q ← num_truediv m a;
        x ← float_mul_int q 100;
        Ok (PyFloat.round1 x)
    | _, _ => Raise TypeError
    end.

(** [_short_name] *)
Definition _short_name (full : pyval) : res string :=
  match full with
  | VStr f =>
      match PyStr.split_ws (PyStr.strip f) with
      | String c _ :: ((_ :: _) as rest) =>
          Ok (String c ". " +:+ PyStr.join " " rest)
      | _ => Ok f
      end
  | _ => Raise AttributeError
  end.

Section Normaliser.

(** [repr] of a float, a list or a dict.  The code only prints these
    texts, it never looks into them. *)
Variable repr_other : pyval -> string.

(** [str(v)], also what an f-string puts for [{v}]. *)
Definition py_str (v : pyval) : string :=
  match v with
  | VNone => "None"
  | VBool true => "True"
  | VBool false => "False"
  | VInt z => pretty z
  | VStr s => s
  | _ => repr_other v
  end.

(** [_parse_minutes] *)
Definition _parse_minutes (val : pyval) : res Z :=
  match val with
  | VBool b => Ok (Z.b2z b)
  | VInt z => Ok z
  | VFloat x => PyFloat.to_int x
  | _ =>
      let s := PyStr.strip
                 (PyStr.replace "S" EmptyString
                    (PyStr.replace "M" EmptyString
                       (PyStr.replace "PT" EmptyString (py_str val)))) in
      Ok (try_except
            (if PyStr.contains ":" s
             then int_of_string (hd EmptyString (PyStr.split ":" s))
             else x ← PyFloat.of_string s; PyFloat.to_int x)
            0)
  end.

(** [_format_pm] *)
Definition _format_pm (val : pyval) : res string :=
  c ← py_cmp_int val 0;
  if cmp_gt c then Ok ("+" +:+ py_str val)
  else if cmp_lt c then Ok (py_str val)
  else Ok "0".

(** The name of a player record, abbreviated:
    [_short_name] of the value under "name"; the default of that
    lookup is the first name, a space and the family name, each an empty
    str when its key is missing. The default is computed before the
    lookup of ["name"]. *)
Definition player_name (p : pyval) : res string :=
  first ← py_get p "firstName" (VStr EmptyString);
  a ← py_concat first (VStr " ");
  family ← py_get p "familyName" (VStr EmptyString);
  dflt ← py_concat a family;
  full ← py_get p "name" dflt;
  _short_name full.

(** The test [status != "ACTIVE" or played == "0"]. *)
Definition is_dnp (p : pyval) : res bool :=
  st ← py_get p "status" (VStr "ACTIVE");
  played ← py_get p "played" (VStr "1");
  Ok (negb (py_eq_str st "ACTIVE") || py_eq_str played "0").

(** The test [starter == "1"]. *)
Definition is_starter (p : pyval) : res bool :=
  st ← py_get p "starter" (VStr "0");
  Ok (py_eq_str st "1").

Definition dnp_entry (p : pyval) : res DNPEntry :=
  reason ← py_get p "notPlayingReason" (VStr "Coach's Decision");
  n ← player_name p;
  Ok {| dnp_n := n; dnp_r := "DNP — " +:+ py_str reason |}.

(** The minutes of an active player:
    [_parse_minutes(stats.get("minutesCalculated",
    stats.get("minutes", "0")))]. *)
Definition player_minutes (stats : pyval) : res Z :=
  m0 ← py_get stats "minutes" (VStr "0");
  mins ← py_get stats "minutesCalculated" m0;
  _parse_minutes mins.

(** The six values [fgm], [fga], [tpm], [tpa], [ftm], [fta]. *)
Definition read_shots (stats : pyval) : res ShotVals :=
  fgm ← py_get stats "fieldGoalsMade" (VInt 0);
  fga ← py_get stats "fieldGoalsAttempted" (VInt 0);
  tpm ← py_get stats "threePointersMade" (VInt 0);
  tpa ← py_get stats "threePointersAttempted" (VInt 0);
  ftm ← py_get stats "freeThrowsMade" (VInt 0);
  fta ← py_get stats "freeThrowsAttempted" (VInt 0);
  Ok {| fgm := fgm; fga := fga; tpm := tpm; tpa := tpa;
        ftm := ftm; fta := fta |}.

(** [player_obj] *)
Definition player_obj (p stats : pyval) (min_val : Z) (sv : ShotVals)
  : res PlayerLine :=
  n ← player_name p;
  pos ← py_get p "position" (VStr EmptyString);
  pts ← py_get stats "points" (VInt 0);
  oreb ← py_get stats "reboundsOffensive" (VInt 0);
  dreb ← py_get stats "reboundsDefensive" (VInt 0);
  reb ← py_get stats "reboundsTotal" (VInt 0);
  ast ← py_get stats "assists" (VInt 0);
  stl ← py_get stats "steals" (VInt 0);
  blk ← py_get stats "blocks" (VInt 0);
  tov ← py_get stats "turnovers" (VInt 0);
  pf ← py_get stats "foulsPersonal" (VInt 0);
  pm0 ← py_get stats "plusMinusPoints" (VInt 0);
  pm ← _format_pm pm0;
  Ok {| pl_n := n; pl_pos := pos; pl_min := min_val; pl_pts := pts;
        pl_fg := py_str (fgm sv) +:+ "-" +:+ py_str (fga sv);
        pl_tp := py_str (tpm sv) +:+ "-" +:+ py_str (tpa sv);
        pl_ft := py_str (ftm sv) +:+ "-" +:+ py_str (fta sv);
        pl_or := oreb; pl_dr := dreb; pl_reb := reb; pl_ast := ast;
        pl_stl := stl; pl_blk := blk; pl_to := tov; pl_pf := pf;
        pl_pm := pm |}.

(** [totals[k][0] += made; totals[k][1] += attempted] *)
Definition add_pair (acc : num * num) (made attempted : pyval)
  : res (num * num) :=
  m ← acc_add acc.1 made;
  a ← acc_add acc.2 attempted;
  Ok (m, a).

(** The block [# Update totals]. *)
Definition update_totals (t : Totals) (min_val : Z) (sv : ShotVals)
    (l : PlayerLine) : res Totals :=
  pts ← acc_add (tot_pts t) (pl_pts l);
  fg ← add_pair (tot_fg t) (fgm sv) (fga sv);
  tp ← add_pair (tot_tp t) (tpm sv) (tpa sv);
  ft ← add_pair (tot_ft t) (ftm sv) (fta sv);
  oreb ← acc_add (tot_or t) (pl_or l);
  dreb ← acc_add (tot_dr t) (pl_dr l);
  reb ← acc_add (tot_reb t) (pl_reb l);
  ast ← acc_add (tot_ast t) (pl_ast l);
  stl ← acc_add (tot_stl t) (pl_stl l);
  blk ← acc_add (tot_blk t) (pl_blk l);
  tov ← acc_add (tot_to t) (pl_to l);
  pf ← acc_add (tot_pf t) (pl_pf l);
  Ok {| tot_min := tot_min t + min_val; tot_pts := pts;
        tot_fg := fg; tot_tp := tp; tot_ft := ft;
        tot_or := oreb; tot_dr := dreb; tot_reb := reb; tot_ast := ast;
        tot_stl := stl; tot_blk := blk; tot_to := tov; tot_pf := pf |}.

(** An active player: the line and the totals after it. *)
Definition active_step (t : Totals) (p stats : pyval)
  : res (PlayerLine * Totals) :=
  min_val ← player_minutes stats;
  sv ← read_shots stats;
  l ← player_obj p stats min_val sv;
  t' ← update_totals t min_val sv l;
  Ok (l, t').

(** One turn of the loop over [players_data]. *)
Definition player_step (st : LoopState) (p : pyval) : res LoopState :=
  stats ← py_get p "statistics" (VDict ∅);
  out ← is_dnp p;
  if out : bool then
    e ← dnp_entry p;
    Ok {| ls_starters := ls_starters st; ls_bench := ls_bench st;
          ls_dnp := ls_dnp st ++ [e]; ls_totals := ls_totals st |}
  else
    '(l, t) ← active_step (ls_totals st) p stats;
    s ← is_starter p;
    if s : bool then
      Ok {| ls_starters := ls_starters st ++ [l]; ls_bench := ls_bench st;
            ls_dnp := ls_dnp st; ls_totals := t |}
    else
      Ok {| ls_starters := ls_starters st; ls_bench := ls_bench st ++ [l];
            ls_dnp := ls_dnp st; ls_totals := t |}.

Fixpoint players_loop (st : LoopState) (ps : list pyval) : res LoopState :=
  match ps with
  | [] => Ok st
  | p :: ps' => st' ← player_step st p; players_loop st' ps'
  end.

Definition num_str (n : num) : string := py_str (val_of_num n).

Definition pair_str (p : num * num) : string :=
  num_str p.1 +:+ "-" +:+ num_str p.2.

Definition format_totals (t : Totals) : TotalsLine :=
  {| tl_min := tot_min t; tl_pts := tot_pts t;
     tl_fg := pair_str (tot_fg t); tl_tp := pair_str (tot_tp t);
     tl_ft := pair_str (tot_ft t);
     tl_or := tot_or t; tl_dr := tot_dr t; tl_reb := tot_reb t;
     tl_ast := tot_ast t; tl_stl := tot_stl t; tl_blk := tot_blk t;
     tl_to := tot_to t; tl_pf := tot_pf t; tl_pm := EmptyString |}.

(** [f"{_pct(made, attempted)}%"] on a pair of the totals. *)
Definition pct_str (p : num * num) : res string :=
  x ← _pct (val_of_num p.1) (val_of_num p.2);
  Ok (py_str (VFloat x) +:+ "%").

(** [_parse_players] *)
Definition _parse_players (players_data : pyval) : res PlayerSection :=
  ps ← py_iter players_data;
  st ← players_loop loop0 ps;
  let t := ls_totals st in
  fg ← pct_str (tot_fg t);
  tp ← pct_str (tot_tp t);
  ft ← pct_str (tot_ft t);
  Ok {| starters := ls_starters st; bench := ls_bench st;
        dnp := ls_dnp st; totals := format_totals t;
        pcts := {| pc_fg := fg; pc_tp := tp; pc_ft := ft |} |}.

(** [while len(quarters) < 4: quarters.append(0)]; four turns are
    always enough. *)
Fixpoint pad_loop (fuel : nat) (q : list pyval) : list pyval :=
  match fuel with
  | O => q
  | S k => if (length q <? 4)%nat then pad_loop k (q ++ [VInt 0]) else q
  end.

(** [[p.get("score", 0) for p in periods] if periods else []] *)
Definition period_scores (t : pyval) : res (list pyval) :=
  periods ← py_get t "periods" (VList []);
  if py_truth periods then
    ps ← py_iter periods;
    mapM (fun p => py_get p "score" (VInt 0)) ps
  else Ok [].

(** The [# Periods/quarters] block, with the final [quarters[:4]]. *)
Definition team_quarters (t : pyval) : res (list pyval) :=
  qs ← period_scores t;
  Ok (take 4 (pad_loop 4 qs)).

Definition team_splits (stats : pyval) : res Splits :=
  fgm ← py_get stats "fieldGoalsMade" (VInt 0);
  fga ← py_get stats "fieldGoalsAttempted" (VInt 0);
  fg ← _pct fgm fga;
  tpm ← py_get stats "threePointersMade" (VInt 0);
  tpa ← py_get stats "threePointersAttempted" (VInt 0);
  tp ← _pct tpm tpa;
  ftm ← py_get stats "freeThrowsMade" (VInt 0);
  fta ← py_get stats "freeThrowsAttempted" (VInt 0);
  ft ← _pct ftm fta;
  Ok {| sp_fg := fg; sp_tp := tp; sp_ft := ft |}.

(** The default leader; the dash of the source is U+2014, written here
    by its UTF-8 bytes. *)
Definition leader0 : Leader := {| ld_p := VStr "—"; ld_v := VInt 0 |}.

Definition leaders0 : Leaders :=
  {| l_pts := leader0; l_reb := leader0; l_ast := leader0 |}.

(** One entry of [side_leaders]: present when [key in ld]. *)
Definition side_leader (ld : pyval) (key : string) : res (option Leader) :=
  has ← py_in key ld;
  if has : bool then
    p ← py_get ld "name" (VStr "—");
    v ← py_get ld key (VInt 0);
    Ok (Some {| ld_p := p; ld_v := v |})
  else Ok None.

(** [leaders.update(side_leaders)] *)
Definition update_leaders (l : Leaders)
    (s : option Leader * option Leader * option Leader) : Leaders :=
  {| l_pts := default (l_pts l) s.1.1;
     l_reb := default (l_reb l) s.1.2;
     l_ast := default (l_ast l) s.2 |}.

(** One turn of the loop over [("homeLeaders", "home")] and
    [("awayLeaders", "away")]; [our_home] tells which of the two, and
    [is_home] is [t == home]. *)
Definition leaders_step (game_leaders : pyval) (is_home : bool)
    (api_key : string) (our_home : bool) (l : Leaders) : res Leaders :=
  has ← py_in api_key game_leaders;
  if has : bool then
    ld ← py_item game_leaders api_key;
    p ← side_leader ld "points";
    r ← side_leader ld "rebounds";
    a ← side_leader ld "assists";
    Ok (if Bool.eqb our_home is_home then update_leaders l (p, r, a) else l)
  else Ok l.

(** The leaders of team [t] in game [g]. *)
Definition team_leaders (t home g : pyval) : res Leaders :=
  game_leaders ← py_get g "gameLeaders" (VDict ∅);
  if py_truth game_leaders then
    l ← leaders_step game_leaders (py_eq t home) "homeLeaders" true leaders0;
    leaders_step game_leaders (py_eq t home) "awayLeaders" false l
  else Ok leaders0.

(** [parse_team]; [home] and [g] are the variables of the enclosing
    loop. *)
Definition parse_team (t home g : pyval) : res TeamBoxScore :=
  ld ← team_leaders t home g;
  qs ← period_scores t;
  let quarters := pad_loop 4 qs in
  stats ← py_get t "statistics" (VDict ∅);
  abbr ← py_get t "teamTricode" (VStr "???");
  city ← py_get t "teamCity" (VStr EmptyString);
  name ← py_get t "teamName" (VStr EmptyString);
  wins ← py_get t "wins" (VInt 0);
  losses ← py_get t "losses" (VInt 0);
  score ← py_get t "score" (VInt 0);
  sp ← team_splits stats;
  pd ← py_get t "players" (VList []);
  pl ← _parse_players pd;
  Ok {| abbr := abbr; city := city; name := name;
        record := py_str wins +:+ "-" +:+ py_str losses;
        score := score; quarters := take 4 quarters;
        leaders := ld; splits := sp; players := pl |}.

(** [int(float(s))] *)
Definition int_float (s : string) : res Z :=
  x ← PyFloat.of_string s; PyFloat.to_int x.

Definition nonempty (s : string) : bool := negb (String.eqb s EmptyString).

(** The markers of a clock token are taken out:
    "PT" and "S" are deleted, "M" becomes ":", and the result is
    stripped. *)
Definition clock_str (raw : string) : string :=
  PyStr.strip
    (PyStr.replace "S" EmptyString
       (PyStr.replace "M" ":" (PyStr.replace "PT" EmptyString raw))).

(** The two conversions in the [try]: [mins] and [secs]. *)
Definition clock_fields (cs : string) : res (Z * Z) :=
  let parts := PyStr.split ":" cs in
  mins ← (match parts with
          | p0 :: _ => if nonempty p0 then int_float p0 else Ok 0
          | [] => Raise IndexError
          end);
  secs ← (match parts with
          | _ :: p1 :: _ => if nonempty p1 then int_float p1 else Ok 0
          | _ => Ok 0
          end);
  Ok (mins, secs).

(** The body of the [try]: [f"{mins}:{secs:02d}"]. *)
Definition clock_parse (cs : string) : res string :=
  '(mins, secs) ← clock_fields cs;
  Ok (pretty mins +:+ ":" +:+ pad2 secs).

(** The clock of a live game, from the raw token. *)
Definition live_clock (raw : string) : string :=
  let cs := clock_str raw in
  if nonempty cs then try_except (clock_parse cs) cs else "0:00".

(** The suffix chosen by the [ordinal] lambda. *)
Definition ordinal_suffix (n : num) : string :=
  if cmp_ge (num_cmp n 11) && cmp_le (num_cmp n 13) then "th"
  else
    let r := num_mod n 10 in
    if cmp_eq (num_cmp r 1) then "st"
    else if cmp_eq (num_cmp r 2) then "nd"
    else if cmp_eq (num_cmp r 3) then "rd"
    else "th".

(** [f"OT{period-4}"] without the prefix. *)
Definition overtime (n : num) : res string :=
  d ← num_sub n (NInt 4); Ok (num_str d).

(** The period label of a live game. *)
Definition live_period (period : pyval) : res string :=
  match num_of period with
  | Some n =>
      if cmp_le (num_cmp n 4)
      then Ok (py_str period +:+ ordinal_suffix n +:+ " Qtr")
      else if cmp_gt (num_cmp n 4)
           then ot ← overtime n; Ok ("OT" +:+ ot)
           else Ok EmptyString
  | None => Raise TypeError
  end.

(** The period label of a finished game. *)
Definition final_period (period : pyval) : res string :=
  match num_of period with
  | Some n =>
      if cmp_le (num_cmp n 4) then Ok "Final"
      else ot ← overtime n; Ok ("Final/OT" +:+ ot)
  | None => Raise TypeError
  end.

(** The [# Game status] block: status, period label and clock. *)
Definition game_status (g : pyval) : res (string * string * string) :=
  status_num ← py_get g "gameStatus" (VInt 1);
  st ← py_get g "gameStatusText" (VStr EmptyString);
  status_text ← py_strip st;
  period ← py_get g "period" (VInt 0);
  if py_eq_int status_num 1 then Ok ("upcoming", status_text, EmptyString)
  else if py_eq_int status_num 2 then
    gc ← py_get g "gameClock" (VStr EmptyString);
    match gc with
    | VStr raw =>
        let clock := live_clock raw in
        period_str ← live_period period;
        Ok ("live", period_str, clock)
    | _ => Raise AttributeError
    end
  else
    period_str ← final_period period;
    Ok ("final", period_str, EmptyString).

(** One turn of the loop over [games]. *)
Definition game_of (g : pyval) : res Game :=
  home ← py_get g "homeTeam" (VDict ∅);
  away ← py_get g "awayTeam" (VDict ∅);
  '(status, period_str, clock) ← game_status g;
  id ← py_get g "gameId" (VStr EmptyString);
  arena ← py_get g "arenaName" (VStr EmptyString);
  a ← parse_team away home g;
  h ← parse_team home home g;
  Ok {| game_id := id; status := status; period := period_str;
        clock := clock; arena := arena; away := a; home := h |}.

(** [fetch_games]: [feed] is what [sb.get_dict()] gives, a dict or an
    exception; any exception makes the result [None]. *)
Definition fetch_games (feed : res pyval) : option (list Game) :=
  let r :=
    data ← feed;
    sb ← py_get data "scoreboard" (VDict ∅);
    games ← py_get sb "games" (VList []);
    gs ← py_iter games;
    mapM game_of gs in
  match r with
  | Ok result => Some result
  | Raise _ => None
  end.

End Normaliser.

(** ** Headline selector *)

(** A candidate of the page: the text of the anchor, as
    [a.get_text(strip=True)] gives it, and its [href]. *)
Record Candidate := {
  c_text : string;
  c_href : string;
}.

Record Headline := {
  h_t : string;
  h_b : string;
  h_url : string;
}.

(** [l[:n]] *)
Definition py_slice_to {A} (n : Z) (l : list A) : list A :=
  if 0 <=? n then take (Z.to_nat n) l
  else take (length l - Z.to_nat (- n)) l.

(** The loop [for a in articles[:max_headlines]] once the slice is
    taken; [headlines] is the list built so far. *)
Fixpoint headlines_loop (headlines : list Headline)
    (articles : list Candidate) : list Headline :=
  match articles with
  | [] => headlines
  | a :: rest =>
      let text := c_text a in
      if negb (String.eqb text EmptyString) && (15 <? String.length text)%nat
      then headlines_loop
             (headlines ++
                [{| h_t := text;
                    h_b := if (length headlines <? 3)%nat
                           then "new" else "rumor";
                    h_url := c_href a |}])
             rest
      else headlines_loop headlines rest
  end.

(** [fetch_headlines]: [page] is what the request and the selectors
    give, the anchors or an exception. *)
Definition fetch_headlines (max_headlines : Z)
    (page : res (list Candidate)) : option (list Headline) :=
  match page with
  | Ok articles =>
      Some (headlines_loop [] (py_slice_to max_headlines articles))
  | Raise _ => None
  end.

(** ** Cache and refresh loop *)

Inductive item :=
| IGame (g : Game)
| IHeadline (h : Headline).

Record CacheEntry := {
  data : list item;
  updated : num;
}.

(** The module-level [cache]. *)
Definition cache : gmap string CacheEntry :=
  <["games" := {| data := []; updated := NInt 0 |}]>
    (<["headlines" := {| data := []; updated := NInt 0 |}]> ∅).

(** What one call [fetch_fn()] does. *)
Inductive fetched :=
| Raised (e : pyexc)
| Returned (r : option (list item)).

(** One turn of [refresh_loop] up to the sleep, at a time [now]. A
    [KeyError] on [cache[key]] is caught with the rest. *)
Definition refresh_cycle (key : string) (out : fetched) (now : spec_float)
    (c : gmap string CacheEntry) : gmap string CacheEntry :=
  match out with
  | Returned (Some d) =>
      match c !! key with
      | Some _ => <[key := {| data := d; updated := NFloat now |}]> c
      | None => c
      end
  | _ => c
  end.

(** The first turns of [refresh_loop], one per element of [turns]. *)
Fixpoint refresh_loop (key : string) (turns : list (fetched * spec_float))
    (c : gmap string CacheEntry) : gmap string CacheEntry :=
  match turns with
  | [] => c
  | (out, now) :: rest => refresh_loop key rest (refresh_cycle key out now c)
  end.

(** The JSON body of [/api/games] and [/api/headlines]: the list, the
    timestamp and the count, and nothing else. *)
Record Response := {
  r_data : list item;
  r_updated : num;
  r_count : nat;
}.

Definition read_snapshot (key : string) (c : gmap string CacheEntry)
  : res Response :=
  match c !! key with
  | Some e =>
      Ok {| r_data := data e; r_updated := updated e;
            r_count := length (data e) |}
  | None => Raise KeyError
  end.

Definition api_games := read_snapshot "games".
Definition api_headlines := read_snapshot "headlines".

(** ** Writers and readers under [cache_lock] *)

Module Threads.

(** A cycle of a writer: the thread and the number of the turn.  The
    initial contents of the cache belong to no cycle. *)
Definition cycle : Type := option (nat * nat).

(** A cache entry with, for each of its two fields, the cycle that
    stored it.  The cycles are not in the program: they only name the
    writes. *)
Record Slot := {
  entry : CacheEntry;
  data_by : cycle;
  updated_by : cycle;
}.

Definition set_data (d : list item) (by_ : cycle) (s : Slot) : Slot :=
  {| entry := {| data := d; updated := updated (entry s) |};
     data_by := by_; updated_by := updated_by s |}.

Definition set_updated (t : num) (by_ : cycle) (s : Slot) : Slot :=
  {| entry := {| data := data (entry s); updated := t |};
     data_by := data_by s; updated_by := by_ |}.

(** Where a [refresh_loop] thread stands. *)
Inductive wpc :=
| WFetch                      (* data = fetch_fn() *)
| WAcquire (d : list item)    (* data is not None; with cache_lock: *)
| WSetData (d : list item)    (* cache[key]["data"] = data *)
| WSetUpdated                 (* cache[key]["updated"] = time.time() *)
| WRelease                    (* end of the with block *)
| WSleep.                     (* time.sleep(interval_sec) *)

(** What a reader has seen: the two fields, with the cycles that
    stored them, and the count. *)
Record Seen := {
  s_data : list item;
  s_data_by : cycle;
  s_updated : num;
  s_updated_by : cycle;
  s_count : nat;
}.

(** Where a request handler ([api_games], [api_headlines]) stands. *)
Inductive rpc :=
| RAcquire                                 (* with cache_lock: *)
| RData                                    (* cache[k]["data"] *)
| RUpdated (d : list item) (db : cycle)    (* cache[k]["updated"] *)
| RLen (d : list item) (db : cycle) (u : num) (ub : cycle)
                                           (* len(cache[k]["data"]) *)
| RRelease (r : Seen)                      (* end of the with block *)
| RDone (r : Seen)                         (* response sent *)
| RFailed.                                 (* KeyError *)

Inductive thread :=
| Writer (key : string) (n : nat) (pc : wpc)
| Reader (key : string) (pc : rpc).

Record Shared := {
  store : gmap string Slot;
  lock : option nat;
}.

(** What the environment decides at a step. *)
Inductive choice :=
| Fetch (out : fetched)
| Clock (now : spec_float)
| Tau.

Definition with_lock (l : option nat) (sh : Shared) : Shared :=
  {| store := store sh; lock := l |}.

Definition with_store (st : gmap string Slot) (sh : Shared) : Shared :=
  {| store := st; lock := lock sh |}.

(** One step of thread [i]; [None] when the thread cannot move: the
    lock is taken, the handler has returned, or the choice is not the
    one the statement waits for. *)
Definition thread_step (i : nat) (ch : choice) (t : thread) (sh : Shared)
  : option (thread * Shared) :=
  match t, ch with
  | Writer k n WFetch, Fetch (Returned (Some d)) =>
      Some (Writer k n (WAcquire d), sh)
  | Writer k n WFetch, Fetch _ =>
      Some (Writer k n WSleep, sh)
  | Writer k n (WAcquire d), Tau =>
      match lock sh with
      | None => Some (Writer k n (WSetData d), with_lock (Some i) sh)
      | Some _ => None
      end
  | Writer k n (WSetData d), Tau =>
      match store sh !! k with
      | Some s =>
          Some (Writer k n WSetUpdated,
                with_store (<[k := set_data d (Some (i, n)) s]> (store sh)) sh)
      | None => Some (Writer k n WSleep, with_lock None sh)
      end
  | Writer k n WSetUpdated, Clock now =>
      match store sh !! k with
      | Some s =>
          Some (Writer k n WRelease,
                with_store
                  (<[k := set_updated (NFloat now) (Some (i, n)) s]> (store sh))
                  sh)
      | None => Some (Writer k n WSleep, with_lock None sh)
      end
  | Writer k n WRelease, Tau =>
      Some (Writer k n WSleep, with_lock None sh)
  | Writer k n WSleep, Tau =>
      Some (Writer k (S n) WFetch, sh)
  | Reader k RAcquire, Tau =>
      match lock sh with
      | None => Some (Reader k RData, with_lock (Some i) sh)
      | Some _ => None
      end
  | Reader k RData, Tau =>
      match store sh !! k with
      | Some s => Some (Reader k (RUpdated (data (entry s)) (data_by s)), sh)
      | None => Some (Reader k RFailed, with_lock None sh)
      end
  | Reader k (RUpdated d db), Tau =>
      match store sh !! k with
      | Some s =>
          Some (Reader k (RLen d db (updated (entry s)) (updated_by s)), sh)
      | None => Some (Reader k RFailed, with_lock None sh)
      end
  | Reader k (RLen d db u ub), Tau =>
      match store sh !! k with
      | Some s =>
          Some (Reader k (RRelease
                  {| s_data := d; s_data_by := db; s_updated := u;
                     s_updated_by := ub;
                     s_count := length (data (entry s)) |}), sh)
      | None => Some (Reader k RFailed, with_lock None sh)
      end
  | Reader k (RRelease r), Tau =>
      Some (Reader k (RDone r), with_lock None sh)
  | _, _ => None
  end.

Record state := {
  shared : Shared;
  threads : list thread;
}.

(** A thread moves, or a request arrives and gets its handler. *)
Inductive step : state -> state -> Prop :=
| step_thread i ch t t' sh' σ :
    threads σ !! i = Some t ->
    thread_step i ch t (shared σ) = Some (t', sh') ->
    step σ {| shared := sh'; threads := <[i := t']> (threads σ) |}
| step_request k σ :
    step σ {| shared := shared σ;
              threads := threads σ ++ [Reader k RAcquire] |}.

Definition fresh (t : thread) : Prop :=
  match t with
  | Writer _ _ WFetch | Reader _ RAcquire => True
  | _ => False
  end.

Definition slot0 (e : CacheEntry) : Slot :=
  {| entry := e; data_by := None; updated_by := None |}.

(** The server starts with the module-level cache, the lock free, and
    threads that have not run yet. *)
Definition initial (σ : state) : Prop :=
  store (shared σ) = slot0 <$> cache /\
  lock (shared σ) = None /\
  Forall fresh (threads σ).

Definition reachable (σ : state) : Prop :=
  exists σ0, initial σ0 /\ rtc step σ0 σ.

(** The run of a schedule: at each turn the thread named moves with
    the choice given; [None] if it cannot. *)
Fixpoint run (sched : list (nat * choice)) (σ : state) : option state :=
  match sched with
  | [] => Some σ
  | (i, ch) :: rest =>
      match threads σ !! i with
      | Some t =>
          match thread_step i ch t (shared σ) with
          | Some (t', sh') =>
              run rest {| shared := sh'; threads := <[i := t']> (threads σ) |}
          | None => None
          end
      | None => None
      end
  end.

(** *** The invariant of the lock discipline *)

(** Between taking the lock and giving it back. *)
Definition in_cs (t : thread) : bool :=
  match t with
  | Writer _ _ (WSetData _ | WSetUpdated | WRelease) => true
  | Reader _ (RData | RUpdated _ _ | RLen _ _ _ _ | RRelease _) => true
  | _ => false
  end.

(** Both fields of the slot come from the same cycle. *)
Definition consistent (s : Slot) : Prop := data_by s = updated_by s.

Definition seen_ok (r : Seen) : Prop :=
  s_data_by r = s_updated_by r /\ s_count r = length (s_data r).

(** What holds of thread [i]: inside the [with] block it owns the
    lock, and what it has read or written so far is still in the
    store. *)
Definition thread_ok (i : nat) (sh : Shared) (t : thread) : Prop :=
  (in_cs t = true -> lock sh = Some i) /\
  match t with
  | Writer k n WSetUpdated =>
      exists s, store sh !! k = Some s /\ data_by s = Some (i, n)
  | Reader k (RUpdated d db) =>
      exists s, store sh !! k = Some s /\ data (entry s) = d /\ data_by s = db
  | Reader k (RLen d db u ub) =>
      db = ub /\ exists s, store sh !! k = Some s /\ data (entry s) = d
  | Reader k (RRelease r) | Reader k (RDone r) => seen_ok r
  | _ => True
  end.

(** A slot is consistent unless a writer of its key stands between
    its two assignments. *)
Definition slot_ok (ts : list thread) (k : string) (s : Slot) : Prop :=
  consistent s \/ exists i n, ts !! i = Some (Writer k n WSetUpdated).

Definition inv (σ : state) : Prop :=
  (forall i t, threads σ !! i = Some t -> thread_ok i (shared σ) t) /\
  (forall k s, store (shared σ) !! k = Some s -> slot_ok (threads σ) k s).

End Threads.

(** ** Notions used to state the properties *)

(** The filter and the tags of the headline selector. *)
Definition long_text (c : Candidate) : bool :=
  (15 <? String.length (c_text c))%nat.

Definition badge (i : nat) : string :=
  if (i <? 3)%nat then "new" else "rumor".

Definition headline_at (i : nat) (c : Candidate) : Headline :=
  {| h_t := c_text c; h_b := badge i; h_url := c_href c |}.

(** The selector as the specification words it: the candidates with a
    long text, at most [max] of them, tagged by their rank. *)
Definition claimed_headlines (max : Z) (cands : list Candidate)
  : list Headline :=
  imap headline_at (py_slice_to max (List.filter long_text cands)).

(** The score of one period record. *)
Definition period_score (p : pyval) : pyval :=
  match p with
  | VDict d => default (VInt 0) (d !! "score")
  | _ => VInt 0
  end.

(** The per-period scores of a team record, in the order of its
    "periods" list; none when the record has no such list. *)
Definition scores_of (t : pyval) : list pyval :=
  match t with
  | VDict td =>
      match td !! "periods" with
      | Some (VList ps) => period_score <$> ps
      | _ => []
      end
  | _ => []
  end.







(** A dict from its items. *)
Definition dict (l : list (string * pyval)) : pyval := VDict (list_to_map l).

(** The examples run with this rendering of floats, lists and dicts;
    the properties hold for any. *)
Definition plain_repr (v : pyval) : string := "?".

(** A team with the given period scores. *)
Definition team_with_periods (scores : list Z) : pyval :=
  dict [("periods", VList ((fun z => dict [("score", VInt z)]) <$> scores))].

(** A finished game that went to a third overtime: seven periods for
    the home side; one period recorded for the away side. *)
Definition sample_game : pyval :=
  dict [("gameId", VStr "0022300001");
        ("gameStatus", VInt 3);
        ("gameStatusText", VStr "Final/OT3 ");
        ("period", VInt 7);
        ("homeTeam", team_with_periods [28; 31; 19; 25; 12; 9; 14]);
        ("awayTeam", team_with_periods [30])].

(** The outcome of a test, [false] when the test raises. *)
Definition holds (r : res bool) : bool :=
  match r with
  | Ok b => b
  | Raise _ => false
  end.

(** A player record that goes to [dnp]. *)
Definition sits_out (p : pyval) : bool := holds (is_dnp p).

(** The three shot categories. *)
Inductive shot := FG | TP | FT.

Definition made (k : shot) (sv : ShotVals) : pyval :=
  match k with FG => fgm sv | TP => tpm sv | FT => ftm sv end.

Definition attempted (k : shot) (sv : ShotVals) : pyval :=
  match k with FG => fga sv | TP => tpa sv | FT => fta sv end.

Definition line_shots (k : shot) (l : PlayerLine) : string :=
  match k with FG => pl_fg l | TP => pl_tp l | FT => pl_ft l end.

Definition total_shots (k : shot) (t : TotalsLine) : string :=
  match k with FG => tl_fg t | TP => tl_tp t | FT => tl_ft t end.

Definition team_pct (k : shot) (p : Pcts) : string :=
  match k with FG => pc_fg p | TP => pc_tp p | FT => pc_ft p end.

(** [acc + v1 + v2 + ...], added from left to right as the loop does. *)
Fixpoint sum_from (acc : num) (vs : list pyval) : res num :=
  match vs with
  | [] => Ok acc
  | v :: vs' => acc' ← acc_add acc v; sum_from acc' vs'
  end.

Definition py_sum (vs : list pyval) : res num := sum_from (NInt 0) vs.

Definition sum_Z (l : list Z) : Z := foldr Z.add 0 l.

(** The int held by a value, 0 for what is not an int. *)
Definition int_of (v : pyval) : Z :=
  match v with
  | VInt z => z
  | VBool b => Z.b2z b
  | _ => 0
  end.

Definition is_int (v : pyval) : Prop :=
  match v with
  | VInt _ | VBool _ => True
  | _ => False
  end.

(** What the loop computes for a player who plays: the starter flag,
    the line, and the shot counts that go into the totals. *)
Definition active_line (repr_other : pyval -> string) (p : pyval)
  : res (bool * PlayerLine * ShotVals) :=
  stats ← py_get p "statistics" (VDict ∅);
  min_val ← player_minutes repr_other stats;
  sv ← read_shots stats;
  l ← player_obj repr_other p stats min_val sv;
  s ← is_starter p;
  Ok (s, l, sv).

(** The lines with a given starter flag. *)
Definition lines_of (starter : bool) (ls : list (bool * PlayerLine * ShotVals))
  : list PlayerLine :=
  (fun x => x.1.2) <$> List.filter (fun x => Bool.eqb x.1.1 starter) ls.

(** The totals after the lines [ls], from the totals [t]. *)
Fixpoint totals_from (t : Totals) (ls : list (bool * PlayerLine * ShotVals))
  : res Totals :=
  match ls with
  | [] => Ok t
  | (_, l, sv) :: ls' =>
      t' ← update_totals t (pl_min l) sv l; totals_from t' ls'
  end.

Definition tot_shots (k : shot) (t : Totals) : num * num :=
  match k with FG => tot_fg t | TP => tot_tp t | FT => tot_ft t end.

(** Four player records: a starter, a record without any of the three
    flags, an inactive player and a player who did not play. *)
Definition sample_players : pyval :=
  VList [
    dict [("name", VStr "Jayson Tatum"); ("starter", VStr "1");
          ("status", VStr "ACTIVE"); ("played", VStr "1");
          ("position", VStr "SF");
          ("statistics",
           dict [("minutesCalculated", VStr "PT36M"); ("points", VInt 30);
                 ("fieldGoalsMade", VInt 10); ("fieldGoalsAttempted", VInt 20);
                 ("threePointersMade", VInt 4);
                 ("threePointersAttempted", VInt 9);
                 ("freeThrowsMade", VInt 6); ("freeThrowsAttempted", VInt 7);
                 ("plusMinusPoints", VInt 12)])];
    dict [("name", VStr "Al Horford");
          ("statistics",
           dict [("minutes", VStr "24:10"); ("points", VInt 8);
                 ("fieldGoalsMade", VInt 3); ("fieldGoalsAttempted", VInt 7);
                 ("threePointersMade", VInt 2);
                 ("threePointersAttempted", VInt 5);
                 ("plusMinusPoints", VInt (-4))])];
    dict [("firstName", VStr "Kristaps"); ("familyName", VStr "Porzingis");
          ("status", VStr "INACTIVE"); ("notPlayingReason", VStr "Injury")];
    dict [("name", VStr "Sam Hauser"); ("played", VStr "0")]
  ].

(** A server with the writer of "headlines" and one request for that
    key, and a schedule: the writer completes a cycle, then the handler
    runs. *)
Definition sample_headline : Headline :=
  {| h_t := "A headline of some length"; h_b := "new"; h_url := "/b" |}.

Definition sample_server : Threads.state :=
  {| Threads.shared :=
       {| Threads.store := Threads.slot0 <$> cache; Threads.lock := None |};
     Threads.threads :=
       [Threads.Writer "headlines" 0 Threads.WFetch;
        Threads.Reader "headlines" Threads.RAcquire] |}.

Definition sample_schedule : list (nat * Threads.choice) :=
  [(0%nat, Threads.Fetch (Returned (Some [IHeadline sample_headline])));
   (0%nat, Threads.Tau); (0%nat, Threads.Tau);
   (0%nat, Threads.Clock (PyFloat.of_Z 1700000000));
   (0%nat, Threads.Tau);
   (1%nat, Threads.Tau); (1%nat, Threads.Tau); (1%nat, Threads.Tau);
   (1%nat, Threads.Tau); (1%nat, Threads.Tau)].

(** The float that the decimal [k/10] denotes, for [0 <= k]. *)
Definition tenth (k : Z) : spec_float :=
  match k with
  | Zpos p => PyFloat.of_ratio false p 10
  | _ => S754_zero false
  end.

(** The same float, bit for bit. *)
Definition same_float (x y : spec_float) : bool :=
  match x, y with
  | S754_zero s, S754_zero s' => Bool.eqb s s'
  | S754_infinity s, S754_infinity s' => Bool.eqb s s'
  | S754_nan, S754_nan => true
  | S754_finite s m e, S754_finite s' m' e' =>
      Bool.eqb s s' && Pos.eqb m m' && Z.eqb e e'
  | _, _ => false
  end.

(** [k/10] is a tenth nearest to [100 * m / a], for [0 < a]. *)
Definition nearest_tenth (m a k : Z) : bool :=
  2 * Z.abs (1000 * m - k * a) <=? a.

(** [_pct] gives, on the ints [m] and [a], the float of a tenth nearest
    to [100 * m / a]. *)
Definition pct_exact (m a : Z) : bool :=
  let k := 1000 * m / a in
  match _pct (VInt m) (VInt a) with
  | Ok x =>
      if nearest_tenth m a k && same_float x (tenth k) then true
      else nearest_tenth m a (k + 1) && same_float x (tenth (k + 1))
  | Raise _ => false
  end.

(** The same for all [0 <= m <= a] with [1 <= a <= n]. *)
Definition pct_exact_upto (n : nat) : bool :=
  forallb (fun a => forallb (fun m => pct_exact (Z.of_nat m) (Z.of_nat a))
                      (seq 0 (S a)))
          (seq 1 n).

(** A number below 100 on two digits. *)
Definition two (n : nat) : string := pad2 (Z.of_nat n).

(** The clock token of the feed for [mm] minutes, [ss] seconds and [ff]
    hundredths. *)
Definition clock_token (mm ss ff : nat) : string :=
  "PT" +:+ two mm +:+ "M" +:+ two ss +:+ "." +:+ two ff +:+ "S".

(** The clocks of a quarter, with three values of the hundredths: each
    token gives the minutes, a colon and the seconds on two digits. *)
Definition clock_tokens_ok : bool :=
  forallb (fun mm =>
    forallb (fun ss =>
      forallb (fun ff =>
        String.eqb (live_clock (clock_token mm ss ff))
                   (pretty (Z.of_nat mm) +:+ ":" +:+ two ss))
        [0; 40; 99]%nat)
      (seq 0 60))
    (seq 0 13).

(** The minutes token without seconds, up to an hour. *)
Definition minutes_tokens_ok (repr_other : pyval -> string) : bool :=
  forallb (fun mm =>
    match _parse_minutes repr_other (VStr ("PT" +:+ two mm +:+ "M")) with
    | Ok z => z =? Z.of_nat mm
    | Raise _ => false
    end) (seq 0 61).

(** A live game in its third quarter, with the leaders of the home side
    only. *)
Definition sample_live_game : pyval :=
  dict [("gameId", VStr "0022300002");
        ("gameStatus", VInt 2);
        ("gameStatusText", VStr "Q3 5:23");
        ("period", VInt 3);
        ("gameClock", VStr "PT05M23.00S");
        ("gameLeaders",
         dict [("homeLeaders",
                dict [("name", VStr "Jayson Tatum"); ("points", VInt 30);
                      ("rebounds", VInt 8); ("assists", VInt 4)])]);
        ("homeTeam",
         dict [("teamTricode", VStr "BOS"); ("players", sample_players);
               ("periods", VList [dict [("score", VInt 28)];
                                  dict [("score", VInt 31)];
                                  dict [("score", VInt 9)]])]);
        ("awayTeam", dict [("teamTricode", VStr "MIA")])].
(** ** Notions for the further properties *)

Module StrFacts.
Import PyStr.

(** Every character of [s] passes the test [P]. *)
Fixpoint all_chars (P : ascii -> bool) (s : string) : bool :=
  match s with
  | EmptyString => true
  | String c s' => P c && all_chars P s'
  end.

Definition not_space (c : ascii) : bool := negb (is_space c).

(** A word of [str.split()]: not empty, no white space in it. *)
Definition word (w : string) : Prop :=
  w <> EmptyString /\ all_chars not_space w = true.

(** A digit or a minus sign. *)
Definition int_char (c : ascii) : bool := is_digit c || Ascii.eqb c "-".

End StrFacts.

(** What a headline keeps of its candidate. *)
Definition headline_link (h : Headline) : string * string := (h_t h, h_url h).
Definition candidate_link (c : Candidate) : string * string :=
  (c_text c, c_href c).

(** The last turn of a run whose fetch gave a list, with its time. *)
Fixpoint last_success (turns : list (fetched * spec_float))
  : option (list item * spec_float) :=
  match turns with
  | [] => None
  | (out, now) :: rest =>
      match last_success rest with
      | Some r => Some r
      | None =>
          match out with
          | Returned (Some d) => Some (d, now)
          | _ => None
          end
      end
  end.

(** The entry that a run of turns leaves, from the entry [e]. *)
Definition entry_after (e : CacheEntry) (turns : list (fetched * spec_float))
  : CacheEntry :=
  match last_success turns with
  | Some (d, t) => {| data := d; updated := NFloat t |}
  | None => e
  end.

(** What [fetch_fn()] is in the two threads of the server:
    [fetch_games] on the feed of the moment, [fetch_headlines] on the
    page of the moment.  Both catch every exception. *)
Definition games_fetched (repr_other : pyval -> string) (feed : res pyval)
  : fetched :=
  Returned (match fetch_games repr_other feed with
            | Some result => Some (IGame <$> result)
            | None => None
            end).

Definition headlines_fetched (max_headlines : Z) (page : res (list Candidate))
  : fetched :=
  Returned (match fetch_headlines max_headlines page with
            | Some headlines => Some (IHeadline <$> headlines)
            | None => None
            end).

(** The size of a payload value, for inductions on nested values. *)
Fixpoint pv_size (v : pyval) : nat :=
  match v with
  | VList l =>
      S ((fix sum (l : list pyval) : nat :=
            match l with
            | [] => O
            | x :: l => (pv_size x + sum l)%nat
            end) l)
  | VDict d => S (map_fold (fun _ x acc => (pv_size x + acc)%nat) O d)
  | _ => 1%nat
  end.

(** The leaders that one side of "gameLeaders" gives: per category the
    name and the value when the category is there, the default when it
    is not. *)
Definition pick_leader (ld : gmap string pyval) (key : string) : Leader :=
  match ld !! key with
  | Some v => {| ld_p := default (VStr "—") (ld !! "name"); ld_v := v |}
  | None => leader0
  end.

Definition side_leaders (ld : gmap string pyval) : Leaders :=
  {| l_pts := pick_leader ld "points";
     l_reb := pick_leader ld "rebounds";
     l_ast := pick_leader ld "assists" |}.

(** The same for a side that may be missing from "gameLeaders". *)
Definition side_leaders_of (side : option (gmap string pyval)) : Leaders :=
  match side with
  | Some ld => side_leaders ld
  | None => leaders0
  end.

Definition team_of (gd : gmap string pyval) (key : string) : pyval :=
  default (VDict ∅) (gd !! key).

(** The eight counting statistics of a box score. *)
Inductive stat := OREB | DREB | REB | AST | STL | BLK | TOV | PF.

Definition line_stat (k : stat) (l : PlayerLine) : pyval :=
  match k with
  | OREB => pl_or l | DREB => pl_dr l | REB => pl_reb l | AST => pl_ast l
  | STL => pl_stl l | BLK => pl_blk l | TOV => pl_to l | PF => pl_pf l
  end.

Definition tot_stat (k : stat) (t : Totals) : num :=
  match k with
  | OREB => tot_or t | DREB => tot_dr t | REB => tot_reb t | AST => tot_ast t
  | STL => tot_stl t | BLK => tot_blk t | TOV => tot_to t | PF => tot_pf t
  end.

Definition total_stat (k : stat) (t : TotalsLine) : num :=
  match k with
  | OREB => tl_or t | DREB => tl_dr t | REB => tl_reb t | AST => tl_ast t
  | STL => tl_stl t | BLK => tl_blk t | TOV => tl_to t | PF => tl_pf t
  end.

(** A key of a record holds a str, or is missing and stands for the
    default [s]. *)
Definition str_field (d : gmap string pyval) (key : string) (dflt s : string)
  : Prop :=
  d !! key = Some (VStr s) \/ (d !! key = None /\ s = dflt).

Definition not_dict (v : pyval) : Prop := forall m, v <> VDict m.
Definition not_str (v : pyval) : Prop := forall s, v <> VStr s.

(** Two players who play, with their rebounds and assists. *)
Definition sample_rotation : pyval :=
  VList [
    dict [("name", VStr "Derrick White"); ("starter", VStr "1");
          ("statistics",
           dict [("minutes", VStr "31:05"); ("reboundsOffensive", VInt 1);
                 ("reboundsDefensive", VInt 4); ("reboundsTotal", VInt 5);
                 ("assists", VInt 7)])];
    dict [("name", VStr "Payton Pritchard");
          ("statistics",
           dict [("minutes", VStr "18:40"); ("reboundsDefensive", VInt 2);
                 ("reboundsTotal", VInt 2); ("assists", VInt 3)])]
  ].

(** Two records that sit out; the second has a null "statistics". *)
Definition sample_inactive : list pyval :=
  [ dict [("firstName", VStr "Kristaps"); ("familyName", VStr "Porzingis");
          ("status", VStr "INACTIVE"); ("notPlayingReason", VStr "Injury")];
    dict [("name", VStr "Sam Hauser"); ("played", VStr "0");
          ("statistics", VNone)] ].

(** A record of a player who plays, with a null "statistics". *)
Definition sample_broken : gmap string pyval :=
  list_to_map [("name", VStr "Jrue Holiday"); ("statistics", VNone)].

Module ThreadNotions.
Import Threads.

(** A handler that has answered, or failed. *)
Definition finished (t : thread) : bool :=
  match t with
  | Reader _ (RDone _) | Reader _ RFailed => true
  | _ => false
  end.

(** The key a thread works on, and whether it is a writer. *)
Definition key_of (t : thread) : string :=
  match t with
  | Writer k _ _ | Reader k _ => k
  end.

Definition is_writer (t : thread) : bool :=
  match t with
  | Writer _ _ _ => true
  | Reader _ _ => false
  end.

(** The store keeps the keys of the module-level cache, a handler fails
    only on a key that is not there, and the lock, when taken, is held
    by a thread inside its [with] block. *)
Definition keys_inv (σ : state) : Prop :=
  dom (store (shared σ)) = dom cache /\
  (forall i k, threads σ !! i = Some (Reader k RFailed) ->
     store (shared σ) !! k = None) /\
  (forall i, lock (shared σ) = Some i ->
     exists t, threads σ !! i = Some t /\ in_cs t = true).

(** What a handler has read so far is what the entry of its key holds
    now. *)
Definition reads_current (sh : Shared) (t : thread) : Prop :=
  match t with
  | Reader k (RUpdated d _) =>
      exists s, store sh !! k = Some s /\ data (entry s) = d
  | Reader k (RLen d _ u _) =>
      exists s, store sh !! k = Some s /\
                data (entry s) = d /\ updated (entry s) = u
  | Reader k (RRelease r) =>
      exists s, store sh !! k = Some s /\
                data (entry s) = s_data r /\ updated (entry s) = s_updated r /\
                s_count r = length (data (entry s))
  | _ => True
  end.

Definition current_inv (σ : state) : Prop :=
  forall i t, threads σ !! i = Some t -> reads_current (shared σ) t.

End ThreadNotions.

(** ** Health check *)

(** [round(x)] for a float: the int nearest to [x], ties to even. *)
Definition py_round (x : spec_float) : res Z :=
  match x with
  | S754_zero _ => Ok 0
  | S754_finite s m e =>
      let a := if 0 <=? e then Zpos m * 2 ^ e
               else PyFloat.nearest_even (Zpos m) (2 ^ (- e)) in
      Ok (if s then - a else a)
  | S754_infinity _ => Raise OverflowError
  | S754_nan => Raise ValueError
  end.

(** [round(n)] for a number: an int is its own rounding. *)
Definition round_num (n : num) : res Z :=
  match n with
  | NInt z => Ok z
  | NFloat x => py_round x
  end.

(** The JSON body of [/api/health]. *)
Record Health := {
  hl_status : string;
  uptime_sec : Z;
  games_age_sec : option Z;
  headlines_age_sec : option Z;
}.

(** [round(now - cache[key]["updated"]) if cache[key]["updated"] else
    None] *)
Definition age_sec (now : spec_float) (key : string)
    (c : gmap string CacheEntry) : res (option Z) :=
  match c !! key with
  | Some e =>
      if py_truth (val_of_num (updated e)) then
        d ← num_sub (NFloat now) (updated e);
        r ← round_num d;
        Ok (Some r)
      else Ok None
  | None => Raise KeyError
  end.

(** [api_health]: [start] is [START_TIME], [now] what [time.time()]
    gives inside the [with] block. *)
Definition api_health (start now : spec_float) (c : gmap string CacheEntry)
  : res Health :=
  up ← py_round (SFsub PyFloat.prec PyFloat.emax now start);
  g ← age_sec now "games" c;
  h ← age_sec now "headlines" c;
  Ok {| hl_status := "ok"; uptime_sec := up;
        games_age_sec := g; headlines_age_sec := h |}.

(** The time of a turn is not zero: [time.time()] never is. *)
Definition nonzero_time (turn : fetched * spec_float) : bool :=
  negb (PyFloat.is_zero turn.2).

(** The age that the health check shows for a key: none before the
    first turn whose fetch gave a list, then the rounded time since the
    last such turn. *)
Definition age_of (now : spec_float) (last : option (list item * spec_float))
  : option Z :=
  match last with
  | Some (_, t) =>
      match py_round (SFsub PyFloat.prec PyFloat.emax now t) with
      | Ok r => Some r
      | Raise _ => None
      end
  | None => None
  end.

(** Three turns of the games thread: one that gives a list, two that
    fail. *)
Definition sample_turns : list (fetched * spec_float) :=
  [(Returned (Some []), PyFloat.of_Z 1700000000);
   (Raised ValueError, PyFloat.of_Z 1700000030);
   (Returned None, PyFloat.of_Z 1700000060)].

(** The fields of an object of the payload. *)
Definition fields (v : pyval) : gmap string pyval :=
  match v with
  | VDict d => d
  | _ => ∅
  end.

Definition live_fields : gmap string pyval := fields sample_live_game.

Definition live_leaders : gmap string pyval :=
  fields (default VNone (live_fields !! "gameLeaders")).

Definition live_home_leaders : gmap string pyval :=
  fields (default VNone (live_leaders !! "homeLeaders")).

(** * Properties *)

(** ** Refresh cycle (C1) *)

Lemma refresh_cycle_failed key out now (c : gmap string CacheEntry) :
  (exists e, out = Raised e) \/ out = Returned None ->
  refresh_cycle key out now c = c.
Proof. intros [[e ->] | ->]; reflexivity. Qed.

(** C1. A cycle whose fetch raises or returns [None] leaves the entry of
    its key as it was, data and timestamp, and the next read answers with
    that same snapshot: the three fields of a normal response, no error. *)
Theorem failed_cycle_keeps_snapshot key out now
    (c : gmap string CacheEntry) (e : CacheEntry) :
  (exists x, out = Raised x) \/ out = Returned None ->
  c !! key = Some e ->
  refresh_cycle key out now c !! key = Some e /\
  read_snapshot key (refresh_cycle key out now c) = read_snapshot key c /\
  read_snapshot key (refresh_cycle key out now c)
  = Ok {| r_data := data e; r_updated := updated e;
          r_count := length (data e) |}.
Proof.
  intros Hf He. rewrite (refresh_cycle_failed _ _ _ _ Hf).
  unfold read_snapshot. rewrite He. auto.
Qed.

Lemma failed_cycle_keeps_snapshot_witness :
  refresh_cycle "games" (Returned None) (S754_zero false) cache !! "games"
  = Some {| data := []; updated := NInt 0 |} /\
  api_games (refresh_cycle "games" (Raised ValueError) (S754_zero false) cache)
  = Ok {| r_data := []; r_updated := NInt 0; r_count := 0 |}.
Proof.
  split.
  - apply (failed_cycle_keeps_snapshot "games" (Returned None) (S754_zero false)
             cache {| data := []; updated := NInt 0 |}).
    + right; reflexivity.
    + reflexivity.
  - apply (failed_cycle_keeps_snapshot "games" (Raised ValueError)
             (S754_zero false) cache {| data := []; updated := NInt 0 |}).
    + left; eexists; reflexivity.
    + reflexivity.
Defined.

(** ** Headline selector (C4) *)

Lemma imap_snoc {A B} (f : nat -> A -> B) (l : list A) (x : A) :
  imap f (l ++ [x]) = imap f l ++ [f (length l) x].
Proof.
  rewrite imap_app. simpl. f_equal. f_equal. f_equal. lia.
Qed.

Lemma long_text_nonempty c :
  negb (String.eqb (c_text c) EmptyString) && (15 <? String.length (c_text c))%nat
  = long_text c.
Proof.
  unfold long_text. destruct (c_text c); simpl; [reflexivity|].
  reflexivity.
Qed.

(** The loop adds, after what it already holds, the long candidates in
    order, each tagged by the number of headlines before it. *)
Lemma headlines_loop_spec arts : forall acc,
  headlines_loop acc arts
  = acc ++ imap (fun i => headline_at (length acc + i))
             (List.filter long_text arts).
Proof.
  induction arts as [|a arts IH]; intros acc; simpl.
  - by rewrite app_nil_r.
  - rewrite long_text_nonempty. destruct (long_text a); simpl.
    + rewrite IH. rewrite <- app_assoc. simpl. f_equal.
      unfold headline_at at 2, badge. rewrite Nat.add_0_r. f_equal.
      apply imap_ext. intros i c _. simpl. rewrite length_app. simpl.
      f_equal. lia.
    + apply IH.
Qed.

Lemma length_py_slice_to {A} (n : Z) (l : list A) :
  0 <= n -> (length (py_slice_to n l) <= Z.to_nat n)%nat.
Proof.
  intros Hn. unfold py_slice_to.
  destruct (0 <=? n) eqn:E; [|lia].
  rewrite length_take. lia.
Qed.

(** The claim of C4 fails on the code: with a maximum of 1, a short
    candidate followed by a long one gives no headline at all, where the
    claim selects the long one. *)
Lemma headlines_max_counts_examined :
  fetch_headlines 1
    (Ok [ {| c_text := "Short"; c_href := "/a" |};
          {| c_text := "A headline of some length"; c_href := "/b" |} ])
  = Some []
  /\ claimed_headlines 1
       [ {| c_text := "Short"; c_href := "/a" |};
         {| c_text := "A headline of some length"; c_href := "/b" |} ]
     = [ {| h_t := "A headline of some length"; h_b := "new";
            h_url := "/b" |} ]
  /\ fetch_headlines 1
       (Ok [ {| c_text := "Short"; c_href := "/a" |};
             {| c_text := "A headline of some length"; c_href := "/b" |} ])
     <> Some (claimed_headlines 1
               [ {| c_text := "Short"; c_href := "/a" |};
                 {| c_text := "A headline of some length"; c_href := "/b" |} ]).
Proof. split; [reflexivity | split; [reflexivity | discriminate]]. Qed.

(** C4, amended. The selector looks at the first [max] candidates only,
    keeps those whose text is longer than 15 characters, and tags the
    first three kept "new" and the later ones "rumor"; so at most [max]
    headlines come out, and five long candidates under a maximum of five
    or more give three "new" followed by two "rumor". *)
Theorem headlines_selected max (cands : list Candidate) :
  exists hs,
    fetch_headlines max (Ok cands) = Some hs /\
    hs = imap headline_at (List.filter long_text (py_slice_to max cands)) /\
    (0 <= max -> (length hs <= Z.to_nat max)%nat) /\
    (forall i h, hs !! i = Some h ->
       (15 < String.length (h_t h))%nat /\
       h_b h = if (i <? 3)%nat then "new" else "rumor") /\
    (length cands = 5%nat -> forallb long_text cands = true -> 5 <= max ->
     h_b <$> hs = ["new"; "new"; "new"; "rumor"; "rumor"]).
Proof.
  eexists. split; [reflexivity|].
  rewrite headlines_loop_spec. simpl.
  set (hs := imap _ _).
  assert (Hhs : hs = imap headline_at
                       (List.filter long_text (py_slice_to max cands))).
  { subst hs. apply imap_ext. intros; reflexivity. }
  rewrite Hhs. clear hs Hhs.
  split; [reflexivity|]. split; [|split].
  - intros Hmax. rewrite length_imap.
    etransitivity; [apply filter_length_le|].
    by apply length_py_slice_to.
  - intros i h Hi. rewrite list_lookup_imap in Hi.
    destruct (List.filter long_text (py_slice_to max cands) !! i)
      as [c|] eqn:Hc; simpl in Hi; [|discriminate].
    injection Hi as <-. simpl. split; [|reflexivity].
    apply list_elem_of_lookup_2 in Hc. apply list_elem_of_In in Hc.
    apply filter_In in Hc as [_ Hc]. unfold long_text in Hc.
    by apply Nat.ltb_lt in Hc.
  - intros Hlen Hall H5.
    assert (Hs : py_slice_to max cands = cands).
    { unfold py_slice_to. destruct (0 <=? max) eqn:E; [|lia].
      apply take_ge. lia. }
    rewrite Hs.
    assert (Hf : List.filter long_text cands = cands).
    { clear -Hall. induction cands as [|c cs IH]; simpl in *; [done|].
      apply andb_prop in Hall as [-> Hall]. by rewrite IH. }
    rewrite Hf.
    destruct cands as [|c1 [|c2 [|c3 [|c4 [|c5 [|c6 cs]]]]]];
      try discriminate. reflexivity.
Qed.

Lemma headlines_selected_witness :
  exists hs,
    fetch_headlines 5
      (Ok (replicate 5 {| c_text := "A headline of some length";
                          c_href := "/b" |})) = Some hs /\
    h_b <$> hs = ["new"; "new"; "new"; "rumor"; "rumor"].
Proof.
  destruct (headlines_selected 5
              (replicate 5 {| c_text := "A headline of some length";
                              c_href := "/b" |}))
    as (hs & H1 & _ & _ & _ & H5).
  exists hs. split; [exact H1|].
  apply H5; [reflexivity | reflexivity | lia].
Defined.

(** ** Error monad *)

Lemma bind_Ok {A B} (r : res A) (k : A -> res B) (b : B) :
  r ≫= k = Ok b -> exists a, r = Ok a /\ k a = Ok b.
Proof. destruct r as [a|e]; simpl; [eauto | discriminate]. Qed.

Lemma Ok_inj {A} (a b : A) : Ok a = Ok b -> a = b.
Proof. congruence. Qed.

Ltac inv_res :=
  repeat match goal with
    | H : _ ≫= _ = Ok _ |- _ =>
        let a := fresh "a" in
        let Ha := fresh "H" a in
        apply bind_Ok in H as (a & Ha & H); cbv beta in H
    | H : mret _ = Ok _ |- _ => cbv [mret res_ret] in H
    | H : Ok _ = Ok _ |- _ => apply Ok_inj in H
    | H : Raise _ = Ok _ |- _ => discriminate H
    | H : (let '(_, _) := ?p in _) = Ok _ |- _ => destruct p
    end.

(** ** Quarters (C5) *)

Lemma pad_loop_spec fuel : forall q,
  pad_loop fuel q
  = q ++ replicate (Nat.min fuel (4 - length q)) (VInt 0).
Proof.
  induction fuel as [|k IH]; intros q; cbn [pad_loop].
  - simpl. by rewrite app_nil_r.
  - destruct (length q <? 4)%nat eqn:E.
    + apply Nat.ltb_lt in E. rewrite IH, length_app. cbn [length].
      rewrite <- app_assoc. f_equal.
      replace (Nat.min (S k) (4 - length q))
        with (S (Nat.min k (4 - (length q + 1)))) by lia.
      reflexivity.
    + apply Nat.ltb_ge in E.
      replace (4 - length q)%nat with 0%nat by lia.
      rewrite Nat.min_0_r. simpl. by rewrite app_nil_r.
Qed.

(** Four turns of the padding loop are enough. *)
Lemma pad_loop_4 q :
  pad_loop 4 q = q ++ replicate (4 - length q) (VInt 0).
Proof. rewrite pad_loop_spec. f_equal. f_equal. lia. Qed.

Lemma quarters_length (qs : list pyval) :
  length (take 4 (pad_loop 4 qs)) = 4%nat.
Proof.
  rewrite pad_loop_4, length_take, length_app, length_replicate. lia.
Qed.

Lemma team_quarters_spec t q :
  team_quarters t = Ok q ->
  exists qs, period_scores t = Ok qs /\
             q = take 4 (qs ++ replicate (4 - length qs) (VInt 0)) /\
             length q = 4%nat.
Proof.
  unfold team_quarters. intros H. inv_res. subst q. exists a.
  split; [done|]. split; [by rewrite pad_loop_4 | apply quarters_length].
Qed.

(** *** Period scores against the payload *)

Lemma mapM_period_scores ps qs :
  mapM (fun p => py_get p "score" (VInt 0)) ps = Ok qs ->
  qs = period_score <$> ps.
Proof.
  revert qs. induction ps as [|p ps IH]; intros qs H; simpl in H.
  - by apply Ok_inj in H.
  - inv_res. subst qs. rewrite fmap_cons. f_equal; [|by apply IH].
    destruct p; simpl in *; try discriminate. by apply Ok_inj in Ha.
Qed.

(** What [period_scores] collects is the score of each record of the
    "periods" list, in order. *)
Lemma period_scores_spec t qs :
  period_scores t = Ok qs -> qs = scores_of t.
Proof.
  unfold period_scores. intros H. inv_res.
  destruct t as [| | | | | |td]; try discriminate.
  simpl in Ha. apply Ok_inj in Ha. subst a. simpl.
  destruct (td !! "periods") as [periods|]; simpl in H;
    [|by apply Ok_inj in H].
  destruct (py_truth periods) eqn:Ht.
  - inv_res. destruct periods as [|b|z|x|s|l|d]; try discriminate.
    + destruct s as [|c s]; [discriminate|].
      simpl in Ha. apply Ok_inj in Ha. subst a. simpl in H. discriminate.
    + simpl in Ha. apply Ok_inj in Ha. subst a.
      by apply mapM_period_scores.
    + simpl in Ha. apply Ok_inj in Ha. subst a.
      destruct (map_to_list d) as [|[k v] rest] eqn:E.
      * apply map_to_list_empty_iff in E. subst d. discriminate.
      * simpl in H. discriminate.
  - apply Ok_inj in H. subst qs.
    destruct periods as [|b|z|x|s|l|d]; try done.
    by destruct l.
Qed.

(** *** The fields of a clock token *)










Section NormaliserFacts.

Variable repr_other : pyval -> string.

Lemma parse_team_quarters t home g tb :
  parse_team repr_other t home g = Ok tb ->
  team_quarters t = Ok (quarters tb).
Proof.
  unfold parse_team, team_quarters. intros H. inv_res. subst tb. simpl.
  match goal with
  | Hq : period_scores _ = Ok _ |- _ => by rewrite Hq
  end.
Qed.

(** C5. In every game the normaliser produces, each side has exactly
    four quarters: the scores of the records of its "periods" list, in
    the order of the list, zeros appended up to four entries, and
    nothing beyond the fourth. *)
Theorem quarters_exactly_four g game :
  game_of repr_other g = Ok game ->
  exists ta th,
    py_get g "awayTeam" (VDict ∅) = Ok ta /\
    py_get g "homeTeam" (VDict ∅) = Ok th /\
    quarters (away game)
    = take 4 (scores_of ta
              ++ replicate (4 - length (scores_of ta)) (VInt 0)) /\
    quarters (home game)
    = take 4 (scores_of th
              ++ replicate (4 - length (scores_of th)) (VInt 0)) /\
    length (quarters (away game)) = 4%nat /\
    length (quarters (home game)) = 4%nat.
Proof.
  unfold game_of. intros H. inv_res. subst game. simpl.
  repeat match goal with
    | H : parse_team _ _ _ _ = Ok _ |- _ =>
        apply parse_team_quarters, team_quarters_spec in H
          as (? & H & ? & ?);
        apply period_scores_spec in H; subst
    end.
  eexists _, _.
  split; [eassumption|]. split; [eassumption|]. auto.
Qed.

(** ** Minutes (C2) *)

(** C2. On the ISO-duration token of the claim the code answers 2500:
    the minutes marker is deleted, not turned into a separator, so the
    digits of the seconds run into those of the minutes. *)
Theorem parse_minutes_iso_token :
  _parse_minutes repr_other (VStr "PT25M00S") = Ok 2500.
Proof. reflexivity. Qed.

(** The other tokens of the claim come out as it says. *)
Lemma parse_minutes_tokens :
  _parse_minutes repr_other (VStr "PT25M") = Ok 25 /\
  _parse_minutes repr_other (VStr "25:30") = Ok 25 /\
  _parse_minutes repr_other (VStr "25") = Ok 25 /\
  _parse_minutes repr_other (VStr "25.9") = Ok 25 /\
  _parse_minutes repr_other (VInt 25) = Ok 25 /\
  _parse_minutes repr_other (VStr EmptyString) = Ok 0 /\
  _parse_minutes repr_other (VStr "n/a") = Ok 0 /\
  _parse_minutes repr_other VNone = Ok 0.
Proof. repeat split; reflexivity. Qed.

(** Only a float that is not finite makes [_parse_minutes] raise: its
    [int(val)] is outside the [try]. *)
Lemma parse_minutes_returns val :
  (forall x, val = VFloat x -> PyFloat.is_finite x = true) ->
  exists z, _parse_minutes repr_other val = Ok z.
Proof.
  intros Hfin. destruct val; simpl; eauto.
  specialize (Hfin x eq_refl). destruct x; simpl in *; eauto; discriminate.
Qed.

Lemma parse_minutes_nan :
  _parse_minutes repr_other (VFloat S754_nan) = Raise ValueError.
Proof. reflexivity. Qed.

(** ** Clock (C3) *)



End NormaliserFacts.



Lemma quarters_exactly_four_witness :
  exists game,
    game_of plain_repr sample_game = Ok game /\
    quarters (home game) = [VInt 28; VInt 31; VInt 19; VInt 25] /\
    quarters (away game) = [VInt 30; VInt 0; VInt 0; VInt 0] /\
    length (quarters (away game)) = 4%nat /\
    length (quarters (home game)) = 4%nat.
Proof.
  assert (H : { game | game_of plain_repr sample_game = Ok game }).
  { eexists. vm_compute. reflexivity. }
  destruct H as [game H]. exists game. split; [exact H|].
  destruct (quarters_exactly_four plain_repr sample_game game H)
    as (ta & th & Hta & Hth & Hqa & Hqh & Ha & Hh).
  vm_compute in Hta. apply Ok_inj in Hta. subst ta.
  vm_compute in Hth. apply Ok_inj in Hth. subst th.
  split; [rewrite Hqh; reflexivity|].
  split; [rewrite Hqa; reflexivity|].
  split; assumption.
Defined.

(** The tokens of the feed for a quarter come out as "M:SS". *)
Lemma live_clock_tokens mm ss ff :
  (mm <= 12)%nat -> (ss <= 59)%nat -> In ff [0; 40; 99]%nat ->
  live_clock (clock_token mm ss ff) = pretty (Z.of_nat mm) +:+ ":" +:+ two ss.
Proof.
  intros Hm Hs Hf.
  assert (H : clock_tokens_ok = true) by (vm_compute; reflexivity).
  unfold clock_tokens_ok in H. rewrite forallb_forall in H.
  specialize (H mm ltac:(apply in_seq; lia)). rewrite forallb_forall in H.
  specialize (H ss ltac:(apply in_seq; lia)). rewrite forallb_forall in H.
  specialize (H ff Hf). by apply String.eqb_eq in H.
Qed.

(** The minutes token without seconds gives its minutes. *)
Lemma parse_minutes_plain_tokens mm :
  (mm <= 60)%nat ->
  _parse_minutes plain_repr (VStr ("PT" +:+ two mm +:+ "M"))
  = Ok (Z.of_nat mm).
Proof.
  intros Hm.
  assert (H : minutes_tokens_ok plain_repr = true) by (vm_compute; reflexivity).
  unfold minutes_tokens_ok in H. rewrite forallb_forall in H.
  specialize (H mm ltac:(apply in_seq; lia)).
  destruct (_parse_minutes _ _); [|discriminate].
  apply Z.eqb_eq in H. by subst.
Qed.

(** Zero, one, five and seven period scores. *)
Lemma quarters_scenarios :
  team_quarters (team_with_periods []) = Ok [VInt 0; VInt 0; VInt 0; VInt 0] /\
  team_quarters (team_with_periods [30])
  = Ok [VInt 30; VInt 0; VInt 0; VInt 0] /\
  team_quarters (team_with_periods [28; 31; 19; 25; 12])
  = Ok [VInt 28; VInt 31; VInt 19; VInt 25] /\
  team_quarters (team_with_periods [28; 31; 19; 25; 12; 9; 14])
  = Ok [VInt 28; VInt 31; VInt 19; VInt 25] /\
  team_quarters (dict []) = Ok [VInt 0; VInt 0; VInt 0; VInt 0].
Proof. repeat split; vm_compute; reflexivity. Qed.

(** ** Status, period label and clock (C8) *)

Section StatusFacts.

Variable repr_other : pyval -> string.

Lemma live_period_int n :
  live_period repr_other (VInt n)
  = Ok (if n <=? 4 then pretty n +:+ ordinal_suffix (NInt n) +:+ " Qtr"
        else "OT" +:+ pretty (n - 4)).
Proof.
  unfold live_period. simpl.
  destruct (Z.compare_spec n 4) as [->|H|H]; simpl.
  - reflexivity.
  - replace (n <=? 4) with true by lia. reflexivity.
  - replace (n <=? 4) with false by lia. reflexivity.
Qed.

Lemma final_period_int n :
  final_period repr_other (VInt n)
  = Ok (if n <=? 4 then "Final" else "Final/OT" +:+ pretty (n - 4)).
Proof.
  unfold final_period. simpl.
  destruct (Z.compare_spec n 4) as [->|H|H]; simpl.
  - reflexivity.
  - replace (n <=? 4) with true by lia. reflexivity.
  - replace (n <=? 4) with false by lia. reflexivity.
Qed.

Lemma live_period_quarters :
  live_period repr_other (VInt 1) = Ok "1st Qtr" /\
  live_period repr_other (VInt 2) = Ok "2nd Qtr" /\
  live_period repr_other (VInt 3) = Ok "3rd Qtr" /\
  live_period repr_other (VInt 4) = Ok "4th Qtr" /\
  live_period repr_other (VInt 5) = Ok "OT1" /\
  live_period repr_other (VInt 6) = Ok "OT2".
Proof. repeat split; reflexivity. Qed.

(** The three branches of the status block. *)
Lemma game_status_cases g st lbl clk :
  game_status repr_other g = Ok (st, lbl, clk) ->
  exists code text per,
    py_get g "gameStatus" (VInt 1) = Ok code /\
    py_get g "gameStatusText" (VStr EmptyString) = Ok (VStr text) /\
    py_get g "period" (VInt 0) = Ok per /\
    ((py_eq_int code 1 = true /\
      st = "upcoming" /\ lbl = PyStr.strip text /\ clk = EmptyString)
     \/
     (py_eq_int code 1 = false /\ py_eq_int code 2 = true /\
      st = "live" /\ live_period repr_other per = Ok lbl /\
      exists raw, py_get g "gameClock" (VStr EmptyString) = Ok (VStr raw) /\
                  clk = live_clock raw)
     \/
     (py_eq_int code 1 = false /\ py_eq_int code 2 = false /\
      st = "final" /\ final_period repr_other per = Ok lbl /\ clk = EmptyString)).
Proof.
  unfold game_status. intros H. inv_res.
  destruct a0 as [| | | |text| |]; try discriminate. simpl in Ha1.
  apply Ok_inj in Ha1. subst a1.
  exists a, text, a2. do 3 (split; [assumption|]).
  destruct (py_eq_int a 1) eqn:E1.
  - left. apply Ok_inj in H. injection H as <- <- <-. auto.
  - destruct (py_eq_int a 2) eqn:E2.
    + right; left. inv_res.
      destruct a0 as [| | | |raw| |]; try discriminate.
      inv_res. injection H as <- <- <-. eauto 10.
    + right; right. inv_res. injection H as <- <- <-. auto.
Qed.

(** C8. Status, period label and clock of a normalised game come from
    the one status code of the payload: code 1 gives "upcoming", the
    start-time text as label and no clock; code 2 gives "live" with the
    label of the quarter, "1st Qtr" to "4th Qtr", or of the overtime
    past the fourth period; any other code gives "final" with "Final",
    or "Final/OT" and the number of the overtime, and no clock. A
    final or upcoming game never carries a clock. *)
Theorem status_label_clock g game :
  game_of repr_other g = Ok game ->
  exists code text per,
    py_get g "gameStatus" (VInt 1) = Ok code /\
    py_get g "gameStatusText" (VStr EmptyString) = Ok (VStr text) /\
    py_get g "period" (VInt 0) = Ok per /\
    (py_eq_int code 1 = true ->
       status game = "upcoming" /\ period game = PyStr.strip text /\
       clock game = EmptyString) /\
    (py_eq_int code 1 = false -> py_eq_int code 2 = true ->
       status game = "live" /\
       live_period repr_other per = Ok (period game) /\
       (forall n, per = VInt n ->
          period game
          = if n <=? 4
            then pretty n +:+ ordinal_suffix (NInt n) +:+ " Qtr"
            else "OT" +:+ pretty (n - 4)) /\
       (per = VInt 1 -> period game = "1st Qtr") /\
       (per = VInt 2 -> period game = "2nd Qtr") /\
       (per = VInt 3 -> period game = "3rd Qtr") /\
       (per = VInt 4 -> period game = "4th Qtr")) /\
    (py_eq_int code 1 = false -> py_eq_int code 2 = false ->
       status game = "final" /\ clock game = EmptyString /\
       final_period repr_other per = Ok (period game) /\
       (forall n, per = VInt n ->
          period game
          = if n <=? 4 then "Final" else "Final/OT" +:+ pretty (n - 4))) /\
    (status game = "final" -> clock game = EmptyString) /\
    (status game = "upcoming" -> clock game = EmptyString) /\
    (status game = "upcoming" \/ status game = "live" \/
     status game = "final").
Proof.
  unfold game_of. intros H. inv_res. subst game. simpl.
  match goal with
  | Hs : game_status _ _ = Ok (?st, ?l, ?c) |- _ =>
      rename st into st0, l into lbl, c into clk;
      apply game_status_cases in Hs
        as (code & text & per & Hc & Ht & Hp & Hcases)
  end.
  exists code, text, per. do 3 (split; [assumption|]).
  destruct Hcases as [(E1 & -> & -> & ->)
                     |[(E1 & E2 & -> & Hl & raw & Hraw & ->)
                      |(E1 & E2 & -> & Hl & ->)]];
    rewrite E1; try rewrite E2.
  - repeat split; try discriminate; auto.
  - split; [discriminate|]. split.
    + intros _ _. split; [reflexivity|]. split; [assumption|].
      assert (Hn : forall n, per = VInt n ->
                lbl = if n <=? 4
                      then pretty n +:+ ordinal_suffix (NInt n) +:+ " Qtr"
                      else "OT" +:+ pretty (n - 4)).
      { intros n ->. rewrite live_period_int in Hl. by apply Ok_inj in Hl. }
      split; [exact Hn|].
      repeat split; intros Hper; by rewrite (Hn _ Hper).
    + repeat split; try discriminate; auto.
  - split; [discriminate|]. split; [discriminate|]. split.
    + intros _ _. repeat split; try assumption.
      intros n ->. rewrite final_period_int in Hl. by apply Ok_inj in Hl.
    + repeat split; auto.
Qed.

End StatusFacts.

Lemma status_label_clock_witness :
  (exists game,
     game_of plain_repr sample_game = Ok game /\
     status game = "final" /\ clock game = EmptyString /\
     period game = "Final/OT3") /\
  (exists game,
     game_of plain_repr sample_live_game = Ok game /\
     status game = "live" /\ period game = "3rd Qtr" /\
     clock game = "5:23").
Proof.
  split.
  - assert (H : { game | game_of plain_repr sample_game = Ok game }).
    { eexists. vm_compute. reflexivity. }
    destruct H as [game H]. exists game. split; [exact H|].
    destruct (status_label_clock plain_repr sample_game game H)
      as (code & text & per & Hc & _ & Hp & _ & _ & Hfinal & _).
    vm_compute in Hc. apply Ok_inj in Hc. subst code.
    vm_compute in Hp. apply Ok_inj in Hp. subst per.
    destruct (Hfinal eq_refl eq_refl) as (Hs & Hk & _ & Hn).
    split; [exact Hs|]. split; [exact Hk|]. exact (Hn 7 eq_refl).
  - eexists. split; [vm_compute; reflexivity|].
    match goal with
    | |- status ?gm = _ /\ _ =>
        destruct (status_label_clock plain_repr sample_live_game gm)
          as (code & text & per & Hc & _ & Hp & _ & Hlive & _);
          [vm_compute; reflexivity|]
    end.
    vm_compute in Hc. apply Ok_inj in Hc. subst code.
    vm_compute in Hp. apply Ok_inj in Hp. subst per.
    destruct (Hlive eq_refl eq_refl) as (Hs & _ & _ & _ & _ & H3 & _).
    split; [exact Hs|]. split; [exact (H3 eq_refl)|]. reflexivity.
Defined.

(** The leaders of the sample live game: the home side carries the
    values of the feed, the away side the defaults. *)
Lemma leaders_scenario :
  exists game,
    game_of plain_repr sample_live_game = Ok game /\
    leaders (home game)
    = {| l_pts := {| ld_p := VStr "Jayson Tatum"; ld_v := VInt 30 |};
         l_reb := {| ld_p := VStr "Jayson Tatum"; ld_v := VInt 8 |};
         l_ast := {| ld_p := VStr "Jayson Tatum"; ld_v := VInt 4 |} |} /\
    leaders (away game) = leaders0.
Proof. eexists. split; [vm_compute; reflexivity|]. split; reflexivity. Qed.

(** ** Players: classification and totals (C6, C10) *)

Lemma sum_from_app acc vs ws n :
  sum_from acc (vs ++ ws) = Ok n ->
  exists m, sum_from acc vs = Ok m /\ sum_from m ws = Ok n.
Proof.
  revert acc. induction vs as [|v vs IH]; intros acc H; simpl in *.
  - eauto.
  - inv_res. destruct (IH _ H) as (m & Hm & Hn).
    exists m. rewrite Ha. simpl. auto.
Qed.

(** On ints the sum is the sum of the integers. *)
Lemma sum_from_ints vs : forall z n,
  Forall is_int vs ->
  sum_from (NInt z) vs = Ok n ->
  n = NInt (z + sum_Z (int_of <$> vs)).
Proof.
  induction vs as [|v vs IH]; intros z n Hall H; simpl in *.
  - inv_res. subst n. f_equal. lia.
  - inversion Hall as [|? ? Hv Hvs]; subst. inv_res.
    destruct v as [|[|]| | | | |]; try contradiction;
      cbv [acc_add num_of num_add Z.b2z] in Ha;
      inv_res; subst a; rewrite (IH _ _ Hvs H); f_equal; simpl;
      by rewrite <- Z.add_assoc.
Qed.

Lemma sum_Z_app l1 l2 : sum_Z (l1 ++ l2) = sum_Z l1 + sum_Z l2.
Proof. induction l1; simpl in *; lia. Qed.

Section PlayerFacts.

Variable repr_other : pyval -> string.

Lemma is_dnp_dict d :
  is_dnp (VDict d)
  = Ok (negb (py_eq_str (default (VStr "ACTIVE") (d !! "status")) "ACTIVE")
        || py_eq_str (default (VStr "1") (d !! "played")) "0").
Proof. reflexivity. Qed.

Lemma is_starter_dict d :
  is_starter (VDict d)
  = Ok (py_eq_str (default (VStr "0") (d !! "starter")) "1").
Proof. reflexivity. Qed.

(** The line keeps the minutes and prints the shot counts. *)
Lemma player_obj_fields p stats min_val sv l :
  player_obj repr_other p stats min_val sv = Ok l ->
  pl_min l = min_val /\
  forall k, line_shots k l
            = py_str repr_other (made k sv) +:+ "-"
              +:+ py_str repr_other (attempted k sv).
Proof.
  unfold player_obj. intros H. inv_res. subst l. simpl.
  split; [reflexivity|]. intros []; reflexivity.
Qed.

(** One turn of the loop: the record goes to [dnp], or its line goes
    to [starters] or [bench] and into the totals. *)
Lemma player_step_cases st p st' :
  player_step repr_other st p = Ok st' ->
  (sits_out p = true /\
   exists e, dnp_entry repr_other p = Ok e /\
     st' = {| ls_starters := ls_starters st; ls_bench := ls_bench st;
              ls_dnp := ls_dnp st ++ [e]; ls_totals := ls_totals st |})
  \/
  (sits_out p = false /\
   exists s l sv t,
     active_line repr_other p = Ok (s, l, sv) /\
     update_totals (ls_totals st) (pl_min l) sv l = Ok t /\
     st' = {| ls_starters := ls_starters st ++ (if s then [l] else []);
              ls_bench := ls_bench st ++ (if s then [] else [l]);
              ls_dnp := ls_dnp st; ls_totals := t |}).
Proof.
  unfold player_step. intros H. inv_res.
  unfold sits_out. rewrite Ha0. simpl.
  destruct a0.
  - left. split; [reflexivity|]. inv_res. subst st'. eauto.
  - right. split; [reflexivity|]. inv_res.
    match goal with
    | Hs : active_step _ _ _ _ = Ok _ |- _ =>
        unfold active_step in Hs; inv_res;
        injection Hs as E1 E2; subst
    end.
    match goal with
    | Hs : player_obj _ _ _ _ _ = Ok _ |- _ =>
        pose proof (proj1 (player_obj_fields _ _ _ _ _ Hs)) as Hmin
    end.
    unfold active_line. rewrite Ha. simpl.
    repeat match goal with
      | Hx : ?r = Ok _ |- context [?r] => rewrite Hx; simpl
      end.
    eexists _, _, _, _. split; [reflexivity|].
    rewrite Hmin. split; [eassumption|].
    match goal with
    | Hs : (if ?s then _ else _) = Ok _ |- _ =>
        destruct s; inv_res; subst st'; by rewrite !app_nil_r
    end.
Qed.

(** The loop as a whole: the records that sit out give the [dnp]
    entries, the others give the lines, shared between [starters] and
    [bench], and the totals. *)
Lemma players_loop_spec ps : forall st st',
  players_loop repr_other st ps = Ok st' ->
  exists ents lines,
    mapM (dnp_entry repr_other) (List.filter sits_out ps) = Ok ents /\
    mapM (active_line repr_other)
         (List.filter (fun p => negb (sits_out p)) ps) = Ok lines /\
    ls_dnp st' = ls_dnp st ++ ents /\
    ls_starters st' = ls_starters st ++ lines_of true lines /\
    ls_bench st' = ls_bench st ++ lines_of false lines /\
    totals_from (ls_totals st) lines = Ok (ls_totals st').
Proof.
  induction ps as [|p ps IH]; intros st st' H; simpl in H.
  - inv_res. subst st'. exists [], []. simpl.
    by rewrite !app_nil_r.
  - inv_res. apply IH in H as (ents & lines & He & Hl & Hd & Hs & Hb & Ht).
    apply player_step_cases in Ha
      as [(Hout & e & Hent & ->) | (Hout & s & l & sv & t & Hal & Hut & ->)];
      simpl in *; rewrite Hout; simpl.
    + exists (e :: ents), lines. rewrite Hent, He. simpl.
      rewrite Hd, <- app_assoc. split; [reflexivity|]. auto.
    + exists ents, ((s, l, sv) :: lines). rewrite Hal, Hl. simpl.
      rewrite Hut. simpl. rewrite Hs, Hb, <- !app_assoc.
      split; [assumption|]. split; [reflexivity|].
      unfold lines_of. simpl. destruct s; simpl; auto.
Qed.

Lemma mapM_Forall2 {A B} (f : A -> res B) (l : list A) : forall ys,
  mapM f l = Ok ys -> Forall2 (fun x y => f x = Ok y) l ys.
Proof.
  induction l as [|x l IH]; intros ys H; simpl in H.
  - inv_res. subst ys. constructor.
  - inv_res. subst ys. constructor; auto.
Qed.

Lemma update_totals_fields t min_val sv l t' :
  update_totals t min_val sv l = Ok t' ->
  tot_min t' = tot_min t + min_val /\
  acc_add (tot_pts t) (pl_pts l) = Ok (tot_pts t') /\
  forall k,
    acc_add (tot_shots k t).1 (made k sv) = Ok (tot_shots k t').1 /\
    acc_add (tot_shots k t).2 (attempted k sv) = Ok (tot_shots k t').2.
Proof.
  unfold update_totals, add_pair. intros H. inv_res. subst t'. simpl.
  split; [reflexivity|]. split; [assumption|].
  intros []; simpl; subst; simpl; auto.
Qed.

(** The totals are running sums over the lines, field by field. *)
Lemma totals_from_fields lines : forall t t',
  totals_from t lines = Ok t' ->
  tot_min t' = tot_min t + sum_Z ((fun x => pl_min x.1.2) <$> lines) /\
  sum_from (tot_pts t) ((fun x => pl_pts x.1.2) <$> lines)
  = Ok (tot_pts t') /\
  forall k,
    sum_from (tot_shots k t).1 ((fun x => made k x.2) <$> lines)
    = Ok (tot_shots k t').1 /\
    sum_from (tot_shots k t).2 ((fun x => attempted k x.2) <$> lines)
    = Ok (tot_shots k t').2.
Proof.
  induction lines as [|[[s l] sv] lines IH]; intros t t' H; simpl in H.
  - inv_res. subst t'. simpl. split; [lia|]. auto.
  - inv_res. apply IH in H as (Hmin & Hpts & Hk).
    apply update_totals_fields in Ha as (Hmin1 & Hpts1 & Hk1).
    rewrite !fmap_cons. cbn [sum_from sum_Z foldr fst snd].
    split; [|split].
    + rewrite Hmin, Hmin1. unfold sum_Z. lia.
    + rewrite Hpts1. exact Hpts.
    + intros k. destruct (Hk k) as [H1 H2], (Hk1 k) as [H3 H4].
      rewrite !fmap_cons. cbn [sum_from fst snd].
      rewrite H3, H4. auto.
Qed.

Lemma lines_of_sum (f : PlayerLine -> Z) lines :
  sum_Z ((fun x => f x.1.2) <$> lines)
  = sum_Z (f <$> lines_of true lines) + sum_Z (f <$> lines_of false lines).
Proof.
  unfold lines_of, sum_Z.
  induction lines as [|[[s l] sv] lines IH]; [reflexivity|].
  rewrite fmap_cons. cbn [foldr List.filter fst snd]. rewrite IH.
  destruct s; cbn [Bool.eqb]; rewrite ?fmap_cons; cbn [foldr fst snd]; lia.
Qed.

(** C6. The totals of a player section are sums over the players who
    play, starters and bench, and over no one else: the minutes; the
    points; for field goals, three-pointers and free throws the made
    and the attempted shots, which each line prints as "made-attempted"
    and the totals print the same way; and the team percentages are
    [_pct] of these two sums. With float values among the points the
    sum is the one accumulated in the order of the payload. *)
Theorem totals_are_sums players_data sec :
  _parse_players repr_other players_data = Ok sec ->
  exists ps lines,
    py_iter players_data = Ok ps /\
    mapM (active_line repr_other)
         (List.filter (fun p => negb (sits_out p)) ps) = Ok lines /\
    starters sec = lines_of true lines /\
    bench sec = lines_of false lines /\
    tl_min (totals sec)
    = sum_Z (pl_min <$> starters sec) + sum_Z (pl_min <$> bench sec) /\
    py_sum ((fun x => pl_pts x.1.2) <$> lines) = Ok (tl_pts (totals sec)) /\
    (Forall (fun x => is_int (pl_pts x.1.2)) lines ->
     tl_pts (totals sec)
     = NInt (sum_Z ((fun l => int_of (pl_pts l)) <$> starters sec)
             + sum_Z ((fun l => int_of (pl_pts l)) <$> bench sec))) /\
    forall k, exists m a x,
      py_sum ((fun x => made k x.2) <$> lines) = Ok m /\
      py_sum ((fun x => attempted k x.2) <$> lines) = Ok a /\
      Forall (fun x =>
                line_shots k x.1.2
                = py_str repr_other (made k x.2) +:+ "-"
                  +:+ py_str repr_other (attempted k x.2)) lines /\
      total_shots k (totals sec)
      = num_str repr_other m +:+ "-" +:+ num_str repr_other a /\
      _pct (val_of_num m) (val_of_num a) = Ok x /\
      team_pct k (pcts sec) = py_str repr_other (VFloat x) +:+ "%".
Proof.
  unfold _parse_players. intros H. inv_res.
  match goal with
  | Hloop : players_loop _ _ _ = Ok ?st |- _ =>
      rename st into st0;
      apply players_loop_spec in Hloop
        as (ents & lines & He & Hl & Hd & Hs & Hb & Ht)
  end.
  simpl in Hd, Hs, Hb, Ht.
  apply totals_from_fields in Ht as (Hmin & Hpts & Hk).
  subst sec. simpl.
  eexists _, lines. split; [eassumption|]. split; [exact Hl|].
  split; [exact Hs|]. split; [exact Hb|].
  split; [|split; [|split]].
  - rewrite Hmin, Hs, Hb. simpl. apply (lines_of_sum pl_min).
  - exact Hpts.
  - intros Hint. unfold py_sum in *. simpl in Hpts.
    apply sum_from_ints in Hpts.
    + rewrite Hpts, Hs, Hb. f_equal. simpl.
      rewrite <- (lines_of_sum (fun l => int_of (pl_pts l))).
      by rewrite <- list_fmap_compose.
    + apply Forall_fmap. exact Hint.
  - intros k. destruct (Hk k) as [Hm Ha'].
    unfold pct_str in *. inv_res.
    assert (Hlines : Forall (fun x =>
                line_shots k x.1.2
                = py_str repr_other (made k x.2) +:+ "-"
                  +:+ py_str repr_other (attempted k x.2)) lines).
    { apply mapM_Forall2 in Hl. clear -Hl.
      induction Hl as [|p [[s l] sv] ps ls Hp _ IH]; constructor; auto.
      unfold active_line in Hp. inv_res.
      injection Hp as _ <- <-.
      match goal with
      | Ho : player_obj _ _ _ _ _ = Ok _ |- _ =>
          apply (proj2 (player_obj_fields _ _ _ _ _ Ho))
      end. }
    destruct k; simpl in *;
      eexists _, _, _;
      (split; [exact Hm|]); (split; [exact Ha'|]);
      (split; [exact Hlines|]); (split; [reflexivity|]);
      (split; [eassumption|]); subst; reflexivity.
Qed.

Lemma players_loop_dicts ps : forall st st',
  players_loop repr_other st ps = Ok st' ->
  Forall (fun p => exists d, p = VDict d) ps.
Proof.
  induction ps as [|p ps IH]; intros st st' H; simpl in H; [constructor|].
  inv_res. constructor; [|by eapply IH].
  unfold player_step in Ha. inv_res.
  destruct p; try discriminate. eauto.
Qed.

Lemma Forall2_In_l {A B} (R : A -> B -> Prop) l ys x :
  Forall2 R l ys -> In x l -> exists y, In y ys /\ R x y.
Proof.
  induction 1 as [|a b l ys Hab _ IH]; simpl; [tauto|].
  intros [->|Hx]; [eauto|].
  destruct (IH Hx) as (y & ? & ?). eauto.
Qed.

Lemma lines_of_length lines :
  (length (lines_of true lines) + length (lines_of false lines))%nat
  = length lines.
Proof.
  unfold lines_of. rewrite !length_fmap.
  induction lines as [|[[[] l] sv] lines IH]; simpl in *; lia.
Qed.

Lemma filter_split_length {A} (f : A -> bool) l :
  (length (List.filter f l)
   + length (List.filter (fun x => negb (f x)) l))%nat = length l.
Proof.
  induction l as [|x l IH]; simpl; [reflexivity|].
  destruct (f x); simpl; lia.
Qed.

Lemma mapM_length {A B} (f : A -> res B) l ys :
  mapM f l = Ok ys -> length ys = length l.
Proof.
  intros H. apply mapM_Forall2 in H. symmetry. by eapply Forall2_length.
Qed.

(** C10. Every player record lands in exactly one of [dnp], [starters]
    and [bench]. It goes to [dnp] exactly when its status, "ACTIVE" if
    the key is missing, differs from "ACTIVE", or its played flag, "1"
    if missing, equals "0"; otherwise it is a starter when its starter
    flag, "0" if missing, equals "1", and on the bench if not. A
    record with none of the three keys is an active bench player. *)
Theorem classification players_data sec :
  _parse_players repr_other players_data = Ok sec ->
  exists ps ents lines,
    py_iter players_data = Ok ps /\
    Forall (fun p => exists d, p = VDict d) ps /\
    mapM (dnp_entry repr_other) (List.filter sits_out ps) = Ok ents /\
    mapM (active_line repr_other)
         (List.filter (fun p => negb (sits_out p)) ps) = Ok lines /\
    dnp sec = ents /\
    starters sec = lines_of true lines /\
    bench sec = lines_of false lines /\
    (length (dnp sec) + length (starters sec) + length (bench sec))%nat
    = length ps /\
    (forall d,
       sits_out (VDict d)
       = negb (py_eq_str (default (VStr "ACTIVE") (d !! "status")) "ACTIVE")
         || py_eq_str (default (VStr "1") (d !! "played")) "0") /\
    (forall d s l sv,
       active_line repr_other (VDict d) = Ok (s, l, sv) ->
       s = py_eq_str (default (VStr "0") (d !! "starter")) "1") /\
    (forall d,
       In (VDict d) ps ->
       d !! "status" = None -> d !! "played" = None ->
       d !! "starter" = None ->
       exists l sv,
         active_line repr_other (VDict d) = Ok (false, l, sv) /\
         In l (bench sec) /\ sits_out (VDict d) = false).
Proof.
  unfold _parse_players. intros H. inv_res.
  match goal with
  | Hit : py_iter _ = Ok ?l |- _ => rename l into ps
  end.
  match goal with
  | Hloop : players_loop _ _ _ = Ok ?st |- _ =>
      rename st into st0;
      pose proof (players_loop_dicts _ _ _ Hloop) as Hdicts;
      apply players_loop_spec in Hloop
        as (ents & lines & He & Hl & Hd & Hs & Hb & Ht)
  end.
  simpl in Hd, Hs, Hb. subst sec. simpl.
  assert (Hst : forall d s l sv,
            active_line repr_other (VDict d) = Ok (s, l, sv) ->
            s = py_eq_str (default (VStr "0") (d !! "starter")) "1").
  { intros d s l sv Hal. unfold active_line in Hal. inv_res.
    match goal with
    | Hi : is_starter _ = Ok _ |- _ =>
        rewrite is_starter_dict in Hi; apply Ok_inj in Hi
    end.
    injection Hal as <- _ _. by subst. }
  eexists _, ents, lines.
  split; [eassumption|]. split; [exact Hdicts|].
  split; [exact He|]. split; [exact Hl|].
  split; [exact Hd|]. split; [exact Hs|]. split; [exact Hb|].
  split; [|split; [|split]].
  - rewrite Hd, Hs, Hb, <- Nat.add_assoc, lines_of_length.
    rewrite (mapM_length _ _ _ He), (mapM_length _ _ _ Hl).
    apply filter_split_length.
  - intros d. reflexivity.
  - exact Hst.
  - intros d Hin Hstatus Hplayed Hstarter.
    assert (Hout : sits_out (VDict d) = false).
    { unfold sits_out. rewrite is_dnp_dict, Hstatus, Hplayed. reflexivity. }
    assert (Hf : In (VDict d)
                   (List.filter (fun p => negb (sits_out p)) ps)).
    { apply filter_In. by rewrite Hout. }
    apply mapM_Forall2 in Hl.
    destruct (Forall2_In_l _ _ _ _ Hl Hf) as ([[s l] sv] & Hy & Hal).
    pose proof (Hst _ _ _ _ Hal) as Hs'. rewrite Hstarter in Hs'.
    simpl in Hs'. subst s.
    exists l, sv. split; [exact Hal|]. split; [|exact Hout].
    rewrite Hb. unfold lines_of. apply in_map_iff.
    exists (false, l, sv). split; [reflexivity|].
    apply filter_In. split; [exact Hy | reflexivity].
Qed.

End PlayerFacts.

Lemma totals_are_sums_witness :
  exists sec,
    _parse_players plain_repr sample_players = Ok sec /\
    tl_min (totals sec)
    = sum_Z (pl_min <$> starters sec) + sum_Z (pl_min <$> bench sec) /\
    tl_min (totals sec) = 60 /\
    tl_pts (totals sec) = NInt 38 /\
    tl_fg (totals sec) = "13-27" /\
    length (dnp sec) = 2%nat.
Proof.
  eexists. split; [vm_compute; reflexivity|].
  split; [|repeat split].
  match goal with
  | |- context [totals ?s] =>
      destruct (totals_are_sums plain_repr sample_players s)
        as (ps & lines & _ & _ & _ & _ & Hmin & _);
        [vm_compute; reflexivity | exact Hmin]
  end.
Defined.

Lemma classification_witness :
  exists sec,
    _parse_players plain_repr sample_players = Ok sec /\
    (length (dnp sec) + length (starters sec) + length (bench sec))%nat
    = 4%nat /\
    pl_n <$> starters sec = ["J. Tatum"] /\
    pl_n <$> bench sec = ["A. Horford"] /\
    dnp_n <$> dnp sec = ["K. Porzingis"; "S. Hauser"].
Proof.
  eexists. split; [vm_compute; reflexivity|].
  split; [|repeat split].
  match goal with
  | |- context [dnp ?s] =>
      destruct (classification plain_repr sample_players s)
        as (ps & ents & lines & Hps & _ & _ & _ & _ & _ & _ & Hlen & _);
        [vm_compute; reflexivity|];
      vm_compute in Hps; apply Ok_inj in Hps; subst ps; exact Hlen
  end.
Defined.

(** ** Readers and writers under the lock (C9) *)

Module ThreadFacts.
Import Threads.

Lemma thread_ok_outside i j sh sh' t :
  in_cs t = false -> thread_ok i sh t -> thread_ok j sh' t.
Proof.
  intros Hcs [_ H]. split; [congruence|].
  destruct t as [k n []|k []]; simpl in *; try discriminate; auto.
Qed.

Lemma outside_when_free i sh t :
  lock sh = None -> thread_ok i sh t -> in_cs t = false.
Proof.
  intros Hl [H _]. destruct (in_cs t); [|reflexivity].
  rewrite Hl in H. by specialize (H eq_refl).
Qed.

Lemma outside_when_other i j sh t :
  lock sh = Some i -> j <> i -> thread_ok j sh t -> in_cs t = false.
Proof.
  intros Hl Hne [H _]. destruct (in_cs t); [|reflexivity].
  rewrite Hl in H. specialize (H eq_refl). congruence.
Qed.

(** The other threads are not disturbed by a step of thread [i] that
    either leaves the shared state alone, or takes the free lock, or
    is made while [i] holds the lock. *)
Lemma others_kept i j sh sh' t :
  sh' = sh \/ lock sh = None \/ lock sh = Some i ->
  j <> i -> thread_ok j sh t -> thread_ok j sh' t.
Proof.
  intros [->|[Hl|Hl]] Hne Hok; [assumption| |].
  - eapply thread_ok_outside; [|eassumption].
    by eapply outside_when_free.
  - eapply thread_ok_outside; [|eassumption].
    by eapply outside_when_other.
Qed.

Lemma initial_inv σ : initial σ -> inv σ.
Proof.
  intros (Hst & Hl & Hts). split.
  - intros i t Hi.
    rewrite Forall_forall in Hts.
    assert (Hf : fresh t) by (apply Hts; eapply list_elem_of_lookup_2; eauto).
    destruct t as [k n []|k []]; simpl in Hf; try contradiction;
      split; simpl; auto; discriminate.
  - intros k s Hk. left. rewrite Hst, lookup_fmap in Hk.
    destruct (cache !! k); simpl in Hk; [|discriminate].
    injection Hk as <-. reflexivity.
Qed.

Lemma slot_ok_insert ts i t t' k s :
  slot_ok ts k s ->
  ts !! i = Some t ->
  (forall n, t <> Writer k n WSetUpdated) ->
  slot_ok (<[i := t']> ts) k s.
Proof.
  intros [Hc|(j & n & Hj)] Hi Hne; [by left|].
  right. exists j, n. destruct (decide (i = j)) as [->|Hij].
  - rewrite Hi in Hj. injection Hj as ->. by destruct (Hne n).
  - by rewrite list_lookup_insert_ne.
Qed.

(** A reader inside the [with] block finds the slot of its key
    consistent: the writer that could stand between the two
    assignments would own the lock too. *)
Lemma slot_consistent_for_holder ts sh i t k s :
  (forall j tj, ts !! j = Some tj -> thread_ok j sh tj) ->
  ts !! i = Some t -> lock sh = Some i ->
  (forall k' n, t <> Writer k' n WSetUpdated) ->
  slot_ok ts k s -> consistent s.
Proof.
  intros Hts Hi Hl Hne [Hc|(j & n & Hj)]; [assumption|].
  destruct (Hts _ _ Hj) as [Hcs _]. specialize (Hcs eq_refl).
  rewrite Hl in Hcs. injection Hcs as ->.
  rewrite Hi in Hj. injection Hj as ->. by destruct (Hne k n).
Qed.

Ltac step_cases Hstep t ch :=
  destruct t as [?k ?n [] | ?k []]; destruct ch;
  simpl in Hstep; try discriminate;
  repeat case_match; simplify_eq; simpl in *.

(** The moving thread either leaves the shared state alone, or takes
    the free lock, or holds the lock. *)
Lemma thread_step_locked i ch t sh t' sh' :
  thread_step i ch t sh = Some (t', sh') ->
  thread_ok i sh t ->
  sh' = sh \/ lock sh = None \/ lock sh = Some i.
Proof.
  intros Hstep [Hcs _]. step_cases Hstep t ch; auto.
Qed.

Lemma thread_step_self i ch t sh t' sh' ts :
  thread_step i ch t sh = Some (t', sh') ->
  ts !! i = Some t ->
  (forall j tj, ts !! j = Some tj -> thread_ok j sh tj) ->
  (forall k s, store sh !! k = Some s -> slot_ok ts k s) ->
  thread_ok i sh' t'.
Proof.
  intros Hstep Hi Hts Hsl.
  pose proof (Hts _ _ Hi) as [Hcs Hok].
  step_cases Hstep t ch; try specialize (Hcs eq_refl);
    (split; [simpl; intros; try done; try congruence|]); simpl; try done.
  - (* data assigned *)
    eexists. rewrite lookup_insert_eq. split; reflexivity.
  - (* data read *)
    eauto.
  - (* updated read *)
    destruct Hok as (s0 & Hs0 & Hd & Hdb). simplify_eq.
    split; [|eauto].
    eapply slot_consistent_for_holder; eauto; congruence.
  - (* length read *)
    destruct Hok as (-> & s0 & Hs0 & Hd). simplify_eq.
    split; reflexivity.
Qed.

Lemma thread_step_slots i ch t sh t' sh' ts :
  thread_step i ch t sh = Some (t', sh') ->
  ts !! i = Some t ->
  thread_ok i sh t ->
  (forall k s, store sh !! k = Some s -> slot_ok ts k s) ->
  forall k s, store sh' !! k = Some s -> slot_ok (<[i := t']> ts) k s.
Proof.
  intros Hstep Hi [Hcs Hok] Hsl k' s' Hk'.
  assert (Hlt : (i < length ts)%nat) by (by eapply lookup_lt_Some).
  step_cases Hstep t ch;
    try (eapply slot_ok_insert; eauto; congruence).
  - (* data assigned: the writer now stands between the assignments *)
    destruct (decide (k = k')) as [->|Hne].
    + right. exists i, n. by rewrite list_lookup_insert_eq.
    + rewrite lookup_insert_ne in Hk' by done.
      eapply slot_ok_insert; eauto; congruence.
  - (* timestamp assigned: both fields are of this cycle *)
    destruct Hok as (s0 & Hs0 & Hby). simplify_eq.
    destruct (decide (k = k')) as [->|Hne].
    + rewrite lookup_insert_eq in Hk'. simplify_eq.
      left. unfold consistent. simpl. by rewrite Hby.
    + rewrite lookup_insert_ne in Hk' by done.
      eapply slot_ok_insert; eauto; congruence.
Qed.

Lemma step_inv σ σ' : inv σ -> step σ σ' -> inv σ'.
Proof.
  intros [Hts Hsl] Hstep.
  destruct Hstep as [i ch t t' sh' σ Hi Hst | k σ]; split; simpl.
  - intros j tj Hj.
    assert (Hlt : (i < length (threads σ))%nat) by (by eapply lookup_lt_Some).
    destruct (decide (i = j)) as [<-|Hne].
    + rewrite list_lookup_insert_eq in Hj by done. simplify_eq.
      eapply thread_step_self; eauto.
    + rewrite list_lookup_insert_ne in Hj by done.
      apply (others_kept i j (shared σ) sh' tj);
        [eapply thread_step_locked; eauto | congruence | auto].
  - eapply thread_step_slots; eauto.
  - intros j tj Hj. apply lookup_app_Some in Hj as [Hj|[Hlen Hj]]; [auto|].
    apply list_lookup_singleton_Some in Hj as [_ <-].
    split; simpl; [discriminate | trivial].
  - intros k' s Hk'. destruct (Hsl _ _ Hk') as [Hc|(j & n & Hj)]; [by left|].
    right. exists j, n. by apply lookup_app_l_Some.
Qed.

Lemma reachable_inv σ : reachable σ -> inv σ.
Proof.
  intros (σ0 & H0 & Hsteps). apply initial_inv in H0.
  induction Hsteps as [|x y z Hxy _ IH]; [assumption|].
  apply IH. by eapply step_inv.
Qed.

(** C9. Whatever the interleaving of writers and request handlers, a
    handler that has answered has read data and timestamp stored by one
    and the same cycle (or both from the initial cache), and its count
    is the length of that data. *)
Theorem snapshot_never_torn σ i k r :
  reachable σ ->
  threads σ !! i = Some (Reader k (RDone r)) ->
  s_data_by r = s_updated_by r /\ s_count r = length (s_data r).
Proof.
  intros Hr Hi. destruct (reachable_inv _ Hr) as [Hts _].
  destruct (Hts _ _ Hi) as [_ Hok]. exact Hok.
Qed.

Lemma run_steps sched : forall σ σ',
  run sched σ = Some σ' -> rtc step σ σ'.
Proof.
  induction sched as [|[i ch] rest IH]; intros σ σ' H; simpl in H.
  - injection H as <-. constructor.
  - destruct (threads σ !! i) as [t|] eqn:Hi; [|discriminate].
    destruct (thread_step i ch t (shared σ)) as [[t' sh']|] eqn:Hs;
      [|discriminate].
    eapply rtc_l; [|by apply IH]. by eapply step_thread.
Qed.

(** A turn whose fetch fails changes nothing in the shared state. *)
Lemma writer_failed_turn i k n out sh :
  (exists e, out = Raised e) \/ out = Returned None ->
  thread_step i (Fetch out) (Writer k n WFetch) sh
  = Some (Writer k n WSleep, sh) /\
  thread_step i Tau (Writer k n WSleep) sh
  = Some (Writer k (S n) WFetch, sh).
Proof. intros [[e ->]| ->]; split; reflexivity. Qed.

(** X25. A turn whose fetch returns a list, run without interruption, does
    to
    the entries what [refresh_cycle] does. *)
Lemma writer_turn_is_refresh_cycle k n d now sh s :
  lock sh = None -> store sh !! k = Some s ->
  exists σ',
    run [(0%nat, Fetch (Returned (Some d))); (0%nat, Tau); (0%nat, Tau);
         (0%nat, Clock now); (0%nat, Tau); (0%nat, Tau)]
        {| shared := sh; threads := [Writer k n WFetch] |} = Some σ' /\
    entry <$> store (shared σ')
    = refresh_cycle k (Returned (Some d)) now (entry <$> store sh) /\
    lock (shared σ') = None /\
    threads σ' = [Writer k (S n) WFetch].
Proof.
  intros Hl Hk. eexists. split.
  - cbn. rewrite Hl. cbn. rewrite Hk. cbn. rewrite lookup_insert_eq. cbn.
    reflexivity.
  - cbn. split; [|split; reflexivity].
    unfold refresh_cycle. rewrite lookup_fmap, Hk. cbn.
    by rewrite insert_insert_eq, fmap_insert.
Qed.

End ThreadFacts.

(** While the writer stands between its two assignments, the handler
    cannot enter its [with] block. *)
Lemma reader_waits :
  Threads.run (take 3 sample_schedule ++ [(1%nat, Threads.Tau)]) sample_server
  = None.
Proof. vm_compute. reflexivity. Qed.

Lemma snapshot_never_torn_witness :
  exists σ r,
    Threads.run sample_schedule sample_server = Some σ /\
    Threads.threads σ !! 1%nat
    = Some (Threads.Reader "headlines" (Threads.RDone r)) /\
    Threads.s_data_by r = Threads.s_updated_by r /\
    Threads.s_count r = length (Threads.s_data r) /\
    Threads.s_data r = [IHeadline sample_headline] /\
    Threads.s_data_by r = Some (0%nat, 0%nat).
Proof.
  eexists _, _. split; [vm_compute; reflexivity|].
  split; [reflexivity|].
  match goal with
  | |- Threads.s_data_by ?r = _ /\ _ =>
      assert (Hr : Threads.s_data_by r = Threads.s_updated_by r
                   /\ Threads.s_count r = length (Threads.s_data r))
  end.
  { eapply (ThreadFacts.snapshot_never_torn _ 1%nat "headlines").
    - exists sample_server. split.
      + split; [reflexivity|]. split; [reflexivity|].
        repeat constructor.
      + apply (ThreadFacts.run_steps sample_schedule). vm_compute. reflexivity.
    - reflexivity. }
  destruct Hr as [H1 H2]. split; [exact H1|]. split; [exact H2|].
  split; reflexivity.
Defined.

(** ** Shooting percentage (C7) *)

(** [nearest_even n d] is an integer nearest to [n / d]. *)
Lemma nearest_even_spec n d :
  0 <= n -> 0 < d ->
  2 * Z.abs (n - PyFloat.nearest_even n d * d) <= d.
Proof.
  intros Hn Hd. unfold PyFloat.nearest_even.
  pose proof (Z.div_mod n d ltac:(lia)) as Hdm.
  pose proof (Z.mod_pos_bound n d Hd) as Hr.
  destruct (Z.compare_spec (2 * (n mod d)) d) as [He|Hl|Hg];
    [destruct (Z.even (n / d))| |]; nia.
Qed.

(** What [round(x, 1)] returns for a finite [x] is the float of a
    decimal [k/10], where [k] is an integer nearest to ten times the
    exact value of [x]. *)
Lemma round1_nearest s m e :
  exists k,
    0 <= k /\
    PyFloat.round1 (S754_finite s m e)
    = match k with
      | Zpos p => PyFloat.of_ratio s p 10
      | _ => S754_zero s
      end /\
    (0 <= e -> k = 10 * Zpos m * 2 ^ e) /\
    (e < 0 -> 2 * Z.abs (10 * Zpos m - k * 2 ^ (- e)) <= 2 ^ (- e)).
Proof.
  unfold PyFloat.round1.
  destruct (0 <=? e) eqn:E.
  - exists (10 * Zpos m * 2 ^ e). split; [|split; [reflexivity|split; [auto|lia]]].
    assert (0 < 2 ^ e) by (apply Z.pow_pos_nonneg; lia). nia.
  - exists (PyFloat.nearest_even (10 * Zpos m) (2 ^ (- e))).
    assert (Hp : 0 < 2 ^ (- e)) by (apply Z.pow_pos_nonneg; lia).
    split; [|split; [reflexivity|split; [lia|]]].
    + unfold PyFloat.nearest_even.
      assert (0 <= 10 * Zpos m / 2 ^ (- e)) by (apply Z.div_pos; lia).
      destruct (_ ?= _); [destruct (Z.even _)| |]; lia.
    + intros _. apply nearest_even_spec; lia.
Qed.

Lemma same_float_eq x y : same_float x y = true -> x = y.
Proof.
  destruct x, y; simpl; try discriminate; intros H.
  - by apply Bool.eqb_prop in H as ->.
  - by apply Bool.eqb_prop in H as ->.
  - reflexivity.
  - apply andb_prop in H as [H He]. apply andb_prop in H as [Hs Hm].
    apply Bool.eqb_prop in Hs as ->. apply Pos.eqb_eq in Hm as ->.
    by apply Z.eqb_eq in He as ->.
Qed.

Lemma pct_exact_upto_spec n m a :
  pct_exact_upto n = true ->
  0 <= m <= a -> 0 < a <= Z.of_nat n ->
  pct_exact m a = true.
Proof.
  unfold pct_exact_upto. intros H Hm Ha.
  rewrite forallb_forall in H.
  specialize (H (Z.to_nat a)). rewrite forallb_forall in H.
  specialize (H ltac:(apply in_seq; lia) (Z.to_nat m) ltac:(apply in_seq; lia)).
  by rewrite !Z2Nat.id in H by lia.
Qed.

Lemma pct_exact_200 : pct_exact_upto 200 = true.
Proof. vm_compute. reflexivity. Qed.

(** C7. With no attempt the percentage is 0.0. With [0 < attempted]
    it is [made / attempted * 100] rounded to one decimal, in Python's
    float arithmetic: the correctly rounded quotient, times 100, brought
    to the nearest tenth. For [0 <= made <= attempted <= 200] this is
    the float of a tenth nearest to the exact [100 * made / attempted]. *)
Theorem pct_rounds made attempted :
  (py_eq_int attempted 0 = true -> _pct made attempted = Ok (S754_zero false)) /\
  (forall m a,
     made = VInt m -> attempted = VInt a -> 0 < a ->
     _pct made attempted
     = q ← PyFloat.div_int m a;
       Ok (PyFloat.round1
             (SFmul PyFloat.prec PyFloat.emax q (PyFloat.of_Z 100)))) /\
  (forall m a,
     made = VInt m -> attempted = VInt a -> 0 <= m <= a -> 0 < a <= 200 ->
     exists k,
       2 * Z.abs (1000 * m - k * a) <= a /\
       _pct made attempted = Ok (tenth k)).
Proof.
  split; [|split].
  - intros H. unfold _pct. by rewrite H.
  - intros m a -> -> Ha. unfold _pct.
    replace (py_eq_int (VInt a) 0) with false.
    + simpl. destruct (PyFloat.div_int m a); reflexivity.
    + unfold py_eq_int. simpl. destruct (Z.compare_spec a 0); try lia; reflexivity.
  - intros m a -> -> Hm Ha.
    pose proof (pct_exact_upto_spec 200 m a pct_exact_200 Hm ltac:(lia)) as H.
    unfold pct_exact in H.
    destruct (_pct (VInt m) (VInt a)) as [x|]; [|discriminate].
    destruct (nearest_tenth m a (1000 * m / a)
              && same_float x (tenth (1000 * m / a))) eqn:E;
      [rename E into H0|rename H into H0];
      apply andb_prop in H0 as [Hn Hx];
      apply same_float_eq in Hx; subst x;
      apply Z.leb_le in Hn; eauto.
Qed.

Lemma pct_rounds_witness :
  _pct (VInt 7) (VInt 0) = Ok (S754_zero false) /\
  _pct (VInt 1) (VInt 16) = Ok (tenth 62) /\
  _pct (VInt 13) (VInt 27) = Ok (tenth 481) /\
  exists k, 2 * Z.abs (1000 * 2 - k * 3) <= 3 /\
            _pct (VInt 2) (VInt 3) = Ok (tenth k).
Proof.
  split; [|split; [|split]].
  - apply (proj1 (pct_rounds (VInt 7) (VInt 0))). reflexivity.
  - rewrite (proj1 (proj2 (pct_rounds (VInt 1) (VInt 16))) 1 16 eq_refl eq_refl);
      [vm_compute; reflexivity | lia].
  - rewrite (proj1 (proj2 (pct_rounds (VInt 13) (VInt 27))) 13 27 eq_refl eq_refl);
      [vm_compute; reflexivity | lia].
  - apply (proj2 (proj2 (pct_rounds (VInt 2) (VInt 3))) 2 3 eq_refl eq_refl); lia.
Defined.
(** * Further properties *)

(** ** Strings and decimal digits *)

Module StrLemmas.
Import PyStr StrFacts.

Lemma all_chars_app P a b :
  all_chars P (a +:+ b) = all_chars P a && all_chars P b.
Proof.
  induction a as [|c a IH]; simpl; [reflexivity|].
  by rewrite IH, andb_assoc.
Qed.

Lemma all_chars_impl (P Q : ascii -> bool) s :
  (forall c, P c = true -> Q c = true) ->
  all_chars P s = true -> all_chars Q s = true.
Proof.
  intros HPQ. induction s as [|c s IH]; simpl; [done|].
  intros [Hc Hs]%andb_prop. by rewrite (HPQ _ Hc), IH.
Qed.

Lemma lstrip_head c s : is_space c = false -> lstrip (String c s) = String c s.
Proof. intros H. simpl. by rewrite H. Qed.

Lemma rstrip_no_space s : all_chars not_space s = true -> rstrip s = s.
Proof.
  induction s as [|c s IH]; simpl; [done|].
  intros [Hc Hs]%andb_prop. rewrite (IH Hs).
  unfold not_space in Hc. apply negb_true_iff in Hc. rewrite Hc.
  by destruct s.
Qed.

Lemma app_String c a b : String c a +:+ b = String c (a +:+ b).
Proof. reflexivity. Qed.

Lemma rstrip_app a s :
  rstrip s <> EmptyString -> rstrip (a +:+ s) = a +:+ rstrip s.
Proof.
  intros Hs. induction a as [|c a IH]; [done|].
  rewrite !app_String. cbn [rstrip]. rewrite IH.
  destruct (a +:+ rstrip s) eqn:E; [|done].
  destruct a; [by destruct Hs | discriminate].
Qed.

Lemma strip_no_space s : all_chars not_space s = true -> strip s = s.
Proof.
  intros H. unfold strip.
  destruct s as [|c s]; [done|].
  simpl in H. apply andb_prop in H as [Hc Hs].
  rewrite lstrip_head by (by apply negb_true_iff).
  apply rstrip_no_space. simpl. by rewrite Hc, Hs.
Qed.

Lemma not_space_num c : not_space c = true -> is_num_space c = false.
Proof.
  destruct c as [[] [] [] [] [] [] [] []]; try discriminate; reflexivity.
Qed.

Lemma num_rstrip_no_space s :
  all_chars not_space s = true -> num_rstrip s = s.
Proof.
  induction s as [|c s IH]; simpl; [done|].
  intros [Hc Hs]%andb_prop. rewrite (IH Hs), (not_space_num _ Hc).
  by destruct s.
Qed.

(** What has no white space in it is left whole by the stripping of
    [int] and [float]. *)
Lemma num_strip_no_space s : all_chars not_space s = true -> num_strip s = s.
Proof.
  intros H. unfold num_strip.
  destruct s as [|c s]; [done|].
  pose proof H as H'. simpl in H'. apply andb_prop in H' as [Hc _].
  cbn [num_lstrip]. rewrite (not_space_num _ Hc).
  by apply num_rstrip_no_space.
Qed.

Lemma app_empty_r s : s +:+ EmptyString = s.
Proof. induction s as [|c s IH]; [done|]. by rewrite app_String, IH. Qed.

Lemma rev_app_rev_app w u v :
  String.rev_app (String.rev_app w u) v = String.rev_app u (w +:+ v).
Proof.
  revert u v. induction w as [|c w IH]; intros u v; [done|].
  simpl. by rewrite IH.
Qed.

Lemma all_chars_rev_app P a b :
  all_chars P (String.rev_app a b) = all_chars P a && all_chars P b.
Proof.
  revert b. induction a as [|c a IH]; intros b; simpl; [done|].
  rewrite IH. simpl. rewrite !andb_assoc. f_equal. apply andb_comm.
Qed.

Lemma rev_app_nonempty a b : b <> EmptyString -> String.rev_app a b <> EmptyString.
Proof.
  revert b. induction a as [|c a IH]; intros b Hb; simpl; [done|].
  by apply IH.
Qed.

(** The run of non-space characters [w] goes into the current word. *)
Lemma split_ws_go_run w : forall u s,
  all_chars not_space w = true ->
  split_ws_go (Some u) (w +:+ s) = split_ws_go (Some (String.rev_app w u)) s.
Proof.
  induction w as [|c w IH]; intros u s H; [done|].
  simpl in H. apply andb_prop in H as [Hc Hw].
  apply negb_true_iff in Hc.
  rewrite app_String. cbn [split_ws_go]. rewrite Hc.
  by rewrite IH.
Qed.

Lemma split_ws_go_word c w s :
  word (String c w) ->
  split_ws_go None (String c w +:+ s)
  = split_ws_go (Some (String.rev_app w (String c EmptyString))) s.
Proof.
  intros [_ H]. simpl in H. apply andb_prop in H as [Hc Hw].
  apply negb_true_iff in Hc.
  rewrite app_String. cbn [split_ws_go]. rewrite Hc.
  by apply split_ws_go_run.
Qed.

Lemma rev_rev_app_one w c :
  String.rev (String.rev_app w (String c EmptyString)) = String c w.
Proof.
  unfold String.rev. rewrite rev_app_rev_app. simpl. by rewrite app_empty_r.
Qed.

Lemma split_ws_single w : word w -> split_ws w = [w].
Proof.
  intros Hw. destruct w as [|c w]; [by destruct Hw|].
  unfold split_ws. rewrite <- (app_empty_r (String c w)) at 1.
  rewrite split_ws_go_word by done. simpl. by rewrite rev_rev_app_one.
Qed.

Lemma split_ws_cons w sp s :
  word w -> is_space sp = true ->
  split_ws (w +:+ String sp s) = w :: split_ws s.
Proof.
  intros Hw Hsp. destruct w as [|c w]; [by destruct Hw|].
  unfold split_ws. rewrite split_ws_go_word by done.
  cbn [split_ws_go]. rewrite Hsp. by rewrite rev_rev_app_one.
Qed.

Lemma join_cons p q ps :
  join " " (p :: q :: ps) = p +:+ String " " (join " " (q :: ps)).
Proof. reflexivity. Qed.

(** Words joined by single spaces split back into the same words. *)
Lemma split_ws_join ws :
  Forall word ws -> split_ws (join " " ws) = ws.
Proof.
  induction 1 as [|w ws Hw Hws IH]; [done|].
  destruct ws as [|w' ws]; [by apply split_ws_single|].
  rewrite join_cons, split_ws_cons by done. by rewrite IH.
Qed.

(** [split()] gives words. *)
Lemma split_ws_go_words s : forall cur,
  (forall u, cur = Some u ->
     u <> EmptyString /\ all_chars not_space u = true) ->
  Forall word (split_ws_go cur s).
Proof.
  assert (Hrev : forall u, u <> EmptyString /\ all_chars not_space u = true ->
                  word (String.rev u)).
  { intros u [Hne Hu]. split.
    - unfold String.rev. destruct u as [|c u]; [done|]. simpl.
      by apply rev_app_nonempty.
    - unfold String.rev. by rewrite all_chars_rev_app, Hu. }
  induction s as [|c s IH]; intros cur Hcur; simpl.
  - destruct cur as [u|]; [|constructor].
    constructor; [|constructor]. by apply Hrev, Hcur.
  - destruct (is_space c) eqn:Hc.
    + destruct cur as [u|].
      * constructor; [by apply Hrev, Hcur|]. by apply IH.
      * by apply IH.
    + assert (Hn : not_space c = true) by (unfold not_space; by rewrite Hc).
      destruct cur as [u|]; apply IH; intros v [= <-]; split; try done.
      * simpl. rewrite Hn. by apply (Hcur u).
      * simpl. by rewrite Hn.
Qed.

Lemma split_ws_words s : Forall word (split_ws s).
Proof. apply split_ws_go_words. discriminate. Qed.

Lemma rstrip_join ws :
  ws <> [] -> Forall word ws ->
  rstrip (join " " ws) = join " " ws /\ join " " ws <> EmptyString.
Proof.
  intros Hne Hws. induction Hws as [|w ws Hw Hws IH]; [done|].
  destruct ws as [|w' ws].
  - cbn [join]. split; [apply rstrip_no_space, Hw | apply Hw].
  - destruct IH as [IH1 IH2]; [done|]. rewrite join_cons.
    assert (Hr : rstrip (String " " (join " " (w' :: ws)))
                 = String " " (join " " (w' :: ws))).
    { cbn [rstrip]. rewrite IH1.
      destruct (join " " (w' :: ws)); [done|reflexivity]. }
    split.
    + rewrite rstrip_app; rewrite Hr; done.
    + destruct w; [by destruct Hw|done].
Qed.

Lemma strip_join ws :
  ws <> [] -> Forall word ws -> strip (join " " ws) = join " " ws.
Proof.
  intros Hne Hws. unfold strip.
  destruct (rstrip_join ws Hne Hws) as [Hr _].
  destruct ws as [|[|c w] ws]; [done| |].
  { apply Forall_cons in Hws as [[] _]. done. }
  assert (Hc : is_space c = false).
  { apply Forall_cons in Hws as [[_ H] _]. simpl in H.
    apply andb_prop in H as [H _]. by apply negb_true_iff. }
  assert (Hl : lstrip (join " " (String c w :: ws)) = join " " (String c w :: ws)).
  { destruct ws; [|rewrite join_cons]; cbn [join]; rewrite ?app_String;
      by apply lstrip_head. }
  by rewrite Hl.
Qed.

Lemma split_ws_lstrip s : split_ws (lstrip s) = split_ws s.
Proof.
  unfold split_ws. induction s as [|c s IH]; [done|].
  simpl. destruct (is_space c) eqn:Hc; [done|]. simpl. by rewrite Hc.
Qed.

Lemma split_ws_go_rstrip s : forall cur,
  split_ws_go cur (rstrip s) = split_ws_go cur s.
Proof.
  induction s as [|c s IH]; intros cur; [done|].
  cbn [rstrip]. destruct (rstrip s) as [|c' r] eqn:E.
  - destruct (is_space c) eqn:Hc; cbn [split_ws_go]; rewrite Hc.
    + rewrite <- IH. by destruct cur.
    + destruct cur; by rewrite <- IH.
  - cbn [split_ws_go]. destruct (is_space c), cur; by rewrite <- IH.
Qed.

(** The [strip()] before [split()] changes nothing. *)
Lemma split_ws_strip s : split_ws (strip s) = split_ws s.
Proof.
  unfold strip. unfold split_ws at 1. rewrite split_ws_go_rstrip.
  apply split_ws_lstrip.
Qed.

(** *** Decimal digits *)

Lemma is_digit_char x : is_digit (pretty_N_char x) = true.
Proof. unfold pretty_N_char. by repeat case_match. Qed.

Lemma digit_val_char x : (x < 10)%N -> digit_val (pretty_N_char x) = Z.of_N x.
Proof.
  intros H.
  assert (x = 0 \/ x = 1 \/ x = 2 \/ x = 3 \/ x = 4 \/ x = 5 \/ x = 6
          \/ x = 7 \/ x = 8 \/ x = 9)%N as Hx by lia.
  repeat destruct Hx as [->|Hx]; try subst x; reflexivity.
Qed.

(** Reading the digits that [pretty_N_go x] writes in front of [s]. *)
Lemma digits_go_pretty x : exists k : nat,
  ((0 < x)%N -> (0 < k)%nat) /\
  forall s acc n prev,
    digits_go acc n prev (pretty_N_go x s)
    = digits_go (acc * 10 ^ Z.of_nat k + Z.of_N x) (n + k)
        (if k is O then prev else true) s.
Proof.
  induction (N.lt_wf_0 x) as [x _ IH].
  destruct (decide (x = 0)%N) as [->|Hx].
  - exists O. split; [lia|]. intros s acc n prev.
    rewrite pretty_N_go_0. f_equal; [simpl; lia | lia].
  - destruct (IH (x `div` 10)%N) as (k & Hk & IHk).
    { apply N.div_lt; lia. }
    exists (S k). split; [lia|]. intros s acc n prev.
    rewrite pretty_N_go_step by lia. rewrite IHk.
    cbn [digits_go]. rewrite is_digit_char.
    rewrite digit_val_char by (apply N.mod_lt; lia).
    f_equal; [|lia].
    rewrite Nat2Z.inj_succ, Z.pow_succ_r by lia.
    pose proof (N.div_mod x 10 ltac:(lia)) as Hdm.
    apply (f_equal Z.of_N) in Hdm. rewrite N2Z.inj_add, N2Z.inj_mul in Hdm.
    change (Z.of_N 10) with 10 in Hdm. lia.
Qed.

Lemma digits_pretty_N (x : N) : exists k, digits (pretty x) = Some (Z.of_N x, k).
Proof.
  unfold pretty, pretty_N. case_decide as Hx.
  - subst x. by exists 1%nat.
  - destruct (digits_go_pretty x) as (k & Hk & H).
    exists k. unfold digits. rewrite H.
    destruct k; [lia|]. simpl; f_equal; f_equal; lia.
Qed.

Lemma all_chars_pretty_N_go P x : forall s,
  (forall d, P (pretty_N_char d) = true) ->
  all_chars P s = true -> all_chars P (pretty_N_go x s) = true.
Proof.
  intros s HP. revert s.
  induction (N.lt_wf_0 x) as [x _ IH]. intros s Hs.
  destruct (decide (x = 0)%N) as [->|Hx]; [by rewrite pretty_N_go_0|].
  rewrite pretty_N_go_step by lia. apply IH; [apply N.div_lt; lia|].
  simpl. by rewrite HP, Hs.
Qed.

Lemma all_digits_pretty_N (x : N) : all_chars is_digit (pretty x) = true.
Proof.
  unfold pretty, pretty_N. case_decide; [done|].
  apply all_chars_pretty_N_go; [apply is_digit_char | done].
Qed.

Lemma pretty_N_nonempty (x : N) : pretty x <> EmptyString.
Proof.
  destruct (digits_pretty_N x) as [k H]. intros E. rewrite E in H. done.
Qed.

Lemma digit_not_space c : is_digit c = true -> not_space c = true.
Proof.
  destruct c as [[] [] [] [] [] [] [] []]; try discriminate; reflexivity.
Qed.

Lemma sign_digit c s :
  is_digit c = true -> sign (String c s) = (false, String c s).
Proof.
  destruct c as [[] [] [] [] [] [] [] []]; try discriminate; reflexivity.
Qed.

End StrLemmas.

(** [int(str(z))] is [z]. *)
Lemma int_of_string_pretty (z : Z) : int_of_string (pretty z) = Ok z.
Proof.
  unfold int_of_string.
  assert (Hpos : forall p : positive,
            exists c s, pretty p = String c s /\ PyStr.is_digit c = true /\
              StrFacts.all_chars StrFacts.not_space (pretty p) = true /\
              exists k, PyStr.digits (pretty p) = Some (Zpos p, k)).
  { intros p. unfold pretty, pretty_positive.
    pose proof (StrLemmas.all_digits_pretty_N (Npos p)) as Hd.
    pose proof (StrLemmas.pretty_N_nonempty (Npos p)) as Hne.
    destruct (StrLemmas.digits_pretty_N (Npos p)) as [k Hk].
    destruct (pretty (N.pos p)) as [|c s] eqn:E; [done|].
    exists c, s. split; [done|]. simpl in Hd.
    apply andb_prop in Hd as [Hc Hs]. split; [done|]. split; [|eauto].
    simpl. rewrite (StrLemmas.digit_not_space _ Hc). simpl.
    eapply StrLemmas.all_chars_impl; [apply StrLemmas.digit_not_space|done]. }
  destruct z as [|p|p].
  - reflexivity.
  - destruct (Hpos p) as (c & s & E & Hc & Hsp & k & Hk).
    unfold pretty, pretty_Z. rewrite StrLemmas.num_strip_no_space by done.
    rewrite E, StrLemmas.sign_digit by done. rewrite <- E, Hk. done.
  - destruct (Hpos p) as (c & s & E & Hc & Hsp & k & Hk).
    unfold pretty at 1, pretty_Z.
    rewrite StrLemmas.num_strip_no_space
      by (by rewrite StrLemmas.all_chars_app, Hsp).
    change ("-" +:+ pretty p) with (String "-" (pretty p)).
    cbn [PyStr.sign]. rewrite Hk. done.
Qed.

Module StrLemmas2.
Import PyStr StrFacts StrLemmas.

Lemma all_int_chars_pretty (z : Z) : all_chars int_char (pretty z) = true.
Proof.
  assert (H : forall x : N, all_chars int_char (pretty x) = true).
  { intros x. eapply all_chars_impl; [|apply all_digits_pretty_N].
    intros c Hc. unfold int_char. by rewrite Hc. }
  destruct z as [|p|p]; [done|apply H|].
  change (pretty (Z.neg p)) with ("-" +:+ pretty (Npos p)).
  rewrite all_chars_app. by rewrite (H (Npos p)).
Qed.

Lemma pretty_Z_nonempty (z : Z) : pretty z <> EmptyString.
Proof.
  destruct z as [|p|p]; [done| |done]. apply (pretty_N_nonempty (Npos p)).
Qed.

(** [replace] passes over a prefix that has no first character of
    [old]. *)
Lemma replace_go_skip o old new a b :
  all_chars (fun c => negb (Ascii.eqb c o)) a = true ->
  replace_go (String o old) new 0 (a +:+ b)
  = a +:+ replace_go (String o old) new 0 b.
Proof.
  intros H. induction a as [|c a IH]; [done|].
  simpl in H. apply andb_prop in H as [Hc Ha].
  rewrite !app_String. cbn [replace_go String.prefix].
  destruct (ascii_dec o c) as [->|Hne].
  - by rewrite Ascii.eqb_refl in Hc.
  - by rewrite IH.
Qed.

Lemma replace_skip o old new a b :
  all_chars (fun c => negb (Ascii.eqb c o)) a = true ->
  replace (String o old) new (a +:+ b) = a +:+ replace (String o old) new b.
Proof. apply replace_go_skip. Qed.

Lemma app_app a b c : a +:+ b +:+ c = (a +:+ b) +:+ c.
Proof.
  induction a as [|x a IH]; [done|]. by rewrite !app_String, IH.
Qed.

Lemma contains_app_colon a y : contains ":" (a +:+ String ":" y) = true.
Proof.
  induction a as [|c a IH]; [done|].
  rewrite app_String. cbn [contains]. by destruct (Ascii.eqb ":" c).
Qed.

Lemma split_app_colon a y :
  all_chars (fun c => negb (Ascii.eqb c ":")) a = true ->
  hd EmptyString (split ":" (a +:+ String ":" y)) = a.
Proof.
  induction a as [|c a IH]; intros H.
  - simpl. reflexivity.
  - simpl in H. apply andb_prop in H as [Hc Ha]. apply negb_true_iff in Hc.
    rewrite app_String. cbn [split]. rewrite Hc.
    specialize (IH Ha).
    destruct (split ":" (a +:+ String ":" y)) as [|p ps] eqn:E.
    + simpl in IH. subst a. reflexivity.
    + simpl in *. by subst.
Qed.

Lemma int_char_cases c :
  int_char c = true ->
  negb (Ascii.eqb c "P") = true /\ negb (Ascii.eqb c "M") = true /\
  negb (Ascii.eqb c "S") = true /\ negb (Ascii.eqb c ":") = true /\
  not_space c = true.
Proof.
  destruct c as [[] [] [] [] [] [] [] []]; try discriminate; done.
Qed.

End StrLemmas2.

(** ** Names, plus/minus and minutes *)

(** X1. [_short_name] gives its own results back unchanged. *)
Theorem short_name_idempotent f :
  exists r, _short_name (VStr f) = Ok r /\ _short_name (VStr r) = Ok r.
Proof.
  unfold _short_name.
  pose proof (StrLemmas.split_ws_words (PyStr.strip f)) as Hw.
  destruct (PyStr.split_ws (PyStr.strip f)) as [|[|c w0] [|w1 rest]] eqn:E;
    try (exists f; rewrite E; split; reflexivity).
  eexists. split; [reflexivity|].
  apply Forall_cons in Hw as [[_ Hc] Hrest]. simpl in Hc.
  apply andb_prop in Hc as [Hc _].
  assert (Hws : Forall StrFacts.word (String c "." :: w1 :: rest)).
  { constructor; [|done]. split; [done|]. simpl. by rewrite Hc. }
  change (String c ". " +:+ PyStr.join " " (w1 :: rest))
    with (PyStr.join " " (String c "." :: w1 :: rest)).
  rewrite StrLemmas.strip_join, StrLemmas.split_ws_join by done.
  reflexivity.
Qed.

(** X2. A name of fewer than two words comes back as it is, white space
    included; a name of two words or more gives the initial of the first
    word, a period, and the other words with single spaces between
    them. *)
Theorem short_name_shape f :
  ((length (PyStr.split_ws f) < 2)%nat -> _short_name (VStr f) = Ok f) /\
  (forall c w ws,
     PyStr.split_ws f = String c w :: ws -> ws <> [] ->
     _short_name (VStr f) = Ok (String c ". " +:+ PyStr.join " " ws)).
Proof.
  unfold _short_name. rewrite StrLemmas.split_ws_strip. split.
  - intros Hlen.
    destruct (PyStr.split_ws f) as [|[|c w0] [|w1 rest]]; simpl in Hlen;
      try reflexivity; lia.
  - intros c w ws -> Hne. by destruct ws.
Qed.

Lemma short_name_shape_witness :
  _short_name (VStr "  Nene ") = Ok "  Nene " /\
  _short_name (VStr " Shai  Gilgeous-Alexander Jr. ")
  = Ok "S. Gilgeous-Alexander Jr.".
Proof.
  split.
  - apply (proj1 (short_name_shape "  Nene ")). vm_compute. lia.
  - apply (proj2 (short_name_shape " Shai  Gilgeous-Alexander Jr. ")
             "S"%char "hai" ["Gilgeous-Alexander"; "Jr."]); [reflexivity|done].
Defined.

Section MoreNormaliserFacts.

Variable repr_other : pyval -> string.

(** X3. The text that [_format_pm] gives for an int reads back, with
    [int], as that int; it carries a plus sign exactly for a positive
    value and is "0" for zero. *)
Theorem format_pm_int n :
  exists s,
    _format_pm repr_other (VInt n) = Ok s /\
    int_of_string s = Ok n /\
    s = (if 0 <? n then "+" +:+ pretty n else pretty n).
Proof.
  unfold _format_pm. simpl.
  destruct (Z.compare_spec n 0) as [->|H|H]; simpl.
  - exists "0". repeat split; reflexivity.
  - exists (pretty n). replace (0 <? n) with false by lia.
    split; [done|]. split; [apply int_of_string_pretty | done].
  - exists ("+" +:+ pretty n). replace (0 <? n) with true by lia.
    split; [done|]. split; [|done].
    pose proof (int_of_string_pretty n) as Hn.
    destruct n as [|p|p]; try lia.
    unfold int_of_string in *.
    assert (Hsp : StrFacts.all_chars StrFacts.not_space (pretty (Zpos p)) = true).
    { unfold pretty, pretty_Z, pretty, pretty_positive.
      eapply StrLemmas.all_chars_impl;
        [apply StrLemmas.digit_not_space | apply StrLemmas.all_digits_pretty_N]. }
    rewrite StrLemmas.num_strip_no_space in Hn by done.
    rewrite StrLemmas.num_strip_no_space
      by (by rewrite StrLemmas.all_chars_app, Hsp).
    change ("+" +:+ pretty (Z.pos p)) with (String "+" (pretty (Z.pos p))).
    cbn [PyStr.sign].
    destruct (PyStr.sign (pretty (Z.pos p))) as [neg body] eqn:Es.
    assert (neg = false /\ body = pretty (Z.pos p)) as [-> ->].
    { unfold pretty, pretty_Z, pretty, pretty_positive in *.
      pose proof (StrLemmas.all_digits_pretty_N (Npos p)) as Hd.
      pose proof (StrLemmas.pretty_N_nonempty (Npos p)) as Hne.
      destruct (pretty (N.pos p)) as [|c s]; [done|].
      simpl in Hd. apply andb_prop in Hd as [Hd _].
      rewrite StrLemmas.sign_digit in Es by done. by injection Es. }
    exact Hn.
Qed.

End MoreNormaliserFacts.

Section MinutesFacts.

Variable repr_other : pyval -> string.

(** X4. [_parse_minutes] raises on a float that is not finite, and on
    nothing else. *)
Theorem parse_minutes_raises_iff val :
  (exists e, _parse_minutes repr_other val = Raise e) <->
  (exists x, val = VFloat x /\ PyFloat.is_finite x = false).
Proof.
  split.
  - intros [e H]. destruct val; simpl in H; try discriminate.
    exists x. split; [done|]. by destruct x.
  - intros (x & -> & Hx). destruct x; try discriminate; simpl; eauto.
Qed.

(** X5. A text "minutes:rest" gives the minutes, whatever follows the
    colon. *)
Theorem parse_minutes_colon (m : Z) (rest : string) :
  _parse_minutes repr_other (VStr (pretty m +:+ ":" +:+ rest)) = Ok m.
Proof.
  unfold _parse_minutes. cbn [py_str].
  pose proof (StrLemmas2.all_int_chars_pretty m) as Ha.
  pose proof (StrLemmas2.pretty_Z_nonempty m) as Hne.
  pose proof (int_of_string_pretty m) as Hint.
  set (a := pretty m) in *.
  assert (HA : forall o, StrFacts.int_char o = false -> o <> ":"%char ->
            StrFacts.all_chars (fun c => negb (Ascii.eqb c o))
              (a +:+ ":") = true).
  { intros o Ho Hc. rewrite StrLemmas.all_chars_app. apply andb_true_intro.
    split.
    - eapply StrLemmas.all_chars_impl; [|exact Ha].
      intros c Hic. apply negb_true_iff, Ascii.eqb_neq. congruence.
    - cbn [StrFacts.all_chars]. rewrite andb_true_r.
      apply negb_true_iff, Ascii.eqb_neq. congruence. }
  assert (Hassoc : forall y, a +:+ ":" +:+ y = (a +:+ ":") +:+ y).
  { intros y. apply StrLemmas2.app_app. }
  rewrite Hassoc.
  rewrite (StrLemmas2.replace_skip "P" "T") by (by apply HA).
  rewrite (StrLemmas2.replace_skip "M" EmptyString) by (by apply HA).
  rewrite (StrLemmas2.replace_skip "S" EmptyString) by (by apply HA).
  rewrite <- Hassoc.
  set (y := PyStr.replace "S" _ _).
  assert (Hstrip : PyStr.strip (a +:+ ":" +:+ y)
                   = a +:+ String ":" (PyStr.rstrip y)).
  { unfold PyStr.strip.
    assert (Hl : PyStr.lstrip (a +:+ ":" +:+ y) = a +:+ ":" +:+ y).
    { destruct a as [|c a']; [done|]. simpl in Ha.
      apply andb_prop in Ha as [Hc _].
      apply StrLemmas2.int_char_cases in Hc as (_ & _ & _ & _ & Hc).
      rewrite StrLemmas.app_String. apply StrLemmas.lstrip_head.
      by apply negb_true_iff. }
    rewrite Hl.
    assert (Hr : PyStr.rstrip (":" +:+ y) = String ":" (PyStr.rstrip y)).
    { change (":" +:+ y) with (String ":" y). cbn [PyStr.rstrip].
      by destruct (PyStr.rstrip y). }
    rewrite StrLemmas.rstrip_app; by rewrite Hr. }
  rewrite Hstrip, StrLemmas2.contains_app_colon, StrLemmas2.split_app_colon.
  - by rewrite Hint.
  - eapply StrLemmas.all_chars_impl; [|exact Ha].
    intros c Hc. by apply StrLemmas2.int_char_cases in Hc as (_ & _ & _ & ? & _).
Qed.

End MinutesFacts.

(** ** The clock of a game *)

Lemma live_clock_nonempty raw : live_clock raw <> EmptyString.
Proof.
  unfold live_clock, clock_parse.
  destruct (nonempty (clock_str raw)) eqn:Hne; [|done].
  destruct (clock_fields (clock_str raw)) as [[m s]|e]; simpl.
  - by destruct (pretty m).
  - unfold nonempty in Hne. apply negb_true_iff, String.eqb_neq in Hne. done.
Qed.

Section ClockFacts.

Variable repr_other : pyval -> string.

(** X6. A normalised game has an empty clock exactly when it is not live:
    a live game always shows some clock text. *)
Theorem clock_empty_iff_not_live g game :
  game_of repr_other g = Ok game ->
  (clock game = EmptyString <-> status game <> "live").
Proof.
  unfold game_of. intros H. inv_res. subst game. simpl.
  match goal with
  | Hs : game_status _ _ = Ok _ |- _ =>
      apply game_status_cases in Hs
        as (code & text & per & _ & _ & _ & Hcases)
  end.
  destruct Hcases as [(_ & -> & _ & ->)
                     |[(_ & _ & -> & _ & raw & _ & ->)
                      |(_ & _ & -> & _ & ->)]].
  - split; [discriminate | reflexivity].
  - split; [intros H'; by apply live_clock_nonempty in H' | done].
  - split; [discriminate | reflexivity].
Qed.

End ClockFacts.

Lemma clock_empty_iff_not_live_witness :
  exists game,
    game_of plain_repr sample_live_game = Ok game /\
    (clock game = EmptyString <-> status game <> "live").
Proof.
  eexists. split; [vm_compute; reflexivity|].
  apply (clock_empty_iff_not_live plain_repr sample_live_game).
  vm_compute. reflexivity.
Defined.

(** ** Headline selector: more facts *)

Lemma filter_sublist {A} (f : A -> bool) l : List.filter f l `sublist_of` l.
Proof.
  induction l as [|x l IH]; simpl; [constructor|].
  destruct (f x); by constructor.
Qed.

Lemma py_slice_to_sublist {A} n (l : list A) : py_slice_to n l `sublist_of` l.
Proof. unfold py_slice_to. case_match; apply sublist_take. Qed.

Lemma headline_link_imap l :
  headline_link <$> imap headline_at l = candidate_link <$> l.
Proof.
  rewrite fmap_imap. unfold compose. simpl.
  rewrite <- (imap_const candidate_link). by apply imap_ext.
Qed.

(** X7. The selector answers [None] exactly when the page could not be had.
    Otherwise the texts and links it gives are those of some of the
    candidates, in the order of the page: nothing is invented,
    repeated or moved. *)
Theorem headlines_from_page max page :
  match fetch_headlines max page with
  | Some hs =>
      exists cands, page = Ok cands /\
        headline_link <$> hs `sublist_of` candidate_link <$> cands
  | None => exists e, page = Raise e
  end.
Proof.
  destruct page as [cands|e]; simpl; [|eauto].
  exists cands. split; [done|].
  rewrite headlines_loop_spec. simpl.
  rewrite (imap_ext _ headline_at) by done.
  rewrite headline_link_imap. apply fmap_sublist.
  etransitivity; [apply filter_sublist | apply py_slice_to_sublist].
Qed.

(** X8. A configured maximum below zero does not empty the ticker: as a
    slice bound it counts from the end, so the selector looks at all
    candidates but the last [- max]. *)
Theorem headlines_negative_max max (cands : list Candidate) :
  max < 0 ->
  fetch_headlines max (Ok cands)
  = fetch_headlines (Z.max 0 (Z.of_nat (length cands) + max)) (Ok cands) /\
  fetch_headlines max (Ok cands)
  = Some (imap headline_at
            (List.filter long_text
               (take (length cands - Z.to_nat (- max)) cands))).
Proof.
  intros Hmax.
  assert (Hs : py_slice_to max cands
               = take (length cands - Z.to_nat (- max)) cands).
  { unfold py_slice_to. by replace (0 <=? max) with false by lia. }
  split.
  - simpl. f_equal. f_equal. rewrite Hs. unfold py_slice_to.
    replace (0 <=? _) with true by lia. f_equal. lia.
  - simpl. rewrite Hs, headlines_loop_spec. simpl. f_equal;
      by apply imap_ext.
Qed.

Lemma headlines_negative_max_witness :
  fetch_headlines (-1)
    (Ok [ {| c_text := "A first headline of some length"; c_href := "/a" |};
          {| c_text := "A second headline of some length"; c_href := "/b" |} ])
  = Some [ {| h_t := "A first headline of some length"; h_b := "new";
              h_url := "/a" |} ].
Proof.
  rewrite (proj2 (headlines_negative_max (-1)
    [ {| c_text := "A first headline of some length"; c_href := "/a" |};
      {| c_text := "A second headline of some length"; c_href := "/b" |} ]
    ltac:(lia))).
  reflexivity.
Defined.

(** ** One turn of the headlines thread *)

(** X9. A page that could not be had leaves the cache as it is.  A page
    that was read replaces the headlines, also when none of its anchors
    is long enough: the ticker is then empty, stamped with the time of
    the turn, and the count of a read is the number of long texts among
    the candidates looked at. *)
Theorem headlines_turn max now (c : gmap string CacheEntry) e :
  c !! "headlines" = Some e ->
  (forall x,
     refresh_cycle "headlines" (headlines_fetched max (Raise x)) now c = c) /\
  (forall cands,
     read_snapshot "headlines"
       (refresh_cycle "headlines" (headlines_fetched max (Ok cands)) now c)
     = Ok {| r_data := IHeadline <$>
                         imap headline_at
                           (List.filter long_text (py_slice_to max cands));
             r_updated := NFloat now;
             r_count := length (List.filter long_text
                                  (py_slice_to max cands)) |}).
Proof.
  intros He. split; [done|]. intros cands.
  unfold headlines_fetched, read_snapshot. simpl. rewrite He.
  rewrite lookup_insert_eq. simpl.
  rewrite headlines_loop_spec. simpl.
  rewrite (imap_ext _ headline_at) by done.
  by rewrite length_fmap, length_imap.
Qed.

Lemma headlines_turn_witness :
  api_headlines
    (refresh_cycle "headlines"
       (headlines_fetched 10 (Ok [ {| c_text := "Short"; c_href := "/a" |} ]))
       (PyFloat.of_Z 1700000000) cache)
  = Ok {| r_data := []; r_updated := NFloat (PyFloat.of_Z 1700000000);
          r_count := 0 |}.
Proof.
  apply (proj2 (headlines_turn 10 (PyFloat.of_Z 1700000000) cache
                  {| data := []; updated := NInt 0 |} eq_refl)
           [ {| c_text := "Short"; c_href := "/a" |} ]).
Defined.

(** ** The cache over many turns *)

Lemma refresh_loop_lookup key turns : forall (c : gmap string CacheEntry) e,
  c !! key = Some e ->
  refresh_loop key turns c !! key = Some (entry_after e turns).
Proof.
  unfold entry_after.
  induction turns as [|[out now] rest IH]; intros c e He; [done|].
  cbn [refresh_loop last_success].
  destruct out as [x|[d|]].
  - rewrite refresh_cycle_failed by eauto.
    rewrite (IH c e He). by destruct (last_success rest) as [[]|].
  - rewrite (IH _ {| data := d; updated := NFloat now |}).
    + by destruct (last_success rest) as [[]|].
    + unfold refresh_cycle. rewrite He. apply lookup_insert_eq.
  - rewrite refresh_cycle_failed by eauto.
    rewrite (IH c e He). by destruct (last_success rest) as [[]|].
Qed.

(** X10. After any number of turns the entry of the key holds the list and the
    time of the last turn whose fetch gave a list, and is the entry of
    the start if there was none; a read answers with exactly that. *)
Theorem refresh_loop_entry key turns (c : gmap string CacheEntry) e :
  c !! key = Some e ->
  refresh_loop key turns c !! key = Some (entry_after e turns) /\
  read_snapshot key (refresh_loop key turns c)
  = Ok {| r_data := data (entry_after e turns);
          r_updated := updated (entry_after e turns);
          r_count := length (data (entry_after e turns)) |}.
Proof.
  intros He. pose proof (refresh_loop_lookup key turns c e He) as H.
  split; [exact H|]. unfold read_snapshot. by rewrite H.
Qed.

Lemma refresh_loop_entry_witness :
  api_headlines
    (refresh_loop "headlines"
       [(Returned (Some [IHeadline sample_headline]), PyFloat.of_Z 1700000000);
        (Raised ValueError, PyFloat.of_Z 1700000120);
        (Returned None, PyFloat.of_Z 1700000240)]
       cache)
  = Ok {| r_data := [IHeadline sample_headline];
          r_updated := NFloat (PyFloat.of_Z 1700000000);
          r_count := 1 |}.
Proof.
  apply (proj2 (refresh_loop_entry "headlines"
    [(Returned (Some [IHeadline sample_headline]), PyFloat.of_Z 1700000000);
     (Raised ValueError, PyFloat.of_Z 1700000120);
     (Returned None, PyFloat.of_Z 1700000240)]
    cache {| data := []; updated := NInt 0 |} eq_refl)).
Defined.

Lemma refresh_cycle_other key key' out now (c : gmap string CacheEntry) :
  key' <> key -> refresh_cycle key out now c !! key' = c !! key'.
Proof.
  intros Hne. unfold refresh_cycle.
  destruct out as [|[|]]; try done.
  destruct (c !! key); [|done]. by rewrite lookup_insert_ne.
Qed.

Lemma refresh_cycle_dom key out now (c : gmap string CacheEntry) :
  dom (refresh_cycle key out now c) = dom c.
Proof.
  unfold refresh_cycle. destruct out as [|[|]]; try done.
  destruct (c !! key) eqn:E; [|done].
  rewrite dom_insert_L. apply subseteq_union_1_L, singleton_subseteq_l.
  by apply elem_of_dom_2 in E.
Qed.

Lemma refresh_loop_other key key' turns : forall c : gmap string CacheEntry,
  key' <> key -> refresh_loop key turns c !! key' = c !! key'.
Proof.
  induction turns as [|[out now] rest IH]; intros c Hne; [done|].
  cbn [refresh_loop]. rewrite IH by done. by apply refresh_cycle_other.
Qed.

(** X11. A refresh loop never touches the entry of another key, never adds
    or removes a key, and does nothing at all when its own key is not
    in the cache. *)
Theorem refresh_loop_frame key turns (c : gmap string CacheEntry) :
  (forall key', key' <> key -> refresh_loop key turns c !! key' = c !! key') /\
  dom (refresh_loop key turns c) = dom c /\
  (c !! key = None -> refresh_loop key turns c = c).
Proof.
  split; [intros key' Hne; by apply refresh_loop_other|].
  revert c. induction turns as [|[out now] rest IH]; intros c; [done|].
  cbn [refresh_loop]. destruct (IH (refresh_cycle key out now c)) as (H2 & H3).
  split.
  - rewrite H2. apply refresh_cycle_dom.
  - intros Hk.
    assert (Hc : refresh_cycle key out now c = c).
    { unfold refresh_cycle. destruct out as [|[|]]; try done. by rewrite Hk. }
    rewrite Hc in H3 |- *. by apply H3.
Qed.

Lemma refresh_loop_frame_witness :
  refresh_loop "headlines" sample_turns cache !! "games" = cache !! "games" /\
  refresh_loop "scores" sample_turns cache = cache.
Proof.
  split.
  - apply (proj1 (refresh_loop_frame "headlines" sample_turns cache)).
    discriminate.
  - apply (proj2 (proj2 (refresh_loop_frame "scores" sample_turns cache))).
    reflexivity.
Defined.

(** ** The games of a feed *)

Lemma mapM_Raise {A B} (f : A -> res B) (l : list A) e :
  mapM f l = Raise e -> Exists (fun x => exists e', f x = Raise e') l.
Proof.
  induction l as [|x l IH]; simpl; [discriminate|].
  destruct (f x) as [y|e'] eqn:Hx; simpl; [|intros _; left; eauto].
  destruct (mapM f l) as [ys|e'']; simpl; [discriminate|].
  intros H. right. by apply IH.
Qed.

Lemma mapM_Forall2_Ok {A B} (f : A -> res B) (l : list A) ys :
  Forall2 (fun x y => f x = Ok y) l ys -> mapM f l = Ok ys.
Proof.
  induction 1 as [|x y l ys Hx _ IH]; simpl; [done|].
  rewrite Hx. simpl. by rewrite IH.
Qed.

Section FeedFacts.

Variable repr_other : pyval -> string.

(** X12. The games of a feed are normalised all or none: the result has one
    entry per game record, in the order of the feed, and is [None] as
    soon as one record fails. *)
Theorem fetch_games_all_or_nothing (d sb : gmap string pyval) gs :
  d !! "scoreboard" = Some (VDict sb) ->
  sb !! "games" = Some (VList gs) ->
  match fetch_games repr_other (Ok (VDict d)) with
  | Some result => Forall2 (fun g x => game_of repr_other g = Ok x) gs result
  | None => Exists (fun g => exists e, game_of repr_other g = Raise e) gs
  end.
Proof.
  intros Hd Hsb. unfold fetch_games. simpl. rewrite Hd. simpl.
  rewrite Hsb. simpl.
  destruct (mapM (game_of repr_other) gs) as [result|e] eqn:E.
  - by apply mapM_Forall2.
  - by eapply mapM_Raise.
Qed.

(** X13. A feed without its "scoreboard", or a scoreboard without its
    "games", is a day without games: the result is the empty list, not
    [None].  [None] is for a feed that could not be had. *)
Theorem fetch_games_missing_keys (d : gmap string pyval) :
  (d !! "scoreboard" = None -> fetch_games repr_other (Ok (VDict d)) = Some []) /\
  (forall sb, d !! "scoreboard" = Some (VDict sb) -> sb !! "games" = None ->
     fetch_games repr_other (Ok (VDict d)) = Some []) /\
  (forall e, fetch_games repr_other (Raise e) = None).
Proof.
  unfold fetch_games. split; [|split].
  - intros H. simpl. rewrite H. reflexivity.
  - intros sb H Hsb. simpl. rewrite H. simpl. rewrite Hsb. reflexivity.
  - reflexivity.
Qed.

(** X14. One turn of the games thread on a feed.  When one game
    record of the feed fails to normalise, the cache is left as it is:
    none of the other games of that feed is published.  When every
    record normalises, a read of "games" gives the normalised games in
    the order of the feed, the time of the turn, and as count the number
    of game records of the feed. *)
Theorem games_turn (d sb : gmap string pyval) gs now
    (c : gmap string CacheEntry) e :
  d !! "scoreboard" = Some (VDict sb) ->
  sb !! "games" = Some (VList gs) ->
  c !! "games" = Some e ->
  (Exists (fun g => exists x, game_of repr_other g = Raise x) gs ->
   refresh_cycle "games" (games_fetched repr_other (Ok (VDict d))) now c
   = c) /\
  (forall result,
     Forall2 (fun g x => game_of repr_other g = Ok x) gs result ->
     read_snapshot "games"
       (refresh_cycle "games" (games_fetched repr_other (Ok (VDict d)))
          now c)
     = Ok {| r_data := IGame <$> result; r_updated := NFloat now;
             r_count := length gs |}).
Proof.
  intros Hd Hsb He.
  assert (Hf : fetch_games repr_other (Ok (VDict d))
               = match mapM (game_of repr_other) gs with
                 | Ok result => Some result
                 | Raise _ => None
                 end).
  { unfold fetch_games. simpl. rewrite Hd. simpl. by rewrite Hsb. }
  unfold games_fetched. rewrite Hf. split.
  - intros Hex.
    destruct (mapM (game_of repr_other) gs) as [result|x] eqn:E; [|done].
    exfalso. apply mapM_Forall2 in E. clear -E Hex.
    induction E as [|g y gs ys Hg _ IH]; inversion Hex as [? ? [x Hx]|]; subst.
    + congruence.
    + by apply IH.
  - intros result Hall.
    rewrite (mapM_Forall2_Ok _ _ _ Hall). unfold read_snapshot. simpl.
    rewrite He, lookup_insert_eq. simpl.
    by rewrite length_fmap, <- (Forall2_length _ _ _ Hall).
Qed.

End FeedFacts.

Lemma fetch_games_all_or_nothing_witness :
  exists x,
    fetch_games plain_repr
      (Ok (dict [("scoreboard", dict [("games", VList [sample_game])])]))
    = Some [x] /\ game_of plain_repr sample_game = Ok x.
Proof.
  pose proof (fetch_games_all_or_nothing plain_repr
    (list_to_map [("scoreboard", dict [("games", VList [sample_game])])])
    (list_to_map [("games", VList [sample_game])]) [sample_game]
    eq_refl eq_refl) as H.
  change (VDict (list_to_map [("scoreboard", dict [("games", VList [sample_game])])]))
    with (dict [("scoreboard", dict [("games", VList [sample_game])])]) in H.
  destruct (fetch_games plain_repr
      (Ok (dict [("scoreboard", dict [("games", VList [sample_game])])])))
    as [result|] eqn:E.
  - inversion H as [|g x l l' Hx Hl]; subst. inversion Hl; subst.
    exists x. split; [reflexivity | exact Hx].
  - exfalso. vm_compute in E. discriminate E.
Defined.

Lemma fetch_games_missing_keys_witness :
  fetch_games plain_repr (Ok (dict [])) = Some [] /\
  fetch_games plain_repr (Ok (dict [("scoreboard", dict [])])) = Some [].
Proof.
  split.
  - apply (proj1 (fetch_games_missing_keys plain_repr ∅)). reflexivity.
  - apply (proj1 (proj2 (fetch_games_missing_keys plain_repr
             (list_to_map [("scoreboard", dict [])]))) ∅); reflexivity.
Defined.

Lemma games_turn_witness :
  refresh_cycle "games"
    (games_fetched plain_repr
       (Ok (dict [("scoreboard",
                   dict [("games", VList [sample_game; VInt 0])])])))
    (PyFloat.of_Z 1700000000) cache
  = cache.
Proof.
  destruct (games_turn plain_repr
    (list_to_map [("scoreboard",
                   dict [("games", VList [sample_game; VInt 0])])])
    (list_to_map [("games", VList [sample_game; VInt 0])])
    [sample_game; VInt 0] (PyFloat.of_Z 1700000000) cache
    {| data := []; updated := NInt 0 |}) as [H _];
    [vm_compute; reflexivity..|].
  apply H. right. left. exists AttributeError. reflexivity.
Defined.

(** ** Health check *)

Lemma last_success_In turns d t :
  last_success turns = Some (d, t) -> exists out, In (out, t) turns.
Proof.
  induction turns as [|[out now] rest IH]; [done|].
  cbn [last_success]. destruct (last_success rest) as [[d' t']|].
  - intros [= -> ->]. destruct (IH eq_refl) as [o Ho]. exists o. by right.
  - destruct out as [|[d'|]]; try done.
    intros [= -> ->]. eexists. by left.
Qed.

Lemma age_sec_entry now key (c : gmap string CacheEntry) turns r :
  c !! key = Some {| data := []; updated := NInt 0 |} ->
  forallb nonzero_time turns = true ->
  age_sec now key (refresh_loop key turns c) = Ok r ->
  r = age_of now (last_success turns).
Proof.
  intros Hc Hnz. unfold age_sec.
  rewrite (refresh_loop_lookup key turns c _ Hc).
  unfold entry_after, age_of.
  destruct (last_success turns) as [[d t]|] eqn:El; simpl.
  - destruct (last_success_In _ _ _ El) as [out Hin].
    rewrite forallb_forall in Hnz. specialize (Hnz _ Hin).
    unfold nonzero_time in Hnz. simpl in Hnz. rewrite Hnz.
    destruct (py_round _); simpl; [|discriminate]. by intros [= <-].
  - by intros [= <-].
Qed.

(** X26. The health check of a running server: the status is "ok", the
    uptime is the rounded time since the start, and the age of a key is
    absent until the first turn of its thread whose fetch gave a list,
    then the rounded time since the last such turn.  Turns that fail do
    not reset an age. *)
Theorem health_report start now turns_g turns_h h :
  forallb nonzero_time turns_g = true ->
  forallb nonzero_time turns_h = true ->
  api_health start now
    (refresh_loop "games" turns_g (refresh_loop "headlines" turns_h cache))
  = Ok h ->
  hl_status h = "ok" /\
  py_round (SFsub PyFloat.prec PyFloat.emax now start) = Ok (uptime_sec h) /\
  games_age_sec h = age_of now (last_success turns_g) /\
  headlines_age_sec h = age_of now (last_success turns_h).
Proof.
  intros Hg Hh H. unfold api_health in H. inv_res. subst h. simpl.
  split; [done|]. split; [done|].
  assert (Hgk : refresh_loop "headlines" turns_h cache !! "games"
                = Some {| data := []; updated := NInt 0 |}).
  { by rewrite refresh_loop_other. }
  split.
  - by eapply age_sec_entry.
  - match goal with
    | Ha : age_sec _ "headlines" _ = Ok _ |- _ =>
        unfold age_sec in Ha;
        rewrite refresh_loop_other in Ha by done;
        fold (age_sec now "headlines"
                (refresh_loop "headlines" turns_h cache)) in Ha
    end.
    by eapply (age_sec_entry now "headlines" cache).
Qed.

Lemma health_report_witness :
  api_health (PyFloat.of_Z 1699999000) (PyFloat.of_Z 1700000090)
    (refresh_loop "games" sample_turns (refresh_loop "headlines" [] cache))
  = Ok {| hl_status := "ok"; uptime_sec := 1090;
          games_age_sec := Some 90; headlines_age_sec := None |}.
Proof.
  assert (H : { h | api_health (PyFloat.of_Z 1699999000)
                      (PyFloat.of_Z 1700000090)
                      (refresh_loop "games" sample_turns
                         (refresh_loop "headlines" [] cache)) = Ok h }).
  { eexists. vm_compute. reflexivity. }
  destruct H as [h Hh]. rewrite Hh. f_equal.
  destruct (health_report (PyFloat.of_Z 1699999000) (PyFloat.of_Z 1700000090)
              sample_turns [] h eq_refl eq_refl Hh) as (Hs & Hu & Hga & Hha).
  destruct h as [s u g a]. simpl in *.
  vm_compute in Hu. apply Ok_inj in Hu.
  vm_compute in Hga. vm_compute in Hha. by subst.
Defined.

(** ** Equality of payload values *)

Lemma pv_size_item (d : gmap string pyval) k v :
  d !! k = Some v -> (pv_size v < pv_size (VDict d))%nat.
Proof.
  intros Hk. cbn [pv_size].
  rewrite (map_fold_delete_L _ _ k v d); [lia| |done].
  intros. lia.
Qed.

Lemma SFeqb_refl x : x <> S754_nan -> SFeqb x x = true.
Proof.
  destruct x as [[]|[]| |[] m e]; try done; intros _;
    unfold SFeqb, SFcompare; rewrite Z.compare_refl, ?Pos.compare_refl;
    done.
Qed.

Lemma num_eq_refl n : num_eq n n = true.
Proof.
  destruct n as [z|x]; simpl; [apply Z.eqb_refl|].
  destruct x; try done; apply SFeqb_refl; done.
Qed.

(** Inside one payload every value equals itself. *)
Lemma item_eq_refl v : item_eq v v = true.
Proof.
  remember (pv_size v) as n eqn:Hn.
  revert v Hn. induction (lt_wf n) as [n _ IH]. intros v ->.
  destruct v as [|b|z|x|s|l|d]; try done.
  - apply (num_eq_refl (NInt (Z.b2z b))).
  - apply (num_eq_refl (NInt z)).
  - apply (num_eq_refl (NFloat x)).
  - apply String.eqb_refl.
  - cbn [item_eq].
    assert (Hl : forall x, In x l -> item_eq x x = true).
    { intros x Hx. eapply IH; [|reflexivity]. cbn [pv_size].
      clear IH. induction l as [|y l IHl]; [done|].
      destruct Hx as [->|Hx]; [lia|]. specialize (IHl Hx). lia. }
    clear IH. induction l as [|y l IHl]; [done|].
    rewrite (Hl y) by (by left). simpl. apply IHl.
    intros x Hx. apply Hl. by right.
  - cbn [item_eq]. rewrite Nat.eqb_refl. simpl.
    assert (Hd : forall k x, d !! k = Some x -> item_eq x x = true).
    { intros k x Hk. eapply IH; [|reflexivity]. by eapply pv_size_item. }
    clear IH.
    assert (H : forall d' : gmap string pyval,
              (forall k x, d' !! k = Some x -> d !! k = Some x) ->
              map_fold
                (fun k v acc =>
                   acc && match d !! k with
                          | Some v' => item_eq v v'
                          | None => false
                          end) true d' = true).
    { intros d'. apply (map_fold_weak_ind
        (fun r (m : gmap string pyval) =>
           (forall k x, m !! k = Some x -> d !! k = Some x) -> r = true)).
      - done.
      - intros i x m r Hi IHm Hsub.
        rewrite IHm.
        + rewrite (Hsub i x) by apply lookup_insert_eq. simpl.
          apply (Hd i). apply Hsub, lookup_insert_eq.
        + intros k y Hk. apply Hsub.
          rewrite lookup_insert_ne; [done|]. intros ->. congruence. }
    by apply H.
Qed.

(** ** Leaders *)

Lemma py_eq_refl_dict d : py_eq (VDict d) (VDict d) = true.
Proof. apply (item_eq_refl (VDict d)). Qed.

Lemma side_leader_dict ld key :
  side_leader (VDict ld) key
  = Ok (match ld !! key with
        | Some v => Some {| ld_p := default (VStr "—") (ld !! "name");
                            ld_v := v |}
        | None => None
        end).
Proof. unfold side_leader. simpl. by destruct (ld !! key). Qed.

Lemma leaders_step_dict gl is_home api_key our_home l side :
  gl !! api_key = VDict <$> side ->
  leaders_step (VDict gl) is_home api_key our_home l
  = Ok (match side with
        | Some ld =>
            if Bool.eqb our_home is_home
            then update_leaders l
                   (match ld !! "points" with
                    | Some v => Some {| ld_p := default (VStr "—") (ld !! "name");
                                        ld_v := v |}
                    | None => None
                    end,
                    match ld !! "rebounds" with
                    | Some v => Some {| ld_p := default (VStr "—") (ld !! "name");
                                        ld_v := v |}
                    | None => None
                    end,
                    match ld !! "assists" with
                    | Some v => Some {| ld_p := default (VStr "—") (ld !! "name");
                                        ld_v := v |}
                    | None => None
                    end)
            else l
        | None => l
        end).
Proof.
  intros H. unfold leaders_step. simpl. rewrite H.
  destruct side as [ld|]; simpl; [|done].
  by rewrite !side_leader_dict.
Qed.

(** The team whose record equals the home record takes the leaders of
    "homeLeaders", any other team those of "awayLeaders"; a category or
    a side that is missing leaves the default. *)
Lemma team_leaders_side t home (gd gl : gmap string pyval) hl al :
  gd !! "gameLeaders" = Some (VDict gl) ->
  gl !! "homeLeaders" = VDict <$> hl ->
  gl !! "awayLeaders" = VDict <$> al ->
  team_leaders t home (VDict gd)
  = Ok (side_leaders_of (if py_eq t home then hl else al)).
Proof.
  intros Hgl Hh Ha. unfold team_leaders. simpl. rewrite Hgl. simpl.
  destruct (bool_decide (gl = ∅)) eqn:E.
  - apply bool_decide_eq_true in E. subst gl.
    rewrite lookup_empty in Hh, Ha.
    destruct hl; [done|]. destruct al; [done|]. simpl. by destruct (py_eq t home).
  - simpl. rewrite (leaders_step_dict _ _ _ _ _ hl Hh). simpl.
    rewrite (leaders_step_dict _ _ _ _ _ al Ha).
    destruct (py_eq t home), hl as [h|], al as [a|]; simpl;
      unfold side_leaders, pick_leader, update_leaders; simpl;
      repeat case_match; reflexivity.
Qed.

Section LeaderFacts.

Variable repr_other : pyval -> string.

Lemma parse_team_leaders t home g tb :
  parse_team repr_other t home g = Ok tb ->
  team_leaders t home g = Ok (leaders tb) /\ exists d, t = VDict d.
Proof.
  unfold parse_team. intros H. inv_res. subst tb. simpl.
  split; [done|].
  match goal with
  | Hq : period_scores _ = Ok _ |- _ =>
      unfold period_scores in Hq; inv_res
  end.
  destruct t; try discriminate. eauto.
Qed.

(** X15. In a normalised game the home side carries the leaders of
    "homeLeaders" and the away side those of "awayLeaders" (those of
    "homeLeaders" if the two team records are equal); without
    "gameLeaders", or with an empty or null one, both sides carry the
    defaults. *)
Theorem leaders_by_side (gd : gmap string pyval) game :
  game_of repr_other (VDict gd) = Ok game ->
  (py_truth (default (VDict ∅) (gd !! "gameLeaders")) = false ->
   leaders (home game) = leaders0 /\ leaders (away game) = leaders0) /\
  (forall gl hl al,
     gd !! "gameLeaders" = Some (VDict gl) ->
     gl !! "homeLeaders" = VDict <$> hl ->
     gl !! "awayLeaders" = VDict <$> al ->
     leaders (home game) = side_leaders_of hl /\
     leaders (away game)
     = side_leaders_of
         (if py_eq (team_of gd "awayTeam") (team_of gd "homeTeam")
          then hl else al)).
Proof.
  unfold game_of. intros H. inv_res. subst game. simpl.
  repeat match goal with
    | Hp : parse_team _ _ _ _ = Ok _ |- _ =>
        apply parse_team_leaders in Hp as [? [? ?]]
    end.
  simpl in Ha, Ha0. apply Ok_inj in Ha, Ha0. subst.
  split.
  - intros Ht. unfold team_leaders in *. simpl in *.
    rewrite Ht in *. split; congruence.
  - intros gl hl al Hgl Hh Hal.
    repeat match goal with
      | H1 : team_leaders ?t ?h _ = Ok (leaders ?x) |- _ =>
          rewrite (team_leaders_side t h _ _ _ _ Hgl Hh Hal) in H1;
          apply Ok_inj in H1
      end.
    unfold team_of.
    match goal with
    | E : default _ (gd !! "homeTeam") = VDict ?d |- _ =>
        rewrite E in *; rewrite py_eq_refl_dict in *
    end.
    split; congruence.
Qed.

End LeaderFacts.

Lemma leaders_by_side_witness :
  exists game,
    game_of plain_repr sample_live_game = Ok game /\
    leaders (home game)
    = {| l_pts := {| ld_p := VStr "Jayson Tatum"; ld_v := VInt 30 |};
         l_reb := {| ld_p := VStr "Jayson Tatum"; ld_v := VInt 8 |};
         l_ast := {| ld_p := VStr "Jayson Tatum"; ld_v := VInt 4 |} |}.
Proof.
  assert (Hg : { game | game_of plain_repr sample_live_game = Ok game }).
  { eexists. vm_compute. reflexivity. }
  destruct Hg as [game Hg]. exists game. split; [exact Hg|].
  destruct (leaders_by_side plain_repr live_fields game Hg) as [_ H].
  destruct (H live_leaders (Some live_home_leaders) None) as [Hh _];
    [vm_compute; reflexivity..|].
  rewrite Hh. reflexivity.
Defined.
(** ** Players: more facts *)

Section MorePlayerFacts.

Variable repr_other : pyval -> string.

Lemma update_totals_stats t min_val sv l t' :
  update_totals t min_val sv l = Ok t' ->
  forall k, acc_add (tot_stat k t) (line_stat k l) = Ok (tot_stat k t').
Proof.
  unfold update_totals. intros H. inv_res. subst t'.
  intros []; simpl; assumption.
Qed.

Lemma totals_from_stats lines : forall t t',
  totals_from t lines = Ok t' ->
  forall k,
    sum_from (tot_stat k t) ((fun x => line_stat k x.1.2) <$> lines)
    = Ok (tot_stat k t').
Proof.
  induction lines as [|[[s l] sv] lines IH]; intros t t' H k; simpl in H.
  - inv_res. by subst t'.
  - inv_res. rewrite fmap_cons. cbn [sum_from fst snd].
    rewrite (update_totals_stats _ _ _ _ _ Ha k). simpl. by apply IH.
Qed.

(** X16. The totals of the eight counting statistics (rebounds, assists,
    steals, blocks, turnovers, fouls) are the sums over the players who
    play, added in the order of the payload; the plus/minus of the
    totals is always empty. *)
Theorem counting_totals_are_sums players_data sec :
  _parse_players repr_other players_data = Ok sec ->
  exists ps lines,
    py_iter players_data = Ok ps /\
    mapM (active_line repr_other)
         (List.filter (fun p => negb (sits_out p)) ps) = Ok lines /\
    tl_pm (totals sec) = EmptyString /\
    forall k,
      py_sum ((fun x => line_stat k x.1.2) <$> lines)
      = Ok (total_stat k (totals sec)) /\
      (Forall (fun x => is_int (line_stat k x.1.2)) lines ->
       total_stat k (totals sec)
       = NInt (sum_Z ((fun l => int_of (line_stat k l)) <$> starters sec)
               + sum_Z ((fun l => int_of (line_stat k l)) <$> bench sec))).
Proof.
  unfold _parse_players. intros H. inv_res.
  match goal with
  | Hloop : players_loop _ _ _ = Ok ?st |- _ =>
      rename st into st0;
      apply players_loop_spec in Hloop
        as (ents & lines & He & Hl & Hd & Hs & Hb & Ht)
  end.
  simpl in Hd, Hs, Hb, Ht.
  pose proof (totals_from_stats _ _ _ Ht) as Hk.
  subst sec. simpl.
  eexists _, lines. split; [eassumption|]. split; [exact Hl|].
  split; [reflexivity|].
  intros k. specialize (Hk k).
  assert (Hsum : py_sum ((fun x => line_stat k x.1.2) <$> lines)
                 = Ok (tot_stat k (ls_totals st0))).
  { unfold py_sum. by destruct k. }
  split; [by destruct k|].
  intros Hint. unfold py_sum in Hsum.
  apply sum_from_ints in Hsum; [|by apply Forall_fmap].
  replace (total_stat k (format_totals repr_other (ls_totals st0)))
    with (tot_stat k (ls_totals st0)) by (by destruct k).
  rewrite Hsum, Hs, Hb. f_equal. simpl.
  rewrite <- (lines_of_sum (fun l => int_of (line_stat k l))).
  by rewrite <- list_fmap_compose.
Qed.

(** X17. When every record sits out, there is no starter and no bench
    player, every record has its entry in [dnp], the totals are all
    zero and the percentages are those of zero attempts. *)
Theorem all_sit_out players_data ps sec :
  py_iter players_data = Ok ps ->
  forallb sits_out ps = true ->
  _parse_players repr_other players_data = Ok sec ->
  starters sec = [] /\ bench sec = [] /\
  length (dnp sec) = length ps /\
  totals sec = format_totals repr_other totals0 /\
  pcts sec = {| pc_fg := py_str repr_other (VFloat (S754_zero false)) +:+ "%";
                pc_tp := py_str repr_other (VFloat (S754_zero false)) +:+ "%";
                pc_ft := py_str repr_other (VFloat (S754_zero false)) +:+ "%" |}.
Proof.
  unfold _parse_players. intros Hps Hall H. inv_res.
  match goal with
  | Hit : py_iter _ = Ok ?l |- _ =>
      rewrite Hps in Hit; apply Ok_inj in Hit; subst l
  end.
  match goal with
  | Hloop : players_loop _ _ _ = Ok ?st |- _ =>
      rename st into st0;
      apply players_loop_spec in Hloop
        as (ents & lines & He & Hl & Hd & Hs & Hb & Ht)
  end.
  assert (Hf : List.filter (fun p => negb (sits_out p)) ps = []).
  { clear -Hall. induction ps as [|p ps IH]; [done|]. simpl in *.
    apply andb_prop in Hall as [-> Hall]. simpl. by apply IH. }
  assert (Hg : List.filter sits_out ps = ps).
  { clear -Hall. induction ps as [|p ps IH]; [done|]. simpl in *.
    apply andb_prop in Hall as [-> Hall]. by rewrite IH. }
  rewrite Hf in Hl. simpl in Hl. apply Ok_inj in Hl. subst lines.
  rewrite Hg in He.
  simpl in *. apply Ok_inj in Ht.
  rewrite <- Ht in *. simpl in *.
  assert (Hz : pct_str repr_other (NInt 0, NInt 0)
               = Ok (py_str repr_other (VFloat (S754_zero false)) +:+ "%"))
    by reflexivity.
  repeat match goal with
    | H : pct_str _ _ = Ok ?a |- _ =>
        is_var a; rewrite Hz in H; apply Ok_inj in H
    end.
  subst. simpl.
  split; [done|]. split; [done|]. split; [|split; done].
  by eapply mapM_length.
Qed.

Lemma players_loop_raises ps : forall st p,
  In p ps ->
  (forall st', exists e, player_step repr_other st' p = Raise e) ->
  exists e, players_loop repr_other st ps = Raise e.
Proof.
  induction ps as [|q ps IH]; intros st p Hin Hp; [done|].
  simpl. destruct Hin as [->|Hin].
  - destruct (Hp st) as [e ->]. simpl. eauto.
  - destruct (player_step repr_other st q) as [st'|e]; simpl; eauto.
Qed.

(** X18. The statistics of a record are looked into only when the player
    plays.  A record that sits out passes with any "statistics", a null
    one included; a record of a player who plays and whose "statistics"
    is not an object makes the whole section fail, whatever the other
    records are. *)
Theorem statistics_only_for_active (d : gmap string pyval) v :
  d !! "statistics" = Some v -> not_dict v ->
  (sits_out (VDict d) = true ->
   forall st, player_step repr_other st (VDict d)
              = player_step repr_other st (VDict (delete "statistics" d))) /\
  (sits_out (VDict d) = false ->
   forall ps, In (VDict d) ps ->
     exists e, _parse_players repr_other (VList ps) = Raise e).
Proof.
  intros Hv Hnd. split.
  - intros Hout st.
    assert (Hdnp : is_dnp (VDict (delete "statistics" d)) = Ok true).
    { unfold sits_out in Hout. rewrite is_dnp_dict in *. simpl in Hout.
      rewrite !lookup_delete_ne by done. by rewrite Hout. }
    assert (Hdnp0 : is_dnp (VDict d) = Ok true).
    { unfold sits_out in Hout. rewrite is_dnp_dict in *. simpl in Hout.
      by rewrite Hout. }
    assert (Hent : dnp_entry repr_other (VDict (delete "statistics" d))
                   = dnp_entry repr_other (VDict d)).
    { unfold dnp_entry, player_name, py_get.
      by rewrite !lookup_delete_ne. }
    unfold player_step.
    change (py_get (VDict d) "statistics" (VDict ∅))
      with (Ok (default (VDict ∅) (d !! "statistics")) : res pyval).
    change (py_get (VDict (delete "statistics" d)) "statistics" (VDict ∅))
      with (Ok (default (VDict ∅) (delete "statistics" d !! "statistics"))
            : res pyval).
    cbn [mbind res_bind]. rewrite Hdnp, Hdnp0. cbn [mbind res_bind].
    by rewrite Hent.
  - intros Hout ps Hin. unfold _parse_players. simpl.
    destruct (players_loop_raises ps loop0 (VDict d) Hin) as [e He];
      [|rewrite He; simpl; eauto].
    intros st. unfold player_step. simpl. rewrite Hv. simpl.
    unfold sits_out in Hout. rewrite is_dnp_dict in *. simpl in Hout.
    rewrite Hout. unfold active_step, player_minutes.
    destruct v; simpl; eauto. by destruct (Hnd d0).
Qed.

(** X19. The name of a record is [_short_name] of its "name"; the first and
    the family name, joined by a space, stand in when "name" is
    missing.  They are joined before "name" is looked up: a first or
    family name that is present and not a str makes the record fail
    even when it has a "name". *)
Theorem player_name_cases (d : gmap string pyval) :
  (forall first family full,
     str_field d "firstName" EmptyString first ->
     str_field d "familyName" EmptyString family ->
     d !! "name" = Some full ->
     player_name (VDict d) = _short_name full) /\
  (forall first family,
     str_field d "firstName" EmptyString first ->
     str_field d "familyName" EmptyString family ->
     d !! "name" = None ->
     player_name (VDict d)
     = _short_name (VStr ((first +:+ " ") +:+ family))) /\
  (forall v, d !! "firstName" = Some v -> not_str v ->
     player_name (VDict d) = Raise TypeError) /\
  (forall v, d !! "familyName" = Some v -> not_str v ->
     player_name (VDict d) = Raise TypeError).
Proof.
  unfold player_name, str_field, py_get. repeat split.
  - intros first family full [->|[-> ->]] [->|[-> ->]] ->; reflexivity.
  - intros first family [->|[-> ->]] [->|[-> ->]] ->; reflexivity.
  - intros v -> Hv. destruct v; simpl; try done. by destruct (Hv s).
  - intros v -> Hv.
    destruct (default (VStr EmptyString) (d !! "firstName")); simpl; try done.
    destruct v; simpl; try done. by destruct (Hv s0).
Qed.

End MorePlayerFacts.

Lemma counting_totals_are_sums_witness :
  exists sec,
    _parse_players plain_repr sample_rotation = Ok sec /\
    total_stat REB (totals sec) = NInt 7 /\
    total_stat AST (totals sec) = NInt 10 /\
    total_stat OREB (totals sec) = NInt 1 /\
    tl_pm (totals sec) = EmptyString.
Proof.
  eexists. split; [vm_compute; reflexivity|].
  match goal with
  | |- context [totals ?s] =>
      destruct (counting_totals_are_sums plain_repr sample_rotation s)
        as (ps & lines & Hps & Hl & Hpm & Hk);
        [vm_compute; reflexivity|]
  end.
  vm_compute in Hps. apply Ok_inj in Hps. subst ps.
  vm_compute in Hl. apply Ok_inj in Hl. subst lines.
  split; [|split; [|split; [|exact Hpm]]].
  - apply Ok_inj. rewrite <- (proj1 (Hk REB)). reflexivity.
  - apply Ok_inj. rewrite <- (proj1 (Hk AST)). reflexivity.
  - apply Ok_inj. rewrite <- (proj1 (Hk OREB)). reflexivity.
Defined.

Lemma all_sit_out_witness :
  exists sec,
    _parse_players plain_repr (VList sample_inactive) = Ok sec /\
    starters sec = [] /\ bench sec = [] /\ length (dnp sec) = 2%nat /\
    tl_pts (totals sec) = NInt 0.
Proof.
  eexists. split; [vm_compute; reflexivity|].
  match goal with
  | |- context [starters ?s] =>
      destruct (all_sit_out plain_repr (VList sample_inactive)
                  sample_inactive s eq_refl eq_refl)
        as (Hs & Hb & Hd & Ht & _); [vm_compute; reflexivity|]
  end.
  split; [exact Hs|]. split; [exact Hb|]. split; [exact Hd|].
  rewrite Ht. reflexivity.
Defined.

Lemma statistics_only_for_active_witness :
  exists e,
    _parse_players plain_repr (VList (sample_inactive ++ [VDict sample_broken]))
    = Raise e.
Proof.
  apply (proj2 (statistics_only_for_active plain_repr sample_broken VNone
                  eq_refl ltac:(discriminate)) eq_refl).
  apply in_or_app. right. left. reflexivity.
Defined.

Lemma player_name_cases_witness :
  player_name (dict [("firstName", VStr "Kristaps");
                     ("familyName", VStr "Porzingis")])
  = Ok "K. Porzingis" /\
  player_name (dict [("name", VStr "Jrue Holiday"); ("firstName", VNone)])
  = Raise TypeError.
Proof.
  unfold dict. split.
  - rewrite (proj1 (proj2 (player_name_cases
               (list_to_map [("firstName", VStr "Kristaps");
                             ("familyName", VStr "Porzingis")])))
               "Kristaps" "Porzingis");
      [reflexivity | by left | by left | reflexivity].
  - apply (proj1 (proj2 (proj2 (player_name_cases
             (list_to_map [("name", VStr "Jrue Holiday");
                           ("firstName", VNone)])))) VNone);
      [reflexivity | discriminate].
Defined.

Section PayloadFacts.

Variable repr_other : pyval -> string.

Lemma player_step_not_dict st p :
  not_dict p -> exists e, player_step repr_other st p = Raise e.
Proof.
  intros Hp. unfold player_step. destruct p; simpl; eauto.
  by destruct (Hp d).
Qed.

(** X28. A players payload that is not a list gives an empty section when it
    is an empty str or an empty object, and makes [_parse_players] raise
    in every other case: a number, [None], a str or an object that is
    not empty. *)
Theorem players_payload_not_a_list v :
  (forall l, v <> VList l) ->
  match _parse_players repr_other v with
  | Ok sec =>
      (v = VStr EmptyString \/ v = VDict ∅) /\
      starters sec = [] /\ bench sec = [] /\ dnp sec = []
  | Raise _ => v <> VStr EmptyString /\ v <> VDict ∅
  end.
Proof.
  intros Hv. unfold _parse_players.
  destruct v as [|b|z|x|s|l|d]; simpl; try (split; discriminate).
  - destruct s as [|c s].
    + simpl. auto.
    + destruct (players_loop_raises repr_other (chars (String c s)) loop0
                  (VStr (String c EmptyString))) as [e ->].
      * by left.
      * intros st. apply player_step_not_dict. discriminate.
      * simpl. split; discriminate.
  - by destruct (Hv l).
  - destruct (map_to_list d) as [|[k x] rest] eqn:E.
    + apply map_to_list_empty_iff in E. subst d. simpl. auto.
    + destruct (players_loop_raises repr_other
                  (VStr <$> (((k, x) :: rest).*1)) loop0 (VStr k)) as [e ->].
      * by left.
      * intros st. apply player_step_not_dict. discriminate.
      * simpl. split; [discriminate|].
        intros [= ->]. by rewrite map_to_list_empty in E.
Qed.

End PayloadFacts.

Lemma players_payload_not_a_list_witness :
  (exists e, _parse_players plain_repr (VStr "n/a") = Raise e) /\
  (exists sec, _parse_players plain_repr (VDict ∅) = Ok sec /\
               starters sec = [] /\ bench sec = [] /\ dnp sec = []).
Proof.
  split.
  - pose proof (players_payload_not_a_list plain_repr (VStr "n/a")
                  ltac:(discriminate)) as H.
    destruct (_parse_players plain_repr (VStr "n/a")) as [sec|e] eqn:E.
    + exfalso. vm_compute in E. discriminate E.
    + eauto.
  - pose proof (players_payload_not_a_list plain_repr (VDict ∅)
                  ltac:(discriminate)) as H.
    destruct (_parse_players plain_repr (VDict ∅)) as [sec|e] eqn:E.
    + exists sec. split; [reflexivity|]. apply H.
    + exfalso. vm_compute in E. discriminate E.
Defined.
(** ** The lock discipline: more facts *)

Module ThreadMore.
Import Threads ThreadNotions ThreadFacts.

(** X20. Two threads are never inside their [with cache_lock] blocks at the
    same time: while one is inside, it holds the lock and every other
    thread is outside. *)
Theorem mutual_exclusion σ i ti :
  reachable σ ->
  threads σ !! i = Some ti -> in_cs ti = true ->
  lock (shared σ) = Some i /\
  forall j tj, j <> i -> threads σ !! j = Some tj -> in_cs tj = false.
Proof.
  intros Hr Hi Hci. destruct (reachable_inv _ Hr) as [Hts _].
  destruct (Hts _ _ Hi) as [Hli _]. specialize (Hli Hci).
  split; [done|]. intros j tj Hne Hj.
  by eapply outside_when_other; eauto.
Qed.

(** X21. A thread writes only under its own key, and a handler writes
    nothing. *)
Theorem only_own_key i ch t sh t' sh' k' :
  thread_step i ch t sh = Some (t', sh') ->
  is_writer t = false \/ key_of t <> k' ->
  store sh' !! k' = store sh !! k'.
Proof.
  intros Hstep Hk. step_cases Hstep t ch; try done;
    destruct Hk as [Hk|Hk]; try discriminate;
    by rewrite lookup_insert_ne.
Qed.

Lemma thread_step_dom i ch t sh t' sh' :
  thread_step i ch t sh = Some (t', sh') ->
  dom (store sh') = dom (store sh).
Proof.
  intros Hstep. step_cases Hstep t ch; try done;
    rewrite dom_insert_L; apply subseteq_union_1_L, singleton_subseteq_l;
    by eapply elem_of_dom_2.
Qed.

Lemma dom_lookup_None (m m' : gmap string Slot) k :
  dom m' = dom m -> m !! k = None -> m' !! k = None.
Proof.
  intros Hd Hk. apply not_elem_of_dom. rewrite Hd. by apply not_elem_of_dom.
Qed.

Lemma initial_keys_inv σ : initial σ -> keys_inv σ.
Proof.
  intros (Hst & Hl & Hts). split; [|split].
  - rewrite Hst. apply dom_fmap_L.
  - intros i k Hi. rewrite Forall_forall in Hts.
    assert (Hf : fresh (Reader k RFailed))
      by (apply Hts; eapply list_elem_of_lookup_2; eauto).
    destruct Hf.
  - intros i Hi. congruence.
Qed.

Lemma step_keys_inv σ σ' : inv σ -> keys_inv σ -> step σ σ' -> keys_inv σ'.
Proof.
  intros [Hts _] (Hdom & Hfail & Hlock) Hstep.
  destruct Hstep as [i ch t t' sh' σ Hi Hst | k σ]; simpl.
  - assert (Hlt : (i < length (threads σ))%nat) by (by eapply lookup_lt_Some).
    pose proof (thread_step_dom _ _ _ _ _ _ Hst) as Hd.
    pose proof (Hts _ _ Hi) as [Hcs _].
    split; [|split]; simpl.
    + by rewrite Hd.
    + intros j k Hj. destruct (decide (i = j)) as [<-|Hne].
      * rewrite list_lookup_insert_eq in Hj by done. simplify_eq.
        step_cases Hst t ch; done.
      * rewrite list_lookup_insert_ne in Hj by done.
        eapply dom_lookup_None; eauto.
    + intros j Hj. destruct (decide (i = j)) as [<-|Hne].
      * exists t'. rewrite list_lookup_insert_eq by done. split; [done|].
        step_cases Hst t ch; try done;
          destruct (Hlock _ Hj) as (t0 & Ht0 & Hc0); simplify_eq; done.
      * rewrite list_lookup_insert_ne by done.
        assert (Hsame : lock (shared σ) = Some j).
        { step_cases Hst t ch; try done; try specialize (Hcs eq_refl);
            simpl in *; congruence. }
        by apply Hlock.
  - split; [done|]. split.
    + intros i k' Hi. apply lookup_app_Some in Hi as [Hi|[_ Hi]]; [eauto|].
      apply list_lookup_singleton_Some in Hi as [_ Hi]. discriminate.
    + intros i Hi. destruct (Hlock _ Hi) as (t & Ht & Hc).
      exists t. split; [by apply lookup_app_l_Some | done].
Qed.

Lemma reachable_keys_inv σ : reachable σ -> inv σ /\ keys_inv σ.
Proof.
  intros (σ0 & H0 & Hsteps).
  pose proof (initial_inv _ H0) as Hi. apply initial_keys_inv in H0.
  induction Hsteps as [|x y z Hxy _ IH]; [done|].
  apply IH; [by eapply step_keys_inv | by eapply step_inv].
Qed.

(** X22. The handlers of "games" and "headlines" never fail on a missing
    key, whatever the writers do: the store keeps exactly the two keys
    of the initial cache. *)
Theorem handlers_never_fail σ :
  reachable σ ->
  dom (store (shared σ)) = {["games"; "headlines"]} /\
  forall i k, k = "games" \/ k = "headlines" ->
    threads σ !! i <> Some (Reader k RFailed).
Proof.
  intros Hr. destruct (reachable_keys_inv _ Hr) as [_ (Hdom & Hfail & _)].
  assert (Hc : dom cache = ({["games"; "headlines"]} : gset string)).
  { unfold cache. rewrite !dom_insert_L, dom_empty_L.
    by rewrite (right_id_L ∅ (∪)). }
  split; [by rewrite Hdom|].
  intros i k Hk Hi. apply Hfail in Hi. apply not_elem_of_dom in Hi.
  rewrite Hdom, Hc in Hi. apply Hi.
  destruct Hk as [->| ->];
    [apply elem_of_union_l | apply elem_of_union_r]; by apply elem_of_singleton.
Qed.

(** X23. No deadlock: when the lock is taken, the thread that holds it is
    inside its [with] block and can move; when the lock is free, every
    thread that has not finished can move. *)
Theorem lock_holder_moves σ :
  reachable σ ->
  (forall i, lock (shared σ) = Some i ->
     exists t ch t' sh',
       threads σ !! i = Some t /\ in_cs t = true /\
       thread_step i ch t (shared σ) = Some (t', sh')) /\
  (lock (shared σ) = None ->
   forall i t, threads σ !! i = Some t -> finished t = false ->
     exists ch t' sh', thread_step i ch t (shared σ) = Some (t', sh')).
Proof.
  intros Hr. destruct (reachable_keys_inv _ Hr) as [[Hts _] (_ & _ & Hlock)].
  split.
  - intros i Hi. destruct (Hlock _ Hi) as (t & Ht & Hc).
    exists t.
    destruct t as [k n []|k []]; try discriminate;
      match goal with
      | |- context [Writer _ _ WSetUpdated] => exists (Clock (S754_zero false))
      | _ => exists Tau
      end;
      simpl; try destruct (store (shared σ) !! k);
      eexists _, _; (split; [exact Ht|]); split; reflexivity.
  - intros Hfree i t Hi Hfin.
    pose proof (outside_when_free _ _ _ Hfree (Hts _ _ Hi)) as Hout.
    destruct t as [k n []|k []]; try discriminate;
      first [ by (exists Tau; simpl; rewrite ?Hfree; eauto)
            | by (exists (Fetch (Returned None)); simpl; eauto) ].
Qed.

Lemma step_current_inv σ σ' :
  inv σ -> current_inv σ -> step σ σ' -> current_inv σ'.
Proof.
  intros [Hts _] Hcur Hstep.
  destruct Hstep as [i ch t t' sh' σ Hi Hst | k σ]; simpl.
  - assert (Hlt : (i < length (threads σ))%nat) by (by eapply lookup_lt_Some).
    intros j tj Hj. simpl in *.
    destruct (decide (i = j)) as [<-|Hne].
    + rewrite list_lookup_insert_eq in Hj by done. simplify_eq.
      pose proof (Hcur _ _ Hi) as Hc.
      step_cases Hst t ch; try done; simpl in *.
      * eauto.
      * destruct Hc as (s0 & Hs0 & Hd). simplify_eq. eauto.
      * destruct Hc as (s0 & Hs0 & Hd & Hu). simplify_eq. eauto 10.
    + rewrite list_lookup_insert_ne in Hj by done.
      pose proof (Hcur _ _ Hj) as Hc.
      pose proof (Hts _ _ Hj) as [Hcsj _].
      pose proof (thread_step_locked _ _ _ _ _ _ Hst (Hts _ _ Hi)) as Hl.
      assert (Hin : in_cs tj = true -> sh' = shared σ).
      { intros Hin. specialize (Hcsj Hin).
        destruct Hl as [->|[Hl|Hl]]; [done|congruence|congruence]. }
      destruct tj as [k n pc|k []]; try done; simpl in *;
        by rewrite Hin.
  - intros j tj Hj. simpl in *.
    apply lookup_app_Some in Hj as [Hj|[_ Hj]]; [by eapply Hcur|].
    apply list_lookup_singleton_Some in Hj as [_ <-]. done.
Qed.

Lemma reachable_current_inv σ : reachable σ -> current_inv σ.
Proof.
  intros Hr. pose proof Hr as (σ0 & H0 & Hsteps).
  assert (H : inv σ0 /\ current_inv σ0).
  { split; [by apply initial_inv|].
    destruct H0 as (_ & _ & Hf). intros i t Hi.
    rewrite Forall_forall in Hf.
    assert (Hfr : fresh t) by (apply Hf; eapply list_elem_of_lookup_2; eauto).
    by destruct t as [k n []|k []]. }
  clear H0 Hr. induction Hsteps as [|x y z Hxy _ IH]; [by destruct H|].
  destruct H as [Hi Hc]. apply IH. split.
  - by eapply step_inv.
  - by eapply step_current_inv.
Qed.

(** X24. What a handler answers is the entry of its key as it stands when
    the handler leaves its [with] block: the list, the timestamp and
    the length of that list, all of one moment. *)
Theorem snapshot_is_current σ i k r :
  reachable σ ->
  threads σ !! i = Some (Reader k (RRelease r)) ->
  exists s,
    store (shared σ) !! k = Some s /\
    s_data r = data (entry s) /\
    s_updated r = updated (entry s) /\
    s_count r = length (data (entry s)).
Proof.
  intros Hr Hi. destruct (reachable_current_inv _ Hr _ _ Hi)
    as (s & Hs & Hd & Hu & Hc).
  exists s. auto.
Qed.

Lemma reachable_run sched σ0 σ :
  initial σ0 -> run sched σ0 = Some σ -> reachable σ.
Proof. intros H0 Hrun. exists σ0. split; [done|]. by eapply run_steps. Qed.

End ThreadMore.

Lemma sample_server_initial : Threads.initial sample_server.
Proof. split; [reflexivity|]. split; [reflexivity|]. repeat constructor. Qed.

Lemma mutual_exclusion_witness :
  exists σ,
    Threads.run (take 2 sample_schedule) sample_server = Some σ /\
    Threads.threads σ !! 0%nat
    = Some (Threads.Writer "headlines" 0 (Threads.WSetData [IHeadline sample_headline])) /\
    Threads.lock (Threads.shared σ) = Some 0%nat /\
    Threads.in_cs (Threads.Reader "headlines" Threads.RAcquire) = false.
Proof.
  eexists. split; [vm_compute; reflexivity|]. split; [reflexivity|].
  match goal with
  | |- Threads.lock (Threads.shared ?s) = _ /\ _ =>
      destruct (ThreadMore.mutual_exclusion s 0%nat
                  (Threads.Writer "headlines" 0
                     (Threads.WSetData [IHeadline sample_headline])))
        as [Hl Ho];
        [ apply (ThreadMore.reachable_run (take 2 sample_schedule)
                   sample_server);
          [apply sample_server_initial | vm_compute; reflexivity]
        | reflexivity | reflexivity | ]
  end.
  split; [exact Hl|].
  apply (Ho 1%nat); [discriminate | reflexivity].
Defined.

Lemma only_own_key_witness :
  exists sh',
    Threads.thread_step 0 Threads.Tau
      (Threads.Writer "headlines" 0 (Threads.WSetData [IHeadline sample_headline]))
      (Threads.shared sample_server)
    = Some (Threads.Writer "headlines" 0 Threads.WSetUpdated, sh') /\
    Threads.store sh' !! "games"
    = Threads.store (Threads.shared sample_server) !! "games".
Proof.
  eexists. split; [vm_compute; reflexivity|].
  eapply (ThreadMore.only_own_key 0 Threads.Tau
            (Threads.Writer "headlines" 0
               (Threads.WSetData [IHeadline sample_headline]))).
  - vm_compute. reflexivity.
  - right. discriminate.
Defined.

Lemma handlers_never_fail_witness :
  exists σ,
    Threads.run sample_schedule sample_server = Some σ /\
    dom (Threads.store (Threads.shared σ)) = {["games"; "headlines"]} /\
    Threads.threads σ !! 1%nat
    <> Some (Threads.Reader "headlines" Threads.RFailed).
Proof.
  eexists. split; [vm_compute; reflexivity|].
  match goal with
  | |- dom (Threads.store (Threads.shared ?s)) = _ /\ _ =>
      destruct (ThreadMore.handlers_never_fail s) as [Hd Hf];
        [ apply (ThreadMore.reachable_run sample_schedule sample_server);
          [apply sample_server_initial | vm_compute; reflexivity] | ]
  end.
  split; [exact Hd|]. apply Hf. by right.
Defined.

Lemma lock_holder_moves_witness :
  exists σ t ch t' sh',
    Threads.run (take 2 sample_schedule) sample_server = Some σ /\
    Threads.threads σ !! 0%nat = Some t /\ Threads.in_cs t = true /\
    Threads.thread_step 0 ch t (Threads.shared σ) = Some (t', sh').
Proof.
  assert (H : { σ | Threads.run (take 2 sample_schedule) sample_server = Some σ }).
  { eexists. vm_compute. reflexivity. }
  destruct H as [σ Hσ].
  destruct (ThreadMore.lock_holder_moves σ) as [Hheld _].
  { by apply (ThreadMore.reachable_run (take 2 sample_schedule) sample_server);
      [apply sample_server_initial|]. }
  destruct (Hheld 0%nat) as (t & ch & t' & sh' & Ht & Hc & Hs).
  { vm_compute in Hσ. injection Hσ as <-. reflexivity. }
  exists σ, t, ch, t', sh'. auto.
Defined.


Lemma snapshot_is_current_witness :
  exists σ r s,
    Threads.run (take 9 sample_schedule) sample_server = Some σ /\
    Threads.threads σ !! 1%nat
    = Some (Threads.Reader "headlines" (Threads.RRelease r)) /\
    Threads.store (Threads.shared σ) !! "headlines" = Some s /\
    Threads.s_data r = data (Threads.entry s) /\
    Threads.s_updated r = updated (Threads.entry s) /\
    Threads.s_data r = [IHeadline sample_headline].
Proof.
  assert (H : { σ | Threads.run (take 9 sample_schedule) sample_server = Some σ }).
  { eexists. vm_compute. reflexivity. }
  destruct H as [σ Hσ].
  assert (Ht : { r | Threads.threads σ !! 1%nat
                     = Some (Threads.Reader "headlines" (Threads.RRelease r))
                     /\ Threads.s_data r = [IHeadline sample_headline] }).
  { vm_compute in Hσ. injection Hσ as <-. eexists. split; reflexivity. }
  destruct Ht as [r [Ht Hd]].
  destruct (ThreadMore.snapshot_is_current σ 1%nat "headlines" r)
    as (s & Hs & H1 & H2 & _); [|exact Ht|].
  { by apply (ThreadMore.reachable_run (take 9 sample_schedule) sample_server);
      [apply sample_server_initial|]. }
  exists σ, r, s. auto 10.
Defined.

Lemma writer_turn_is_refresh_cycle_witness :
  exists σ,
    Threads.run (take 5 sample_schedule ++ [(0%nat, Threads.Tau)])
      {| Threads.shared := Threads.shared sample_server;
         Threads.threads := [Threads.Writer "headlines" 0 Threads.WFetch] |}
    = Some σ /\
    Threads.entry <$> Threads.store (Threads.shared σ)
    = refresh_cycle "headlines" (Returned (Some [IHeadline sample_headline]))
        (PyFloat.of_Z 1700000000) cache.
Proof.
  destruct (ThreadFacts.writer_turn_is_refresh_cycle "headlines" 0
              [IHeadline sample_headline] (PyFloat.of_Z 1700000000)
              (Threads.shared sample_server)
              (Threads.slot0 {| data := []; updated := NInt 0 |})
              eq_refl eq_refl) as (σ & Hrun & Hst & _).
  exists σ. split; [exact Hrun|]. rewrite Hst. reflexivity.
Defined.

Module ThreadMore2.
Import Threads ThreadNotions ThreadFacts.

(** X27. A handler that runs without interruption answers what the
    sequential read of the entries answers, and leaves the store and the
    lock as they were. *)
Theorem reader_turn_is_read_snapshot k sh s :
  lock sh = None -> store sh !! k = Some s ->
  exists σ' r,
    run [(0%nat, Tau); (0%nat, Tau); (0%nat, Tau); (0%nat, Tau); (0%nat, Tau)]
        {| shared := sh; threads := [Reader k RAcquire] |} = Some σ' /\
    threads σ' = [Reader k (RDone r)] /\
    shared σ' = sh /\
    read_snapshot k (entry <$> store sh)
    = Ok {| r_data := s_data r; r_updated := s_updated r;
            r_count := s_count r |}.
Proof.
  intros Hl Hk. eexists _, _. split.
  - cbn. rewrite Hl. cbn. rewrite Hk. cbn. rewrite Hk. cbn. rewrite Hk. cbn.
    reflexivity.
  - cbn. split; [reflexivity|]. split.
    + destruct sh as [st l]. simpl in *. by subst.
    + unfold read_snapshot. by rewrite lookup_fmap, Hk.
Qed.

End ThreadMore2.

Lemma reader_turn_is_read_snapshot_witness :
  exists σ r,
    Threads.run (replicate 5 (0%nat, Threads.Tau))
      {| Threads.shared := Threads.shared sample_server;
         Threads.threads := [Threads.Reader "games" Threads.RAcquire] |}
    = Some σ /\
    Threads.threads σ = [Threads.Reader "games" (Threads.RDone r)] /\
    api_games cache
    = Ok {| r_data := Threads.s_data r; r_updated := Threads.s_updated r;
            r_count := Threads.s_count r |}.
Proof.
  destruct (ThreadMore2.reader_turn_is_read_snapshot "games"
              (Threads.shared sample_server)
              (Threads.slot0 {| data := []; updated := NInt 0 |})
              eq_refl eq_refl) as (σ & r & Hrun & Ht & _ & Hread).
  exists σ, r. split; [exact Hrun|]. split; [exact Ht|]. exact Hread.
Defined.
